(** * AutoCleaner_App: a shallow embedding of the cleaning pipeline

    The development follows [AutoCleaner_App.py] function by function.
    A DataFrame is an ordered list of labelled columns; a column carries
    its dtype and its cells.  The Python exceptions the pipeline can meet
    are values of [error]; the functions that can raise return a [result].

    Conventions of the embedding.
    - Text is a Rocq [string].  The [str] methods are defined on the ASCII
      range; a character above 127 is neither a space, a digit nor a cased
      letter.
    - A Python [float] is the rational it stands for, with the
      infinities and NaN beside it ([pyfloat]).  [float(s)] and the
      product round to the nearest double and overflow to an infinity
      ([Double.round]); the number parser of pandas and its arithmetic
      (the median, an [int] made a float) are exact, and there is no
      negative zero.
    - [strftime] writes the year as the C library of the platform does,
      on four digits or as it is: which, is a parameter of the
      development ([year_padded]).
    - The pandas calls are modelled with the semantics of pandas 1.5 to
      2.x (in particular [fillna(..., inplace=True)] on [df[col]] writes
      through to the frame, and a frame of one column is deduplicated
      by [Series.duplicated]). *)

From Stdlib Require Import List String Ascii ZArith NArith QArith Bool Lia
  Arith.
From Stdlib Require Import DecimalString.
Import ListNotations.

Local Open Scope string_scope.
Local Open Scope Z_scope.

(* ================================================================= *)
(** ** Exceptions and the result monad *)

Inductive error : Type :=
| AttributeError   (* a Series method asked of a DataFrame *)
| TypeError
| ValueError
| IndexError       (* [.iloc[0]] on an empty Series *)
| KeyError.

Inductive result (A : Type) : Type :=
| Ok (a : A)
| Raise (e : error).
Arguments Ok {A} a.
Arguments Raise {A} e.

Definition bind {A B} (r : result A) (k : A -> result B) : result B :=
  match r with
  | Ok a => k a
  | Raise e => Raise e
  end.

Declare Scope py_scope.
Notation "x <- c1 ;; c2" := (bind c1 (fun x => c2))
  (at level 61, c1 at next level, right associativity) : py_scope.
Local Open Scope py_scope.

(** [for x in xs: acc = body(acc, x)], stopping at the first exception. *)
Fixpoint for_each {A S} (body : S -> A -> result S) (xs : list A) (acc : S)
  : result S :=
  match xs with
  | [] => Ok acc
  | x :: xs' => acc' <- body acc x ;; for_each body xs' acc'
  end.

Definition returns {A} (r : result A) : Prop := exists a, r = Ok a.

(* ================================================================= *)
(** ** Characters and the [str] methods the program uses *)

Module Str.

Definition code (c : ascii) : N := N_of_ascii c.

Definition between (lo hi : N) (c : ascii) : bool :=
  ((lo <=? code c) && (code c <=? hi))%N.

(** [str.isspace] on the ASCII range: TAB..CR, FS..US and the blank. *)
Definition isspace (c : ascii) : bool :=
  between 9 13 c || between 28 32 c.

Definition isdigit (c : ascii) : bool := between 48 57 c.
Definition isupper (c : ascii) : bool := between 65 90 c.
Definition islower (c : ascii) : bool := between 97 122 c.

Definition tolower (c : ascii) : ascii :=
  if isupper c then ascii_of_N (code c + 32) else c.
Definition toupper (c : ascii) : ascii :=
  if islower c then ascii_of_N (code c - 32) else c.

Definition chars (s : string) : list ascii := list_ascii_of_string s.
Definition of_chars (l : list ascii) : string := string_of_list_ascii l.

Definition eqc (a b : ascii) : bool := Ascii.eqb a b.

(** [s.lower()] *)
Definition lower (s : string) : string := of_chars (map tolower (chars s)).

Fixpoint lstrip_chars (l : list ascii) : list ascii :=
  match l with
  | c :: l' => if isspace c then lstrip_chars l' else l
  | [] => []
  end.

(** [s.strip()] *)
Definition strip_chars (l : list ascii) : list ascii :=
  rev (lstrip_chars (rev (lstrip_chars l))).
Definition strip (s : string) : string := of_chars (strip_chars (chars s)).

(** [s.replace(c, '')] for a one-character pattern. *)
Definition remove (c : ascii) (s : string) : string :=
  of_chars (filter (fun x => negb (eqc x c)) (chars s)).

(** [s.replace(a, b)] for one-character pattern and replacement. *)
Definition replace1 (a b : ascii) (s : string) : string :=
  of_chars (map (fun x => if eqc x a then b else x) (chars s)).

Fixpoint prefix_chars (p l : list ascii) : bool :=
  match p, l with
  | [], _ => true
  | a :: p', b :: l' => eqc a b && prefix_chars p' l'
  | _ :: _, [] => false
  end.

Fixpoint contains_chars (p l : list ascii) : bool :=
  prefix_chars p l ||
  match l with
  | [] => false
  | _ :: l' => contains_chars p l'
  end.

(** [sub in s] *)
Definition contains (sub s : string) : bool :=
  contains_chars (chars sub) (chars s).

(** [s.title()]: a cased letter is upper-cased when the character before
    it is not cased, and lower-cased otherwise. *)
Fixpoint title_chars (previous_is_cased : bool) (l : list ascii) : list ascii :=
  match l with
  | [] => []
  | c :: l' =>
      if islower c then
        (if previous_is_cased then c else toupper c) :: title_chars true l'
      else if isupper c then
        (if previous_is_cased then tolower c else c) :: title_chars true l'
      else c :: title_chars false l'
  end.
Definition title (s : string) : string := of_chars (title_chars false (chars s)).

(** [s.capitalize()] *)
Definition capitalize_chars (l : list ascii) : list ascii :=
  match l with
  | [] => []
  | c :: l' => toupper c :: map tolower l'
  end.

(** [s.split()]: the maximal runs of non-space characters. *)
Fixpoint split_chars (cur : list ascii) (l : list ascii) : list (list ascii) :=
  match l with
  | [] => match cur with [] => [] | _ => [rev cur] end
  | c :: l' =>
      if isspace c then
        match cur with
        | [] => split_chars [] l'
        | _ => rev cur :: split_chars [] l'
        end
      else split_chars (c :: cur) l'
  end.

(** [' '.join(words)] *)
Fixpoint join_chars (words : list (list ascii)) : list ascii :=
  match words with
  | [] => []
  | [w] => w
  | w :: ws => (w ++ " "%char :: join_chars ws)%list
  end.

(** Python compares strings by code point. *)
Fixpoint ltb_chars (a b : list ascii) : bool :=
  match a, b with
  | [], [] => false
  | [], _ :: _ => true
  | _ :: _, [] => false
  | x :: a', y :: b' =>
      if (code x <? code y)%N then true
      else if (code y <? code x)%N then false
      else ltb_chars a' b'
  end.
Definition ltb (a b : string) : bool := ltb_chars (chars a) (chars b).
Definition leb (a b : string) : bool := negb (ltb b a).

Definition is_empty (s : string) : bool :=
  match s with EmptyString => true | _ => false end.

End Str.

(* ================================================================= *)
(** ** Python values *)

(** A [float]: a finite value, an infinity or NaN. *)
Inductive pyfloat : Type :=
| FFin (q : Q)
| FInf (negative : bool)
| FNaN.

(** What [parse_salary] returns besides [None]: an [int] from the Roman
    branch, a [float] from the two others. *)
Inductive pynum : Type :=
| PInt (z : Z)
| PFloat (f : pyfloat).

(** A cell of a DataFrame.  [CFloat FNaN] is the missing marker of the
    readers ([read_csv], [read_excel]); [CNone] is Python's [None]. *)
Inductive cell : Type :=
| CStr (s : string)
| CInt (z : Z)
| CFloat (f : pyfloat)
| CNone.

(** [pd.isna] on a scalar. *)
Definition isna (c : cell) : bool :=
  match c with
  | CNone | CFloat FNaN => true
  | _ => false
  end.

(** A finite [float] is kept as the rational it stands for.  The
    operations of the program that make one from an exact value,
    [float(s)] and the product, round it as IEEE 754 does: to the
    nearest double, to the one with the even mantissa of two equally
    near, and to an infinity from 2^1024 - 2^970 on. *)
Module Double.

(** [n / d] rounded to the nearest integer, to the even one of two
    equally near; [d] is positive. *)
Definition div_half_even (n d : Z) : Z :=
  let q := n / d in
  let r := n mod d in
  if 2 * r <? d then q
  else if d <? 2 * r then q + 1
  else if Z.even q then q else q + 1.

(** [2^e <= n / d] *)
Definition pow2_le (e n d : Z) : bool :=
  if 0 <=? e then d * 2 ^ e <=? n else d <=? n * 2 ^ (- e).

(** The binary exponent of [n / d > 0]: the [e] with
    [2^e <= n / d < 2^(e+1)]. *)
Definition exponent (n d : Z) : Z :=
  let e := Z.log2 n - Z.log2 d in
  if pow2_le e n d then e else e - 1.

(** [m * 2^k] *)
Definition scale2 (m k : Z) : Q :=
  if 0 <=? k then inject_Z (m * 2 ^ k)
  else Qred (Qmake m (Z.to_pos (2 ^ (- k)))).

(** The double nearest to [n / d > 0], and nothing when that is out of
    range.  A mantissa has 53 bits; under 2^-1022 the doubles stay
    2^-1074 apart. *)
Definition nearest (n d : Z) : option Q :=
  let k := Z.max (exponent n d) (-1022) - 52 in
  let m := if 0 <=? k then div_half_even n (d * 2 ^ k)
           else div_half_even (n * 2 ^ (- k)) d in
  if 2 ^ (1024 - k) <=? m then None else Some (scale2 m k).

Definition round (q : Q) : pyfloat :=
  let n := Qnum q in
  if n =? 0 then FFin 0
  else
    match nearest (Z.abs n) (Zpos (Qden q)) with
    | Some v => FFin (if n <? 0 then Qopp v else v)
    | None => FInf (n <? 0)
    end.

End Double.

(** [f * k] for an integer [k] *)
Definition fmul (f : pyfloat) (k : Z) : pyfloat :=
  match f with
  | FFin q => Double.round (q * inject_Z k)
  | FInf neg =>
      if (0 <? k)%Z then FInf neg
      else if (k <? 0)%Z then FInf (negb neg)
      else FNaN
  | FNaN => FNaN
  end.

(* ================================================================= *)
(** ** [float(s)] *)

Module PyFloat.
Import Str.

Definition digit_value (c : ascii) : Z := Z.of_N (code c - 48).

(** [int] of a run of decimal digits. *)
Definition digits_value (ds : list ascii) : Z :=
  fold_left (fun acc c => 10 * acc + digit_value c) ds 0.

Fixpoint span_digits (l : list ascii) : list ascii * list ascii :=
  match l with
  | c :: l' =>
      if isdigit c then let '(ds, r) := span_digits l' in (c :: ds, r)
      else ([], l)
  | [] => ([], [])
  end.

(** CPython removes the underscores of a numeric literal after checking
    that each stands between two digits. *)
Fixpoint strip_underscores (prev : ascii) (l : list ascii) : option (list ascii) :=
  match l with
  | [] => if eqc prev "_" then None else Some []
  | c :: l' =>
      if eqc c "_" then
        if isdigit prev then strip_underscores c l' else None
      else if eqc prev "_" && negb (isdigit c) then None
      else option_map (cons c) (strip_underscores c l')
  end.

Definition split_sign (l : list ascii) : bool * list ascii :=
  match l with
  | "-"%char :: r => (true, r)
  | "+"%char :: r => (false, r)
  | _ => (false, l)
  end.

(** The exponent part, [e] or [E] then an optional sign and digits. *)
Definition parse_exponent (l : list ascii) : option Z :=
  match l with
  | [] => Some 0
  | c :: r =>
      if eqc (tolower c) "e" then
        let '(neg, r1) := split_sign r in
        match span_digits r1 with
        | ((_ :: _) as ds, []) =>
            Some (if neg then - digits_value ds else digits_value ds)
        | _ => None
        end
      else None
  end.

(** mantissa * 10^e *)
Definition scale10 (m e : Z) : Q :=
  if (0 <=? e)%Z then inject_Z (m * 10 ^ e)
  else Qred (Qmake m (Z.to_pos (10 ^ (- e)))).

(** A decimal literal: digits, an optional point and digits, an optional
    exponent; at least one digit in the mantissa. *)
Definition parse_decimal (l : list ascii) : option Q :=
  let '(ip, r1) := span_digits l in
  let '(fp, r2) :=
    match r1 with
    | "."%char :: r => span_digits r
    | _ => ([], r1)
    end in
  match (ip ++ fp)%list with
  | [] => None
  | m =>
      match parse_exponent r2 with
      | Some e => Some (scale10 (digits_value m) (e - Z.of_nat (List.length fp)))
      | None => None
      end
  end.

Definition special (l : list ascii) : option (bool -> pyfloat) :=
  let w := of_chars (map tolower l) in
  if String.eqb w "inf" || String.eqb w "infinity" then Some FInf
  else if String.eqb w "nan" then Some (fun _ => FNaN)
  else None.

Definition parse_signed (l : list ascii) : option pyfloat :=
  let '(neg, r) := split_sign l in
  match special r with
  | Some f => Some (f neg)
  | None =>
      match parse_decimal r with
      | Some q => Some (Double.round (if neg then Qopp q else q))
      | None => None
      end
  end.

(** [Py_ISSPACE]: the blank and TAB..CR.  [float] trims these from an
    ASCII text, and not the separators FS..US that [str.strip] trims. *)
Definition is_c_space (c : ascii) : bool := eqc c " " || between 9 13 c.

Fixpoint skip_c_spaces (l : list ascii) : list ascii :=
  match l with
  | c :: l' => if is_c_space c then skip_c_spaces l' else l
  | [] => []
  end.

Definition trim (l : list ascii) : list ascii :=
  rev (skip_c_spaces (rev (skip_c_spaces l))).

(** [float(s)]; [None] stands for the [ValueError]. *)
Definition float (s : string) : option pyfloat :=
  match strip_underscores " " (trim (chars s)) with
  | Some l => parse_signed l
  | None => None
  end.

End PyFloat.

(* ================================================================= *)
(** ** The number parser behind [pd.to_numeric] *)

Module PdNumeric.
Import Str PyFloat.

(** The C [isspace] of the tokenizer: blank and TAB..CR. *)
Definition isspace_ascii (c : ascii) : bool := eqc c " " || between 9 13 c.

Fixpoint skip_spaces (l : list ascii) : list ascii :=
  match l with
  | c :: l' => if isspace_ascii c then skip_spaces l' else l
  | [] => []
  end.

(** The exponent and what follows it: nothing but spaces may follow. *)
Definition exponent_and_rest (l : list ascii) : option (bool * Z) :=
  match l with
  | c :: r =>
      if eqc (tolower c) "e" then
        let '(neg, r1) := split_sign r in
        match span_digits r1 with
        | ((_ :: _) as ds, rest) =>
            if forallb isspace_ascii rest
            then Some (true, if neg then - digits_value ds else digits_value ds)
            else None
        | _ => None
        end
      else if forallb isspace_ascii l then Some (false, 0) else None
  | [] => Some (false, 0)
  end.

(** [to_double]: the value, and whether the text was a plain integer. *)
Definition to_double (l : list ascii) : option pynum :=
  let '(neg, r) := split_sign (skip_spaces l) in
  let '(ip, r1) := span_digits r in
  let '(point, fp, r2) :=
    match r1 with
    | "."%char :: r' => let '(fp, r2) := span_digits r' in (true, fp, r2)
    | _ => (false, [], r1)
    end in
  match (ip ++ fp)%list with
  | [] => None
  | m =>
      match exponent_and_rest r2 with
      | Some (has_exp, e) =>
          if point || has_exp then
            let q := scale10 (digits_value m) (e - Z.of_nat (List.length fp)) in
            Some (PFloat (FFin (if neg then Qred (- q) else q)))
          else Some (PInt (if neg then - digits_value m else digits_value m))
      | None => None
      end
  end.

(** [floatify]: the number, else one of the spellings of infinity and
    NaN, else failure. *)
Definition floatify (s : string) : option pynum :=
  match to_double (chars s) with
  | Some n => Some n
  | None =>
      let w := lower s in
      if String.eqb w "inf" || String.eqb w "+inf" ||
         String.eqb w "infinity" || String.eqb w "+infinity"
      then Some (PFloat (FInf false))
      else if String.eqb w "-inf" || String.eqb w "-infinity"
      then Some (PFloat (FInf true))
      else if String.eqb w "nan" then Some (PFloat FNaN)
      else None
  end.

End PdNumeric.

(* ================================================================= *)
(** ** [roman_to_int] *)

Definition roman_map (c : ascii) : option Z :=
  match c with
  | "i"%char => Some 1
  | "v"%char => Some 5
  | "x"%char => Some 10
  | "l"%char => Some 50
  | "c"%char => Some 100
  | "d"%char => Some 500
  | "m"%char => Some 1000
  | _ => None
  end.

(** [roman_map.get(char, 0)] *)
Definition roman_get (char : ascii) : Z :=
  match roman_map char with
  | Some v => v
  | None => 0
  end.

(** One turn of the loop on the state [(total, prev)]. *)
Definition roman_step (st : Z * Z) (char : ascii) : Z * Z :=
  let '(total, prev) := st in
  ((if roman_get char <? prev then total - roman_get char
    else total + roman_get char),
   roman_get char).

Definition roman_to_int (s : string) : Z :=
  fst (fold_left roman_step (rev (Str.chars (Str.lower s))) (0, 0)).

(** [re.fullmatch(r'[ivxlcdm]+', val)] *)
Definition is_roman_char (c : ascii) : bool :=
  match c with
  | "i"%char | "v"%char | "x"%char | "l"%char | "c"%char | "d"%char
  | "m"%char => true
  | _ => false
  end.

Definition fullmatch_roman (val : string) : bool :=
  match Str.chars val with
  | [] => false
  | l => forallb is_roman_char l
  end.

(** [re.sub(r'[^\d.]', '', val)] *)
Definition keep_digits_and_dots (val : string) : string :=
  Str.of_chars (filter (fun c => Str.isdigit c || Str.eqc c ".") (Str.chars val)).

(** [str(z)] for an [int] *)
Definition str_of_int (z : Z) : string :=
  DecimalString.NilZero.string_of_int (Z.to_int z).

(* ================================================================= *)
(** ** [datetime.strptime] and [strftime] *)

Record date : Type := mkDate { year : Z; month : Z; day : Z }.

Module Strptime.
Import Str.

(** A format string is read as a sequence of directives: a run of
    white space in the format stands for the pattern [\s+], any other
    character for itself. *)
Inductive directive : Type :=
| Day | Month | Year | AbbrMonth | FullMonth
| Lit (c : ascii)
| Spaces.

Fixpoint compile (fmt : list ascii) : list directive :=
  match fmt with
  | [] => []
  | "%"%char :: c :: r =>
      (if eqc c "d" then Day else if eqc c "m" then Month
       else if eqc c "Y" then Year else if eqc c "b" then AbbrMonth
       else if eqc c "B" then FullMonth else Lit c) :: compile r
  | c :: r =>
      if isspace c then
        match compile r with
        | Spaces :: ds => Spaces :: ds
        | ds => Spaces :: ds
        end
      else Lit c :: compile r
  end.

Definition month_names : list string :=
  [ "january"; "february"; "march"; "april"; "may"; "june"; "july";
    "august"; "september"; "october"; "november"; "december" ].

Definition abbr_names : list string :=
  [ "jan"; "feb"; "mar"; "apr"; "may"; "jun"; "jul"; "aug"; "sep"; "oct";
    "nov"; "dec" ].

Definition value2 (a b : ascii) : Z := 10 * PyFloat.digit_value a + PyFloat.digit_value b.

(** The matches of [%d], i.e. of [3[0-1]|[1-2]\d|0[1-9]|[1-9]| [1-9]], at
    the head of the text, in the order the regex engine tries them. *)
Definition day_matches (l : list ascii) : list (Z * list ascii) :=
  match l with
  | a :: r =>
      let two :=
        match r with
        | b :: r' =>
            if (eqc a "3" && between 48 49 b) || (between 49 50 a && isdigit b)
               || (eqc a "0" && between 49 57 b)
            then [(value2 a b, r')]
            else if eqc a " " && between 49 57 b
            then [(PyFloat.digit_value b, r')]
            else []
        | [] => []
        end in
      let one := if between 49 57 a then [(PyFloat.digit_value a, r)] else [] in
      (two ++ one)%list
  | [] => []
  end.

(** The matches of [%m], i.e. of [1[0-2]|0[1-9]|[1-9]]. *)
Definition month_matches (l : list ascii) : list (Z * list ascii) :=
  match l with
  | a :: r =>
      let two :=
        match r with
        | b :: r' =>
            if (eqc a "1" && between 48 50 b) || (eqc a "0" && between 49 57 b)
            then [(value2 a b, r')]
            else []
        | [] => []
        end in
      let one := if between 49 57 a then [(PyFloat.digit_value a, r)] else [] in
      (two ++ one)%list
  | [] => []
  end.

(** [%Y] is [\d\d\d\d]. *)
Definition year_matches (l : list ascii) : list (Z * list ascii) :=
  match l with
  | a :: b :: c :: d :: r =>
      if isdigit a && isdigit b && isdigit c && isdigit d
      then [(PyFloat.digits_value [a; b; c; d], r)]
      else []
  | _ => []
  end.

(** A month name, whatever its case; the value is its rank from 1. *)
Fixpoint name_matches (names : list string) (rank : Z) (l : list ascii)
  : list (Z * list ascii) :=
  match names with
  | [] => []
  | n :: names' =>
      let k := String.length n in
      (if String.eqb (of_chars (map tolower (firstn k l))) n
       then [(rank, skipn k l)] else [])
      ++ name_matches names' (rank + 1) l
  end%list.

(** [\s+] is greedy: the whole run first, then shorter ones. *)
Fixpoint space_matches (l : list ascii) : list (list ascii) :=
  match l with
  | c :: r => if isspace c then (space_matches r ++ [r])%list else []
  | [] => []
  end.

(** The fields of a match, starting from the defaults of [strptime]. *)
Definition fields : Type := (Z * Z * Z)%type.
Definition defaults : fields := (1900, 1, 1).

Definition candidates (d : directive) (f : fields) (l : list ascii)
  : list (fields * list ascii) :=
  let '(y, m, dd) := f in
  match d with
  | Day => map (fun p => ((y, m, fst p), snd p)) (day_matches l)
  | Month => map (fun p => ((y, fst p, dd), snd p)) (month_matches l)
  | Year => map (fun p => ((fst p, m, dd), snd p)) (year_matches l)
  | AbbrMonth => map (fun p => ((y, fst p, dd), snd p)) (name_matches abbr_names 1 l)
  | FullMonth => map (fun p => ((y, fst p, dd), snd p)) (name_matches month_names 1 l)
  | Lit c =>
      match l with
      | a :: r => if eqc (tolower a) (tolower c) then [(f, r)] else []
      | [] => []
      end
  | Spaces => map (fun r => (f, r)) (space_matches l)
  end.

Fixpoint first_some {A B} (k : A -> option B) (l : list A) : option B :=
  match l with
  | [] => None
  | x :: l' => match k x with Some y => Some y | None => first_some k l' end
  end.

(** [format_regex.match(data_string)]: the first match a backtracking
    engine finds, with the text left after it. *)
Fixpoint regex_match (ds : list directive) (f : fields) (l : list ascii)
  : option (fields * list ascii) :=
  match ds with
  | [] => Some (f, l)
  | d :: ds' => first_some (fun p => regex_match ds' (fst p) (snd p)) (candidates d f l)
  end.

Definition is_leap (y : Z) : bool :=
  (y mod 4 =? 0) && (negb (y mod 100 =? 0) || (y mod 400 =? 0)).

Definition days_in_month (y m : Z) : Z :=
  if m =? 2 then (if is_leap y then 29 else 28)
  else if (m =? 4) || (m =? 6) || (m =? 9) || (m =? 11) then 30
  else 31.

(** What the [datetime] constructor accepts. *)
Definition valid_date (d : date) : bool :=
  (1 <=? year d) && (year d <=? 9999) &&
  (1 <=? month d) && (month d <=? 12) &&
  (1 <=? day d) && (day d <=? days_in_month (year d) (month d)).

(** [datetime.strptime(data_string, format)]; [None] stands for the
    [ValueError] of a text that does not match, of text left over after
    the match, and of a day the month does not have. *)
Definition strptime (data_string format : string) : option date :=
  match regex_match (compile (chars format)) defaults (chars data_string) with
  | Some ((y, m, d), []) =>
      if valid_date (mkDate y m d) then Some (mkDate y m d) else None
  | _ => None
  end.

(** A number in decimal, padded with zeros on the left to [width]. *)
Definition zero_pad (width : nat) (n : Z) : string :=
  let s := str_of_int n in
  of_chars (repeat "0"%char (width - String.length s)) ++ s.

(** [%Y] as [strftime] writes it.  CPython hands the format to the C
    library, and the libraries differ: glibc writes the year as the
    number it is, so that a year below 1000 comes out on fewer than
    four digits ('999'); the libraries of Windows and macOS pad it with
    zeros to four ('0999'), and so does CPython itself from 3.13 on.
    [padded] tells the two apart. *)
Definition year_text (padded : bool) (y : Z) : string :=
  if padded then zero_pad 4 y else str_of_int y.

(** [d.strftime('%Y-%m-%d')]; the month and the day are on two digits
    everywhere. *)
Definition strftime (padded : bool) (d : date) : string :=
  year_text padded (year d) ++ "-" ++ zero_pad 2 (month d) ++ "-"
    ++ zero_pad 2 (day d).

End Strptime.

(* ================================================================= *)
(** ** Equality and order of Python objects *)

Module Obj.

Definition feqb (a b : pyfloat) : bool :=
  match a, b with
  | FFin p, FFin q => Qeq_bool p q
  | FInf s, FInf t => Bool.eqb s t
  | _, _ => false
  end.

Definition fleb (a b : pyfloat) : bool :=
  match a, b with
  | FNaN, _ | _, FNaN => false
  | FInf true, _ => true
  | _, FInf false => true
  | FFin p, FFin q => Qle_bool p q
  | _, _ => false
  end.

Definition as_number (x : cell) : option pyfloat :=
  match x with
  | CInt z => Some (FFin (inject_Z z))
  | CFloat f => Some f
  | _ => None
  end.

(** [a == b] *)
Definition eqb (a b : cell) : bool :=
  match a, b with
  | CStr u, CStr v => String.eqb u v
  | CNone, CNone => true
  | _, _ =>
      match as_number a, as_number b with
      | Some f, Some g => feqb f g
      | _, _ => false
      end
  end.

(** [a <= b] where it does not raise: between two texts and between
    two numbers. *)
Definition leb (a b : cell) : bool :=
  match a, b with
  | CStr u, CStr v => Str.leb u v
  | _, _ =>
      match as_number a, as_number b with
      | Some f, Some g => fleb f g
      | _, _ => false
      end
  end.

Definition is_str (x : cell) : bool :=
  match x with CStr _ => true | _ => false end.
Definition is_number (x : cell) : bool :=
  match as_number x with Some _ => true | None => false end.

Definition is_nan (x : cell) : bool :=
  match x with CFloat FNaN => true | _ => false end.

(** Two cells fall in the same group of [DataFrame.duplicated] on a
    frame of several columns: both missing, or equal.  Each column is
    factorized, and [factorize] gives every missing value, [None] or
    NaN, the same code. *)
Definition same_key (a b : cell) : bool :=
  (isna a && isna b) || eqb a b.

(** A frame of one column is handed to [Series.duplicated] (pandas 1.5
    on), which hashes the objects themselves: NaN is then the same as
    NaN, and [None] the same as [None] only. *)
Definition same_object (a b : cell) : bool :=
  (is_nan a && is_nan b) || eqb a b.

End Obj.

(* ================================================================= *)
(** ** Series and DataFrames *)

Inductive dtype : Type := object | int64 | float64.

Definition is_object (d : dtype) : bool :=
  match d with object => true | _ => false end.

Record Series : Type := mkSeries { dt : dtype; values : list cell }.

(** A frame: its columns in order, each with its label.  Nothing keeps
    two columns from carrying the same label.  The rows are counted on
    the first column; a frame without columns has none. *)
Definition DataFrame : Type := list (string * Series).

(** [df.columns] *)
Definition columns (df : DataFrame) : list string := map fst df.

(** [df.shape] *)
Definition nrows (df : DataFrame) : nat :=
  match df with
  | [] => 0%nat
  | (_, s) :: _ => List.length (values s)
  end.
Definition ncols (df : DataFrame) : nat := List.length df.

Definition labelled (col : string) (p : string * Series) : bool :=
  String.eqb (fst p) col.

(** [df[col]] where a Series is needed.  pandas hands back a DataFrame
    when the label is carried by several columns, and the Series
    operation applied to it raises [e]. *)
Definition getitem (e : error) (df : DataFrame) (col : string) : result Series :=
  match filter (labelled col) df with
  | [] => Raise KeyError
  | [p] => Ok (snd p)
  | _ :: _ :: _ => Raise e
  end.

(** [df[col] = s] for a label already present. *)
Definition setitem (df : DataFrame) (col : string) (s : Series) : DataFrame :=
  map (fun p => if labelled col p then (fst p, s) else p) df.

(** The dtype pandas infers for the objects a function returned
    ([lib.maybe_convert_objects]): text keeps the column [object], so
    does a column of [None] alone; integers alone give [int64]; numbers
    with [None] or NaN among them give [float64]. *)
Definition has_str (l : list cell) : bool :=
  existsb (fun c => match c with CStr _ => true | _ => false end) l.
Definition all_none (l : list cell) : bool :=
  forallb (fun c => match c with CNone => true | _ => false end) l.
Definition all_int (l : list cell) : bool :=
  forallb (fun c => match c with CInt _ => true | _ => false end) l.

Definition to_float_cell (c : cell) : cell :=
  match c with
  | CInt z => CFloat (FFin (inject_Z z))
  | CNone => CFloat FNaN
  | _ => c
  end.

Definition infer_objects (l : list cell) : Series :=
  if has_str l || all_none l then mkSeries object l
  else if all_int l then mkSeries int64 l
  else mkSeries float64 (map to_float_cell l).

(** [s.apply(f)] for a function that does not raise; on an empty Series
    pandas returns a copy. *)
Definition apply (f : cell -> cell) (s : Series) : Series :=
  match values s with
  | [] => s
  | l => infer_objects (map f l)
  end.

(** [s.apply(f)] for a function that may raise. *)
Fixpoint map_result {A B} (f : A -> result B) (l : list A) : result (list B) :=
  match l with
  | [] => Ok []
  | x :: l' => y <- f x ;; ys <- map_result f l' ;; Ok (y :: ys)
  end.

Definition apply_result (f : cell -> result cell) (s : Series) : result Series :=
  match values s with
  | [] => Ok s
  | l => l' <- map_result f l ;; Ok (infer_objects l')
  end.

Section Pipeline.

(** [repr] of a finite float.  The shortest-digits algorithm of
    [float.__repr__] is not modelled: it is a parameter of the
    development. *)
Variable float_repr : Q -> string.

Definition str_of_float (f : pyfloat) : string :=
  match f with
  | FFin q => float_repr q
  | FInf false => "inf"
  | FInf true => "-inf"
  | FNaN => "nan"
  end.

(** [str(x)] *)
Definition str (x : cell) : string :=
  match x with
  | CStr s => s
  | CInt z => str_of_int z
  | CFloat f => str_of_float f
  | CNone => "None"
  end.

(* ----------------------------------------------------------------- *)
(** *** [clean_column_names] *)

Definition normalize_name (col : string) : string :=
  Str.replace1 " " "_" (Str.title (Str.strip col)).

Definition clean_column_names (df : DataFrame) : DataFrame :=
  map (fun p => (normalize_name (fst p), snd p)) df.

(* ----------------------------------------------------------------- *)
(** *** [normalize_salary_column] *)

Definition cell_of_result (r : option pynum) : cell :=
  match r with
  | Some (PInt z) => CInt z
  | Some (PFloat f) => CFloat f
  | None => CNone
  end.

Definition clean_salary_text (val : cell) : string :=
  Str.strip (Str.remove "," (Str.remove "$" (Str.lower (str val)))).

Definition parse_salary (val : cell) : option pynum :=
  let val := clean_salary_text val in
  if fullmatch_roman val then
    Some (PInt (roman_to_int val))
  else if Str.contains "k" val then
    match PyFloat.float (Str.remove "k" val) with
    | Some f => Some (PFloat (fmul f 1000))
    | None => None
    end
  else
    match PyFloat.float (keep_digits_and_dots val) with
    | Some f => Some (PFloat f)
    | None => None
    end.

Definition salary_body (df : DataFrame) (col : string) : result DataFrame :=
  if Str.contains "salary" (Str.lower col) then
    s <- getitem ValueError df col ;;
    Ok (setitem df col (apply (fun val => cell_of_result (parse_salary val)) s))
  else Ok df.

Definition normalize_salary_column (df : DataFrame) : result DataFrame :=
  for_each salary_body (columns df) df.

(* ----------------------------------------------------------------- *)
(** *** [clean_text_columns] *)

(** [df.select_dtypes(include='object').columns] *)
Definition object_columns (df : DataFrame) : list string :=
  map fst (filter (fun p => is_object (dt (snd p))) df).

(** [s.astype(str)]: every cell goes through [str], the missing ones too. *)
Definition astype_str (s : Series) : Series :=
  mkSeries object (map (fun x => CStr (str x)) (values s)).

(** A method of the [.str] accessor: applied to the text cells, NaN for
    the others. *)
Definition str_method (f : string -> string) (s : Series) : Series :=
  mkSeries object
    (map (fun x => match x with CStr v => CStr (f v) | _ => CFloat FNaN end)
         (values s)).

(** The characters [re.sub(r'[^a-z0-9\s.,/-]', '', x)] keeps. *)
Definition kept_in_text (c : ascii) : bool :=
  Str.islower c || Str.isdigit c || Str.isspace c ||
  Str.eqc c "." || Str.eqc c "," || Str.eqc c "/" || Str.eqc c "-".

Definition filter_text (x : string) : string :=
  Str.of_chars (filter kept_in_text (Str.chars x)).

(** [' '.join([word.capitalize() for word in x.split()])] *)
Definition capitalize_words (x : string) : string :=
  Str.of_chars
    (Str.join_chars (map Str.capitalize_chars (Str.split_chars [] (Str.chars x)))).

(** A lambda that calls a [str] method on its argument. *)
Definition on_str (f : string -> string) (x : cell) : result cell :=
  match x with
  | CStr v => Ok (CStr (f v))
  | _ => Raise AttributeError
  end.

Definition text_body (df : DataFrame) (col : string) : result DataFrame :=
  s <- getitem AttributeError df col ;;
  let df := setitem df col (str_method Str.lower (str_method Str.strip (astype_str s))) in
  s <- getitem AttributeError df col ;;
  let df := setitem df col (apply (fun x => CStr (filter_text (str x))) s) in
  df <- (if Str.contains "name" (Str.lower col) then
           s <- getitem AttributeError df col ;;
           s' <- apply_result (on_str capitalize_words) s ;;
           Ok (setitem df col s')
         else Ok df) ;;
  if Str.contains "remarks" (Str.lower col) then
    s <- getitem AttributeError df col ;;
    s' <- apply_result (on_str (Str.remove "#")) s ;;
    Ok (setitem df col s')
  else Ok df.

Definition clean_text_columns (df : DataFrame) : result DataFrame :=
  for_each text_body (object_columns df) df.

(* ----------------------------------------------------------------- *)
(** *** [normalize_age_column] *)

Definition text_to_num : list (string * cell) :=
  [ ("thirty", CStr "30"); ("twenty two", CStr "22"); ("twenty", CStr "20");
    ("forty", CStr "40"); ("none", CNone) ].

Fixpoint dict_get (d : list (string * cell)) (k : string) : option cell :=
  match d with
  | [] => None
  | (k', v) :: d' => if String.eqb k' k then Some v else dict_get d' k
  end.

(** [s.replace(d)]: a cell equal to a key of [d] becomes the value under
    that key.  The keys are text, so only a text cell can be equal to one. *)
Definition replace_cell (d : list (string * cell)) (x : cell) : cell :=
  match x with
  | CStr v => match dict_get d v with Some y => y | None => x end
  | _ => x
  end.

Definition replace (d : list (string * cell)) (s : Series) : Series :=
  mkSeries (dt s) (map (replace_cell d) (values s)).

(** [pd.to_numeric(s, errors='coerce')] on one object. *)
Definition coerce_cell (x : cell) : cell :=
  match x with
  | CStr v =>
      match PdNumeric.floatify v with
      | Some n => cell_of_result (Some n)
      | None => CFloat FNaN
      end
  | CNone => CFloat FNaN
  | _ => x
  end.

Definition to_numeric (s : Series) : Series :=
  match dt s with
  | object =>
      let l := map coerce_cell (values s) in
      if all_int l then mkSeries int64 l
      else mkSeries float64 (map to_float_cell l)
  | _ => s
  end.

Definition age_body (df : DataFrame) (col : string) : result DataFrame :=
  if Str.contains "age" (Str.lower col) then
    s <- getitem TypeError df col ;;
    let df := setitem df col (replace text_to_num s) in
    s <- getitem TypeError df col ;;
    Ok (setitem df col (to_numeric s))
  else Ok df.

Definition normalize_age_column (df : DataFrame) : result DataFrame :=
  for_each age_body (columns df) df.

(* ----------------------------------------------------------------- *)
(** *** [parse_date_columns] *)

Definition known_formats : list string :=
  [ "%d-%m-%Y"; "%d/%m/%Y"; "%Y-%m-%d"; "%m/%d/%Y"; "%Y/%m/%d";
    "%d-%b-%Y"; "%d %B %Y"; "%B %d, %Y"; "%b %d, %Y" ].

(** [pd.to_datetime(val, errors='coerce')], read through
    [pd.isna(parsed)]: the calendar date of the Timestamp, or nothing
    for [NaT], for [None] and for an exception.  The inference of
    dateutil is a parameter of the development. *)
Variable to_datetime : cell -> option date.

(** Whether the [strftime] of the platform pads the year to four
    digits ([Strptime.year_text]). *)
Variable year_padded : bool.

(** The inner loop: [parsed] after the formats have been tried in turn. *)
Fixpoint try_formats (data_string : string) (formats : list string) : option date :=
  match formats with
  | [] => None
  | fmt :: formats' =>
      match Strptime.strptime data_string fmt with
      | Some parsed => Some parsed
      | None => try_formats data_string formats'
      end
  end.

(** [parsed] when the cell has gone through the formats and, failing
    them, through [pd.to_datetime]. *)
Definition read_date (val : cell) : option date :=
  match try_formats (Str.strip (str val)) known_formats with
  | Some d => Some d
  | None => to_datetime val
  end.

(** What one cell contributes to [cleaned_col]. *)
Definition clean_date (val : cell) : option string :=
  match read_date val with
  | None => None
  | Some d => Some (Strptime.strftime year_padded d)
  end.

(** [any(cleaned_col)]: [None] and the empty text are false. *)
Definition truthy (x : option string) : bool :=
  match x with
  | Some v => negb (Str.is_empty v)
  | None => false
  end.

Definition cell_of_text (x : option string) : cell :=
  match x with
  | Some v => CStr v
  | None => CNone
  end.

Definition date_body (df : DataFrame) (col : string) : result DataFrame :=
  d <- getitem AttributeError df col ;;
  if is_object (dt d) then
    s <- getitem AttributeError df col ;;
    let cleaned_col := map clean_date (values s) in
    if existsb truthy cleaned_col
    then Ok (setitem df col (mkSeries object (map cell_of_text cleaned_col)))
    else Ok df
  else Ok df.

Definition parse_date_columns (df : DataFrame) : result DataFrame :=
  for_each date_body (columns df) df.

(* ----------------------------------------------------------------- *)
(** *** [handle_missing_values] *)

(** [s.isnull().mean() <= threshold]; the mean of an empty Series is
    NaN, which compares false. *)
Definition null_count (s : Series) : nat :=
  List.length (filter isna (values s)).

Definition null_mean_le (s : Series) (threshold : Q) : bool :=
  match List.length (values s) with
  | O => false
  | S n =>
      Qle_bool (Qmake (Z.of_nat (null_count s)) (Pos.of_succ_nat n)) threshold
  end.

Definition dropna (l : list cell) : list cell :=
  filter (fun x => negb (isna x)) l.

Definition count (x : cell) (l : list cell) : nat :=
  List.length (filter (Obj.eqb x) l).

(** The distinct values in the order they first occur. *)
Fixpoint uniques (seen l : list cell) : list cell :=
  match l with
  | [] => []
  | x :: l' =>
      if existsb (Obj.eqb x) seen then uniques seen l'
      else x :: uniques (x :: seen) l'
  end.

Fixpoint insert_sorted (x : cell) (l : list cell) : list cell :=
  match l with
  | [] => [x]
  | y :: l' => if Obj.leb x y then x :: l else y :: insert_sorted x l'
  end.

Definition sort (l : list cell) : list cell :=
  fold_right insert_sorted [] l.

(** [np.sort] raises on a text next to a number; pandas then keeps the
    modes as the hash table yielded them. *)
Definition try_sort (l : list cell) : list cell :=
  if forallb Obj.is_str l || forallb Obj.is_number l then sort l else l.

(** [s.mode()]: the most frequent values, sorted when they can be. *)
Definition mode (s : Series) : list cell :=
  let vals := dropna (values s) in
  let keys := uniques [] vals in
  let top := fold_right Nat.max 0%nat (map (fun k => count k vals) keys) in
  try_sort (filter (fun k => Nat.eqb (count k vals) top) keys).

(** [.iloc[0]] *)
Definition iloc0 (l : list cell) : result cell :=
  match l with
  | x :: _ => Ok x
  | [] => Raise IndexError
  end.

Definition fmean2 (a b : pyfloat) : pyfloat :=
  match a, b with
  | FFin p, FFin q => FFin (Qred ((p + q) / 2))
  | FNaN, _ | _, FNaN => FNaN
  | FInf s, FInf t => if Bool.eqb s t then FInf s else FNaN
  | FInf s, FFin _ | FFin _, FInf s => FInf s
  end.

Definition float_of_cell (x : cell) : pyfloat :=
  match Obj.as_number x with
  | Some f => f
  | None => FNaN
  end.

(** [s.median()]: the middle of the sorted values that are present, the
    mean of the two middle ones when their number is even, NaN when
    there is none. *)
Definition median (s : Series) : pyfloat :=
  let xs := sort (filter Obj.is_number (dropna (values s))) in
  let n := List.length xs in
  if Nat.eqb n 0 then FNaN
  else if Nat.odd n then float_of_cell (nth (n / 2) xs CNone)
  else fmean2 (float_of_cell (nth (n / 2 - 1) xs CNone))
              (float_of_cell (nth (n / 2) xs CNone)).

(** [s.fillna(value, inplace=True)] *)
Definition fillna (value : cell) (s : Series) : Series :=
  mkSeries (dt s) (map (fun x => if isna x then value else x) (values s)).

Definition missing_body (threshold : Q) (df : DataFrame) (col : string)
  : result DataFrame :=
  s <- getitem ValueError df col ;;
  if null_mean_le s threshold then
    if is_object (dt s) then
      value <- iloc0 (mode s) ;;
      Ok (setitem df col (fillna value s))
    else
      Ok (setitem df col (fillna (CFloat (median s)) s))
  else Ok df.

Definition handle_missing_values (df : DataFrame) (threshold : Q)
  : result DataFrame :=
  for_each (missing_body threshold) (columns df) df.

Definition default_threshold : Q := 4 # 10.

(* ----------------------------------------------------------------- *)
(** *** [remove_duplicates] *)

Definition row : Type := list cell.

(** The rows of the frame, first to last. *)
Definition rows (df : DataFrame) : list row :=
  map (fun i => map (fun p => nth i (values (snd p)) CNone) df)
      (seq 0 (nrows df)).

Fixpoint same_row (a b : row) : bool :=
  match a, b with
  | [], [] => true
  | x :: a', y :: b' => Obj.same_key x y && same_row a' b'
  | _, _ => false
  end.

(** The rows [duplicated] takes for the same: those of a frame of one
    column are compared as [Series.duplicated] compares, the others
    position by position on the codes of [factorize]. *)
Definition duplicate_of (a b : row) : bool :=
  match a, b with
  | [x], [y] => Obj.same_object x y
  | _, _ => same_row a b
  end.

(** [df.duplicated(keep='first')] marks a row that repeats one above
    it; [drop_duplicates] keeps the others. *)
Fixpoint keep_first (above rs : list row) : list row :=
  match rs with
  | [] => []
  | r :: rs' =>
      if existsb (duplicate_of r) above then keep_first (r :: above) rs'
      else r :: keep_first (r :: above) rs'
  end.

(** The frame with the columns of [df] and the rows [rs]; [k] is the
    position of the first column. *)
Fixpoint with_rows_from (k : nat) (df : DataFrame) (rs : list row) : DataFrame :=
  match df with
  | [] => []
  | (name, s) :: df' =>
      (name, mkSeries (dt s) (map (fun r => nth k r CNone) rs))
      :: with_rows_from (S k) df' rs
  end.

Definition with_rows (df : DataFrame) (rs : list row) : DataFrame :=
  with_rows_from 0 df rs.

Definition remove_duplicates (df : DataFrame) : DataFrame :=
  with_rows df (keep_first [] (rows df)).

(* ----------------------------------------------------------------- *)
(** *** [generate_cleaning_report] and [auto_clean] *)

Record report : Type := mkReport {
  rows_before : nat;
  rows_after : nat;
  columns_before : nat;
  columns_after : nat
}.

Definition generate_cleaning_report (df_before df_after : DataFrame) : report :=
  mkReport (nrows df_before) (nrows df_after) (ncols df_before) (ncols df_after).

Definition auto_clean (df : DataFrame) : result (DataFrame * report) :=
  let df_before := df in
  let df := clean_column_names df in
  let df := remove_duplicates df in
  df <- clean_text_columns df ;;
  df <- normalize_salary_column df ;;
  df <- normalize_age_column df ;;
  df <- parse_date_columns df ;;
  df <- handle_missing_values df default_threshold ;;
  Ok (df, generate_cleaning_report df_before df).

(* ================================================================= *)
(** ** The pipeline read column by column *)

(** The column-wise reading of a loop over the labels: [h] rewrites the
    columns whose label is in [names], the others stay. *)
Definition map_columns (h : string -> Series -> Series) (names : list string)
  (df : DataFrame) : DataFrame :=
  map (fun p => if existsb (String.eqb (fst p)) names
                then (fst p, h (fst p) (snd p)) else p) df.

Definition map_all_columns (h : string -> Series -> Series) (df : DataFrame)
  : DataFrame :=
  map (fun p => (fst p, h (fst p) (snd p))) df.

Definition salary_column (col : string) (s : Series) : Series :=
  if Str.contains "salary" (Str.lower col)
  then apply (fun val => cell_of_result (parse_salary val)) s
  else s.

(** The text a cell of a text column ends as. *)
Definition text_cell (col : string) (x : cell) : string :=
  let v := filter_text (Str.lower (Str.strip (str x))) in
  let v := if Str.contains "name" (Str.lower col) then capitalize_words v else v in
  if Str.contains "remarks" (Str.lower col) then Str.remove "#" v else v.

Definition text_column (col : string) (s : Series) : Series :=
  if is_object (dt s)
  then mkSeries object (map (fun x => CStr (text_cell col x)) (values s))
  else s.

Definition age_column (col : string) (s : Series) : Series :=
  if Str.contains "age" (Str.lower col)
  then to_numeric (replace text_to_num s)
  else s.

Definition date_column (col : string) (s : Series) : Series :=
  if is_object (dt s) && existsb truthy (map clean_date (values s))
  then mkSeries object (map cell_of_text (map clean_date (values s)))
  else s.

Definition missing_column (threshold : Q) (col : string) (s : Series) : Series :=
  if null_mean_le s threshold then
    if is_object (dt s)
    then fillna (hd CNone (mode s)) s
    else fillna (CFloat (median s)) s
  else s.

(** What the imputer needs of a column: a text column at or under the
    threshold has a mode. *)
Definition has_mode (threshold : Q) (s : Series) : Prop :=
  null_mean_le s threshold = true -> is_object (dt s) = true -> mode s <> [].

(* ----------------------------------------------------------------- *)
(** *** The statements of the specification *)

(** The subtractive reading of a Roman numeral: a symbol smaller than
    its right neighbour is subtracted, any other is added. *)
Fixpoint subtractive_value (l : list ascii) : Z :=
  match l with
  | [] => 0
  | c :: r =>
      match r with
      | [] => roman_get c
      | c' :: _ =>
          if roman_get c <? roman_get c'
          then subtractive_value r - roman_get c
          else subtractive_value r + roman_get c
      end
  end.

(** What two labels must share to be given the same name: their text
    once trimmed, with the case of letters forgotten and the blank read
    as an underscore. *)
Definition key_char (c : ascii) : ascii :=
  if Str.eqc c " " then "_"%char else Str.tolower c.

Definition name_key (col : string) : list ascii :=
  map key_char (Str.strip_chars (Str.chars col)).

(** A label rebuilt from its key, as [title] and the replacement of
    blanks leave it. *)
Fixpoint retitle (previous_is_cased : bool) (ks : list ascii) : list ascii :=
  match ks with
  | [] => []
  | k :: ks' =>
      (if Str.islower k then (if previous_is_cased then k else Str.toupper k)
       else k) :: retitle (Str.islower k) ks'
  end.

Definition blank_to_underscore (c : ascii) : ascii :=
  if Str.eqc c " " then "_"%char else c.

(** A text written with ASCII characters only: the range on which the
    [str] methods are modelled. *)
Definition is_ascii_char (c : ascii) : bool := (Str.code c <? 128)%N.
Definition is_ascii (s : string) : bool := forallb is_ascii_char (Str.chars s).

(* ----------------------------------------------------------------- *)
(** *** Sample frames *)

(** Two columns whose labels differ by case only. *)
Definition frame_a_A : DataFrame :=
  [ ("a", mkSeries object [CStr "x"]); ("A", mkSeries object [CStr "y"]) ].

(** One cell through the age normalizer: the lookup, then the coercion. *)
Definition age_cell (x : cell) : cell :=
  coerce_cell (replace_cell text_to_num x).

Definition is_number_or_nan (y : cell) : bool :=
  match y with
  | CInt _ | CFloat _ => true
  | _ => false
  end.

(** The column of the specification's example. *)
Definition frame_age : DataFrame :=
  [ ("Age", mkSeries object [CStr "thirty"; CStr "22"; CStr "unknown"]) ].



Definition all_digits (width : nat) (v : string) : bool :=
  Nat.eqb (String.length v) width && forallb Str.isdigit (Str.chars v).


(** A text in each of the nine grammars, with the format that reads it. *)
Definition grammar_samples : list (string * string) :=
  [ ("25-12-2023", "%d-%m-%Y"); ("25/12/2023", "%d/%m/%Y");
    ("2023-12-25", "%Y-%m-%d"); ("12/25/2023", "%m/%d/%Y");
    ("2023/12/25", "%Y/%m/%d"); ("25-Dec-2023", "%d-%b-%Y");
    ("25 December 2023", "%d %B %Y"); ("December 25, 2023", "%B %d, %Y");
    ("Dec 25, 2023", "%b %d, %Y") ].


(** A text column with a tie for the mode and one missing cell in three. *)
Definition frame_city : DataFrame :=
  [ ("City", mkSeries object [CStr "b"; CStr "a"; CFloat FNaN]) ].


(** A numeric column with one missing cell in four. *)
Definition frame_score : DataFrame :=
  [ ("Score", mkSeries float64
                [CFloat (FFin 1); CFloat FNaN; CFloat (FFin 4); CFloat (FFin 2)]) ].

(** A staff table: a repeated row, a missing name, salaries in three
    notations, ages in words and digits, dates in three grammars. *)
Definition frame_staff : DataFrame :=
  [ (" full name", mkSeries object
       [CStr "  JOHN #smith"; CStr "ann LEE"; CStr "  JOHN #smith"; CFloat FNaN]);
    ("Salary", mkSeries object
       [CStr "$50,000"; CStr "xl"; CStr "$50,000"; CStr "60k"]);
    ("age", mkSeries object
       [CStr "thirty"; CStr "22"; CStr "thirty"; CStr "unknown"]);
    ("joined", mkSeries object
       [CStr "01-02-2023"; CStr "2023/03/04"; CStr "01-02-2023"; CStr "March 5, 2021"]);
    ("score", mkSeries float64
       [CFloat (FFin 1); CFloat FNaN; CFloat (FFin 1); CFloat (FFin 4)]) ].

(** [None] and NaN in a frame of one column, and of two. *)
Definition frame_notes : DataFrame :=
  [ ("Note", mkSeries object [CNone; CFloat FNaN; CNone; CFloat FNaN]) ].

Definition frame_notes_wide : DataFrame :=
  [ ("Note", mkSeries object [CNone; CFloat FNaN; CNone; CFloat FNaN]);
    ("Id", mkSeries int64 [CInt 1; CInt 1; CInt 1; CInt 1]) ].


(** [repr] on the floats that are whole numbers. *)
Definition whole_repr (q : Q) : string :=
  str_of_int (Qnum q / Zpos (Qden q)) ++ ".0".

(** An inference that knows integers only, read as nanoseconds since
    the epoch; the small ones all fall on its first day. *)
Definition epoch_inference (x : cell) : option date :=
  match x with
  | CInt _ => Some (mkDate 1970 1 1)
  | _ => None
  end.

(* ----------------------------------------------------------------- *)
(** *** The usual writing of Roman numerals *)

(** One decimal digit written with the symbols for one, five and ten of
    its rank. *)
Definition roman_digit (one five ten : string) (d : Z) : string :=
  if d =? 1 then one
  else if d =? 2 then one ++ one
  else if d =? 3 then one ++ one ++ one
  else if d =? 4 then one ++ five
  else if d =? 5 then five
  else if d =? 6 then five ++ one
  else if d =? 7 then five ++ one ++ one
  else if d =? 8 then five ++ one ++ one ++ one
  else if d =? 9 then one ++ ten
  else "".

(** The numeral of a number from 1 to 3999, in capitals. *)
Definition to_roman (n : Z) : string :=
  roman_digit "M" "" "" (n / 1000) ++
  roman_digit "C" "D" "M" (n / 100 mod 10) ++
  roman_digit "X" "L" "C" (n / 10 mod 10) ++
  roman_digit "I" "V" "X" (n mod 10).

(** What [parse_salary] may return for a text without the letter k:
    nothing, a number that is not negative, or the positive infinity. *)
Definition plain_amount (r : option pynum) : Prop :=
  match r with
  | None => True
  | Some (PInt z) => 0 <= z
  | Some (PFloat (FFin q)) => (0 <= q)%Q
  | Some (PFloat (FInf negative)) => negative = false
  | Some (PFloat FNaN) => False
  end.

Definition reads_int (r : option pynum) (n : Z) : bool :=
  match r with
  | Some (PInt z) => z =? n
  | _ => false
  end.

(** A digit or a point: what [re.sub(r'[^\d.]', '', val)] keeps. *)
Definition plain_char (c : ascii) : bool := Str.isdigit c || Str.eqc c ".".

(** The characters a cleaned text cell can hold: the ones the filter
    keeps, and capitals where words have been capitalized. *)
Definition text_alphabet (capitalized : bool) (c : ascii) : bool :=
  kept_in_text c || (capitalized && Str.isupper c).

(** A cell that is missing or holds a finite number. *)
Definition missing_or_finite (x : cell) : bool :=
  match x with
  | CInt _ | CFloat (FFin _) | CFloat FNaN | CNone => true
  | _ => false
  end.

(** The four digits of a year on four digits spell the year. *)
Definition four_digits_of (n : Z) (v : string) : bool :=
  match Str.chars v with
  | [a; b; c; d] =>
      Str.isdigit a && Str.isdigit b && Str.isdigit c && Str.isdigit d
      && (PyFloat.digits_value [a; b; c; d] =? n)
  | _ => false
  end.


(** [f] holds of every number below 2^[depth]. *)
Fixpoint all_below (depth : nat) (f : N -> bool) : bool :=
  match depth with
  | O => f 0%N
  | S depth' =>
      all_below depth' (fun n => f (N.double n))
      && all_below depth' (fun n => f (N.succ_double n))
  end.

(** A cell that is not a text. *)
Definition not_text (x : cell) : bool :=
  match x with
  | CStr _ => false
  | _ => true
  end.

(* ================================================================= *)
(** ** Properties *)

(* ----------------------------------------------------------------- *)
(** *** Frames whose labels are all different *)

Lemma filter_labelled_absent (df : DataFrame) (col : string) :
  ~ In col (columns df) -> filter (labelled col) df = [].
Proof.
  induction df as [|[n s] df IH]; simpl; intros H; [reflexivity|].
  unfold labelled at 1; simpl.
  destruct (String.eqb_spec n col) as [->|Hne].
  - exfalso; apply H; now left.
  - apply IH; intros Hin; apply H; now right.
Qed.

Lemma filter_labelled_unique (df : DataFrame) (col : string) (s : Series) :
  NoDup (columns df) -> In (col, s) df -> filter (labelled col) df = [(col, s)].
Proof.
  induction df as [|[n s0] df IH]; simpl; intros Hnd Hin; [contradiction|].
  inversion Hnd as [|? ? Hnotin Hnd']; subst.
  unfold labelled at 1; simpl.
  destruct Hin as [Heq|Hin].
  - inversion Heq; subst. rewrite String.eqb_refl.
    now rewrite filter_labelled_absent.
  - destruct (String.eqb_spec n col) as [->|Hne].
    + exfalso; apply Hnotin. unfold columns.
      change col with (fst (col, s)). now apply in_map.
    + now apply IH.
Qed.

Lemma getitem_unique (e : error) (df : DataFrame) (col : string) (s : Series) :
  NoDup (columns df) -> In (col, s) df -> getitem e df col = Ok s.
Proof.
  intros Hnd Hin. unfold getitem.
  now rewrite (filter_labelled_unique df col s Hnd Hin).
Qed.

Lemma columns_setitem (df : DataFrame) (col : string) (s : Series) :
  columns (setitem df col s) = columns df.
Proof.
  unfold columns, setitem. rewrite map_map. apply map_ext.
  intros [n s0]; simpl. now destruct (labelled col (n, s0)).
Qed.

Lemma in_setitem (df : DataFrame) (col : string) (s0 s : Series) :
  In (col, s0) df -> In (col, s) (setitem df col s).
Proof.
  intros Hin. unfold setitem.
  apply in_map_iff. exists (col, s0). split; [|assumption].
  unfold labelled; simpl. now rewrite String.eqb_refl.
Qed.

Lemma setitem_setitem (df : DataFrame) (col : string) (a b : Series) :
  setitem (setitem df col a) col b = setitem df col b.
Proof.
  unfold setitem. rewrite map_map. apply map_ext.
  intros [n s0]. unfold labelled; simpl.
  destruct (String.eqb n col) eqn:E; simpl; now rewrite E.
Qed.

Lemma getitem_setitem (e : error) (df : DataFrame) (col : string) (s0 s : Series) :
  NoDup (columns df) -> In (col, s0) df ->
  getitem e (setitem df col s) col = Ok s.
Proof.
  intros Hnd Hin. apply getitem_unique.
  - now rewrite columns_setitem.
  - now apply in_setitem with s0.
Qed.

Lemma existsb_eqb_in (n : string) (names : list string) :
  existsb (String.eqb n) names = true <-> In n names.
Proof.
  rewrite existsb_exists. split.
  - intros [x [Hx E]]. apply String.eqb_eq in E. now subst.
  - intros H. exists n. split; [assumption|apply String.eqb_refl].
Qed.

(** A loop whose body rewrites the column it is given, and nothing
    else, is a map over the columns.  [P] is what the body needs of a
    column in order not to raise. *)
Lemma for_each_columns
  (body : DataFrame -> string -> result DataFrame)
  (h : string -> Series -> Series) (P : string -> Series -> Prop) :
  (forall df col s, NoDup (columns df) -> In (col, s) df -> P col s ->
                    body df col = Ok (setitem df col (h col s))) ->
  forall names df,
    NoDup (columns df) -> NoDup names ->
    (forall col, In col names -> In col (columns df)) ->
    (forall col s, In col names -> In (col, s) df -> P col s) ->
    for_each body names df = Ok (map_columns h names df).
Proof.
  intros Hbody names.
  induction names as [|n names IH]; intros df Hnd Hnames Hincl HP; simpl.
  - unfold map_columns; simpl. f_equal. symmetry. apply map_id.
  - inversion Hnames as [|? ? Hn Hnames']; subst.
    assert (Hin : In n (columns df)) by (apply Hincl; now left).
    unfold columns in Hin. apply in_map_iff in Hin.
    destruct Hin as [[n' s] [Hfst Hin]]; simpl in Hfst; subst n'.
    rewrite (Hbody df n s Hnd Hin) by (apply (HP n s); [now left|assumption]).
    simpl. rewrite IH.
    + f_equal. unfold map_columns, setitem. rewrite map_map.
      apply map_ext_in. intros [m t] Hmt. unfold labelled; simpl.
      destruct (String.eqb_spec m n) as [->|Hne]; simpl.
      * destruct (existsb (String.eqb n) names) eqn:E.
        { apply existsb_eqb_in in E. contradiction. }
        assert (t = s).
        { pose proof (filter_labelled_unique df n s Hnd Hin) as F1.
          pose proof (filter_labelled_unique df n t Hnd Hmt) as F2.
          rewrite F1 in F2. now inversion F2. }
        now subst.
      * reflexivity.
    + now rewrite columns_setitem.
    + assumption.
    + intros col Hcol. rewrite columns_setitem. apply Hincl. now right.
    + intros col t Hcol Hint. apply HP; [now right|].
      unfold setitem in Hint. apply in_map_iff in Hint.
      destruct Hint as [[m u] [E Hmu]]. unfold labelled in E; simpl in E.
      destruct (String.eqb_spec m n) as [->|Hne].
      * inversion E; subst. contradiction.
      * inversion E; subst. assumption.
Qed.

Lemma map_columns_all (h : string -> Series -> Series) (df : DataFrame) :
  map_columns h (columns df) df = map_all_columns h df.
Proof.
  unfold map_columns, map_all_columns. apply map_ext_in.
  intros [n s] Hin; simpl.
  assert (E : existsb (String.eqb n) (columns df) = true).
  { apply existsb_eqb_in. unfold columns.
    change n with (fst (n, s)). now apply in_map. }
  now rewrite E.
Qed.

Lemma columns_map_all (h : string -> Series -> Series) (df : DataFrame) :
  columns (map_all_columns h df) = columns df.
Proof.
  unfold columns, map_all_columns. rewrite map_map. now apply map_ext.
Qed.

Lemma setitem_same (df : DataFrame) (col : string) (s : Series) :
  NoDup (columns df) -> In (col, s) df -> setitem df col s = df.
Proof.
  intros Hnd Hin. unfold setitem. rewrite <- (map_id df) at 2.
  apply map_ext_in. intros [n t] Hnt. unfold labelled; simpl.
  destruct (String.eqb_spec n col) as [->|Hne]; [|reflexivity].
  pose proof (filter_labelled_unique df col s Hnd Hin) as F1.
  pose proof (filter_labelled_unique df col t Hnd Hnt) as F2.
  rewrite F1 in F2. now inversion F2.
Qed.

Lemma salary_body_column (df : DataFrame) (col : string) (s : Series) :
  NoDup (columns df) -> In (col, s) df ->
  salary_body df col = Ok (setitem df col (salary_column col s)).
Proof.
  intros Hnd Hin. unfold salary_body, salary_column.
  destruct (Str.contains "salary" (Str.lower col)).
  - now rewrite (getitem_unique _ df col s Hnd Hin).
  - now rewrite setitem_same.
Qed.

Lemma normalize_salary_columnwise (df : DataFrame) :
  NoDup (columns df) ->
  normalize_salary_column df = Ok (map_all_columns salary_column df).
Proof.
  intros Hnd. unfold normalize_salary_column.
  rewrite (for_each_columns salary_body salary_column (fun _ _ => True)).
  - now rewrite map_columns_all.
  - intros; now apply salary_body_column.
  - assumption.
  - assumption.
  - auto.
  - auto.
Qed.

Lemma apply_text (g : cell -> string) (l : list cell) :
  apply (fun x => CStr (g x)) (mkSeries object l) =
  mkSeries object (map (fun x => CStr (g x)) l).
Proof.
  unfold apply; simpl. destruct l as [|x l]; [reflexivity|].
  unfold infer_objects. simpl. reflexivity.
Qed.

Lemma map_result_on_str (f : string -> string) (g : cell -> string) (l : list cell) :
  map_result (on_str f) (map (fun x => CStr (g x)) l) =
  Ok (map (fun x => CStr (f (g x))) l).
Proof.
  induction l as [|x l IH]; simpl; [reflexivity|].
  now rewrite IH.
Qed.

Lemma apply_result_on_str (f : string -> string) (g : cell -> string) (l : list cell) :
  apply_result (on_str f) (mkSeries object (map (fun x => CStr (g x)) l)) =
  Ok (mkSeries object (map (fun x => CStr (f (g x))) l)).
Proof.
  destruct l as [|x l]; [reflexivity|].
  unfold apply_result. cbn [values map].
  pose proof (map_result_on_str f g (x :: l)) as H. cbn [map] in H.
  rewrite H. reflexivity.
Qed.

Lemma text_step2 (s : Series) :
  apply (fun x => CStr (filter_text (str x)))
        (str_method Str.lower (str_method Str.strip (astype_str s))) =
  mkSeries object
    (map (fun x => CStr (filter_text (Str.lower (Str.strip (str x))))) (values s)).
Proof.
  unfold str_method, astype_str; cbn [values]. rewrite !map_map.
  rewrite (apply_text (fun x => filter_text (str x))). rewrite map_map.
  reflexivity.
Qed.

Lemma text_body_column (df : DataFrame) (col : string) (s : Series) :
  NoDup (columns df) -> In (col, s) df -> dt s = object ->
  text_body df col = Ok (setitem df col (text_column col s)).
Proof.
  intros Hnd Hin Hobj. unfold text_body, text_column, text_cell.
  rewrite Hobj; cbn [is_object].
  rewrite (getitem_unique _ df col s Hnd Hin); cbn [bind].
  rewrite (getitem_setitem _ df col s _ Hnd Hin); cbn [bind].
  rewrite setitem_setitem, text_step2.
  destruct (Str.contains "name" (Str.lower col));
    destruct (Str.contains "remarks" (Str.lower col)); cbn [bind].
  - rewrite (getitem_setitem _ df col s _ Hnd Hin); cbn [bind].
    rewrite apply_result_on_str; cbn [bind].
    rewrite setitem_setitem.
    rewrite (getitem_setitem _ df col s _ Hnd Hin); cbn [bind].
    rewrite apply_result_on_str; cbn [bind].
    now rewrite setitem_setitem.
  - rewrite (getitem_setitem _ df col s _ Hnd Hin); cbn [bind].
    rewrite apply_result_on_str; cbn [bind].
    now rewrite setitem_setitem.
  - rewrite (getitem_setitem _ df col s _ Hnd Hin); cbn [bind].
    rewrite apply_result_on_str; cbn [bind].
    now rewrite setitem_setitem.
  - reflexivity.
Qed.

Lemma object_columns_spec (df : DataFrame) (col : string) :
  In col (object_columns df) <->
  exists s, In (col, s) df /\ dt s = object.
Proof.
  unfold object_columns. rewrite in_map_iff. split.
  - intros [[n s] [E H]]. simpl in E; subst n.
    apply filter_In in H. destruct H as [Hin Hobj]. simpl in Hobj.
    exists s. split; [assumption|]. now destruct (dt s).
  - intros [s [Hin Hobj]]. exists (col, s). split; [reflexivity|].
    apply filter_In. split; [assumption|]. simpl. now rewrite Hobj.
Qed.

Lemma NoDup_map_filter {A B} (label : A -> B) (keep : A -> bool) (xs : list A) :
  NoDup (map label xs) -> NoDup (map label (filter keep xs)).
Proof.
  induction xs as [|x xs IH]; simpl; intros H; [constructor|].
  inversion H as [|? ? Hx Hl]; subst.
  destruct (keep x); simpl; [|now apply IH].
  constructor; [|now apply IH].
  intros Hin. apply Hx. apply in_map_iff in Hin.
  destruct Hin as [y [E Hy]]. apply filter_In in Hy.
  apply in_map_iff. exists y. tauto.
Qed.

Lemma unique_series (df : DataFrame) (col : string) (s t : Series) :
  NoDup (columns df) -> In (col, s) df -> In (col, t) df -> s = t.
Proof.
  intros Hnd Hs Ht.
  pose proof (filter_labelled_unique df col s Hnd Hs) as F1.
  pose proof (filter_labelled_unique df col t Hnd Ht) as F2.
  rewrite F1 in F2. now inversion F2.
Qed.

Lemma clean_text_columnwise (df : DataFrame) :
  NoDup (columns df) ->
  clean_text_columns df = Ok (map_all_columns text_column df).
Proof.
  intros Hnd. unfold clean_text_columns.
  rewrite (for_each_columns text_body text_column (fun _ s => dt s = object)).
  - f_equal. unfold map_columns, map_all_columns. apply map_ext_in.
    intros [n s] Hin; simpl.
    destruct (existsb (String.eqb n) (object_columns df)) eqn:E; [reflexivity|].
    unfold text_column. destruct (is_object (dt s)) eqn:Hobj; [|now destruct s].
    exfalso. assert (In n (object_columns df)).
    { apply object_columns_spec. exists s. split; [assumption|].
      now destruct (dt s). }
    apply existsb_eqb_in in H. congruence.
  - intros; now apply text_body_column.
  - assumption.
  - unfold object_columns. now apply NoDup_map_filter.
  - intros col Hcol. apply object_columns_spec in Hcol.
    destruct Hcol as [s [Hin _]]. unfold columns.
    change col with (fst (col, s)). now apply in_map.
  - intros col s Hcol Hin. apply object_columns_spec in Hcol.
    destruct Hcol as [t [Hint Hobj]].
    now rewrite (unique_series df col s t Hnd Hin Hint).
Qed.

Lemma age_body_column (df : DataFrame) (col : string) (s : Series) :
  NoDup (columns df) -> In (col, s) df ->
  age_body df col = Ok (setitem df col (age_column col s)).
Proof.
  intros Hnd Hin. unfold age_body, age_column.
  destruct (Str.contains "age" (Str.lower col)).
  - rewrite (getitem_unique _ df col s Hnd Hin); cbn [bind].
    rewrite (getitem_setitem _ df col s _ Hnd Hin); cbn [bind].
    now rewrite setitem_setitem.
  - now rewrite setitem_same.
Qed.

Lemma normalize_age_columnwise (df : DataFrame) :
  NoDup (columns df) ->
  normalize_age_column df = Ok (map_all_columns age_column df).
Proof.
  intros Hnd. unfold normalize_age_column.
  rewrite (for_each_columns age_body age_column (fun _ _ => True));
    auto using age_body_column.
  now rewrite map_columns_all.
Qed.

Lemma date_body_column (df : DataFrame) (col : string) (s : Series) :
  NoDup (columns df) -> In (col, s) df ->
  date_body df col = Ok (setitem df col (date_column col s)).
Proof.
  intros Hnd Hin. unfold date_body, date_column.
  rewrite (getitem_unique _ df col s Hnd Hin); cbn [bind].
  destruct (is_object (dt s)); cbn [andb].
  - destruct (existsb truthy (map clean_date (values s))); [reflexivity|].
    now rewrite setitem_same.
  - now rewrite setitem_same.
Qed.

Lemma parse_date_columnwise (df : DataFrame) :
  NoDup (columns df) ->
  parse_date_columns df = Ok (map_all_columns date_column df).
Proof.
  intros Hnd. unfold parse_date_columns.
  rewrite (for_each_columns date_body date_column (fun _ _ => True));
    auto using date_body_column.
  now rewrite map_columns_all.
Qed.

Lemma missing_body_column (threshold : Q) (df : DataFrame) (col : string) (s : Series) :
  NoDup (columns df) -> In (col, s) df -> has_mode threshold s ->
  missing_body threshold df col =
  Ok (setitem df col (missing_column threshold col s)).
Proof.
  intros Hnd Hin Hmode. unfold missing_body, missing_column.
  rewrite (getitem_unique _ df col s Hnd Hin); cbn [bind].
  destruct (null_mean_le s threshold) eqn:Hle.
  - destruct (is_object (dt s)) eqn:Hobj; [|reflexivity].
    specialize (Hmode Hle Hobj).
    destruct (mode s) as [|v m]; [contradiction|reflexivity].
  - now rewrite setitem_same.
Qed.

Lemma handle_missing_columnwise (threshold : Q) (df : DataFrame) :
  NoDup (columns df) ->
  (forall col s, In (col, s) df -> has_mode threshold s) ->
  handle_missing_values df threshold =
  Ok (map_all_columns (missing_column threshold) df).
Proof.
  intros Hnd Hmode. unfold handle_missing_values.
  rewrite (for_each_columns (missing_body threshold) (missing_column threshold)
             (fun _ s => has_mode threshold s));
    eauto using missing_body_column.
  now rewrite map_columns_all.
Qed.

(* ----------------------------------------------------------------- *)
(** *** Rows and columns *)

Lemma columns_with_rows_from (k : nat) (df : DataFrame) (rs : list row) :
  columns (with_rows_from k df rs) = columns df.
Proof.
  revert k. induction df as [|[n s] df IH]; intros k; simpl; [reflexivity|].
  f_equal. apply IH.
Qed.

Lemma columns_remove_duplicates (df : DataFrame) :
  columns (remove_duplicates df) = columns df.
Proof. apply columns_with_rows_from. Qed.

Lemma with_rows_from_twice (k : nat) (df : DataFrame) (a b : list row) :
  with_rows_from k (with_rows_from k df a) b = with_rows_from k df b.
Proof.
  revert k. induction df as [|[n s] df IH]; intros k; simpl; [reflexivity|].
  f_equal. apply IH.
Qed.

Lemma map_nth_seq {A} (l : list A) (d : A) :
  map (fun i => nth i l d) (seq 0 (List.length l)) = l.
Proof.
  induction l as [|x l IH]; simpl; [reflexivity|].
  f_equal. rewrite <- seq_shift, map_map. exact IH.
Qed.

Lemma row_of_with_rows (i k : nat) (df : DataFrame) (rs : list row) :
  (i < List.length rs)%nat ->
  map (fun p => nth i (values (snd p)) CNone) (with_rows_from k df rs) =
  map (fun j => nth j (nth i rs []) CNone) (seq k (List.length df)).
Proof.
  intros Hi. revert k.
  induction df as [|[n s] df IH]; intros k; simpl; [reflexivity|].
  f_equal; [|apply IH].
  rewrite (nth_indep _ CNone (nth k [] CNone)) by now rewrite length_map.
  now rewrite (map_nth (fun r => nth k r CNone)).
Qed.

Lemma rows_with_rows (df : DataFrame) (rs : list row) :
  (forall r, In r rs -> List.length r = List.length df) ->
  (df = [] -> rs = []) ->
  rows (with_rows df rs) = rs.
Proof.
  intros Hlen Hnil. unfold rows, with_rows.
  destruct df as [|[n s] df].
  - now rewrite Hnil.
  - assert (E : nrows (with_rows_from 0 ((n, s) :: df) rs) = List.length rs).
    { simpl. now rewrite length_map. }
    rewrite E. etransitivity; [|apply (map_nth_seq rs [])].
    apply map_ext_in. intros i Hi. apply in_seq in Hi.
    rewrite row_of_with_rows by lia.
    rewrite <- (Hlen (nth i rs [])) by (apply nth_In; lia).
    apply map_nth_seq.
Qed.

Lemma in_keep_first (above rs : list row) (r : row) :
  In r (keep_first above rs) -> In r rs.
Proof.
  revert above. induction rs as [|x rs IH]; intros above; simpl; [tauto|].
  destruct (existsb (duplicate_of x) above); simpl.
  - intros H. right. now apply IH with (x :: above).
  - intros [H|H]; [now left|right; now apply IH with (x :: above)].
Qed.

(** Rows already dropped stay dropped, and nothing else goes: a second
    pass, started with no more rows above than the first, keeps all. *)
Lemma keep_first_again (rs above above' : list row) :
  (forall r, existsb (duplicate_of r) above = true ->
             existsb (duplicate_of r) above' = true) ->
  keep_first above (keep_first above' rs) = keep_first above' rs.
Proof.
  revert above above'.
  induction rs as [|x rs IH]; intros above above' Hsub; simpl; [reflexivity|].
  destruct (existsb (duplicate_of x) above') eqn:E'.
  - apply IH. intros r Hr. simpl. apply orb_true_iff. right. now apply Hsub.
  - simpl. destruct (existsb (duplicate_of x) above) eqn:E.
    + apply Hsub in E. congruence.
    + f_equal. apply IH. intros r Hr. simpl in Hr |- *.
      apply orb_true_iff in Hr. apply orb_true_iff.
      destruct Hr as [Hr|Hr]; [now left|right; now apply Hsub].
Qed.

Lemma rows_length (df : DataFrame) (r : row) :
  In r (rows df) -> List.length r = List.length df.
Proof.
  unfold rows. intros H. apply in_map_iff in H.
  destruct H as [i [E _]]. subst r. apply length_map.
Qed.

(* ----------------------------------------------------------------- *)
(** *** Deduplication *)

(** C9. Dropping the duplicated rows of a frame that has already been
    through [remove_duplicates] changes nothing: the operation is
    idempotent. *)
Theorem remove_duplicates_idempotent (df : DataFrame) :
  remove_duplicates (remove_duplicates df) = remove_duplicates df.
Proof.
  unfold remove_duplicates.
  rewrite rows_with_rows.
  - rewrite keep_first_again by auto.
    apply with_rows_from_twice.
  - intros r Hr. apply in_keep_first in Hr. now apply rows_length.
  - intros ->. reflexivity.
Qed.

(* ----------------------------------------------------------------- *)
(** *** The numeral parser *)

Ltac each_char c :=
  destruct c as [[] [] [] [] [] [] [] []].

Lemma chars_of_chars (l : list ascii) : Str.chars (Str.of_chars l) = l.
Proof. apply list_ascii_of_string_of_list_ascii. Qed.

Lemma roman_get_nonneg (c : ascii) : 0 <= roman_get c.
Proof. each_char c; vm_compute; discriminate. Qed.

Lemma roman_char_lower (c : ascii) :
  is_roman_char c = true -> Str.tolower c = c.
Proof. each_char c; vm_compute; intros H; reflexivity || discriminate H. Qed.

Lemma roman_text_lower (l : list ascii) :
  forallb is_roman_char l = true -> map Str.tolower l = l.
Proof.
  induction l as [|c l IH]; simpl; intros H; [reflexivity|].
  apply andb_true_iff in H. destruct H as [Hc Hl].
  now rewrite roman_char_lower, IH.
Qed.

Lemma fold_left_rev {A B} (f : A -> B -> A) (l : list B) (a : A) :
  fold_left f (rev l) a = fold_right (fun x acc => f acc x) a l.
Proof.
  induction l as [|x l IH]; simpl; [reflexivity|].
  rewrite fold_left_app. simpl. now rewrite IH.
Qed.

(** The loop of [roman_to_int], run from the right end, holds the
    subtractive value of the symbols read and the last symbol read. *)
Lemma roman_loop (l : list ascii) :
  fold_right (fun x acc => roman_step acc x) (0, 0) l =
  (subtractive_value l, match l with [] => 0 | c :: _ => roman_get c end).
Proof.
  induction l as [|c l IH]; [reflexivity|].
  cbn [fold_right]. rewrite IH. unfold roman_step.
  destruct l as [|c' l]; [|reflexivity].
  cbn [subtractive_value].
  pose proof (roman_get_nonneg c) as H.
  destruct (Z.ltb_spec (roman_get c) 0); [lia|]. f_equal.
Qed.



(* ----------------------------------------------------------------- *)
(** *** Column names *)

Lemma normalize_name_chars (col : string) :
  normalize_name col =
  Str.of_chars
    (map blank_to_underscore (Str.title_chars false (Str.strip_chars (Str.chars col)))).
Proof.
  unfold normalize_name, Str.replace1, Str.title, Str.strip.
  now rewrite !chars_of_chars.
Qed.

Lemma title_chars_cons (b : bool) (c : ascii) (l : list ascii) :
  Str.title_chars b (c :: l) =
  (Str.title_chars b [c] ++ Str.title_chars (Str.islower c || Str.isupper c) l)%list.
Proof.
  simpl. destruct (Str.islower c); [reflexivity|].
  destruct (Str.isupper c); reflexivity.
Qed.

Lemma title_char_key (b : bool) (c : ascii) :
  map blank_to_underscore (Str.title_chars b [c]) = retitle b [key_char c]
  /\ (Str.islower c || Str.isupper c) = Str.islower (key_char c)
  /\ map key_char (map blank_to_underscore (Str.title_chars b [c])) = [key_char c].
Proof. destruct b; each_char c; vm_compute; auto. Qed.

Lemma normalized_from_key (l : list ascii) (b : bool) :
  map blank_to_underscore (Str.title_chars b l) = retitle b (map key_char l).
Proof.
  revert b. induction l as [|c l IH]; intros b; [reflexivity|].
  rewrite title_chars_cons, map_app, IH.
  destruct (title_char_key b c) as [H1 [H2 _]].
  rewrite H1, H2. reflexivity.
Qed.

Lemma key_of_normalized (l : list ascii) (b : bool) :
  map key_char (map blank_to_underscore (Str.title_chars b l)) = map key_char l.
Proof.
  revert b. induction l as [|c l IH]; intros b; [reflexivity|].
  rewrite title_chars_cons, !map_app, IH.
  destruct (title_char_key b c) as [_ [_ H3]].
  rewrite H3. reflexivity.
Qed.

Lemma of_chars_inj (a b : list ascii) :
  Str.of_chars a = Str.of_chars b -> a = b.
Proof.
  intros H. apply (f_equal Str.chars) in H. now rewrite !chars_of_chars in H.
Qed.

(** Two labels are given the same name exactly when they have the same
    key. *)
Lemma normalize_name_key (a b : string) :
  normalize_name a = normalize_name b <-> name_key a = name_key b.
Proof.
  rewrite !normalize_name_chars. unfold name_key. split; intros H.
  - apply of_chars_inj in H. apply (f_equal (map key_char)) in H.
    now rewrite !key_of_normalized in H.
  - f_equal. rewrite !normalized_from_key. now rewrite H.
Qed.

Lemma NoDup_map_kernel {A B C} (f : A -> B) (g : A -> C) (l : list A) :
  (forall a b, f a = f b <-> g a = g b) ->
  NoDup (map f l) <-> NoDup (map g l).
Proof.
  intros Hk. induction l as [|x l IH]; simpl.
  - split; constructor.
  - rewrite !NoDup_cons_iff, IH, !in_map_iff.
    assert (E : (exists y, f y = f x /\ In y l) <-> (exists y, g y = g x /\ In y l)).
    { split; intros [y [Hy Hin]]; exists y; split; try assumption; now apply Hk. }
    now rewrite E.
Qed.

Lemma columns_clean_column_names (df : DataFrame) :
  columns (clean_column_names df) = map normalize_name (columns df).
Proof.
  unfold columns, clean_column_names. rewrite !map_map. reflexivity.
Qed.

(** C7, as the code has it. [clean_column_names] renames every column
    to the trimmed, title-cased, underscored form of its label and
    leaves number, order and cells of the columns alone.  It resolves no
    collision: the names are all different exactly when no two labels
    share a key, i.e. agree once trimmed up to case and to blank against
    underscore. *)
Theorem column_names_unique_iff_keys (df : DataFrame) :
  columns (clean_column_names df) = map normalize_name (columns df)
  /\ map snd (clean_column_names df) = map snd df
  /\ (NoDup (columns (clean_column_names df)) <-> NoDup (map name_key (columns df))).
Proof.
  split; [apply columns_clean_column_names|]. split.
  - unfold clean_column_names. rewrite map_map. reflexivity.
  - rewrite columns_clean_column_names.
    apply NoDup_map_kernel. apply normalize_name_key.
Qed.

(* ----------------------------------------------------------------- *)
(** *** Text cleaning *)

Lemma text_cell_nan (col : string) :
  text_cell col (CFloat FNaN) =
  if Str.contains "name" (Str.lower col) then "Nan" else "nan".
Proof.
  unfold text_cell. cbn [str str_of_float].
  destruct (Str.contains "name" (Str.lower col));
    destruct (Str.contains "remarks" (Str.lower col)); vm_compute; reflexivity.
Qed.

Lemma null_count_text (g : cell -> string) (l : list cell) :
  null_count (mkSeries object (map (fun x => CStr (g x)) l)) = 0%nat.
Proof.
  unfold null_count; cbn [values]. induction l as [|x l IH]; [reflexivity|].
  simpl. exact IH.
Qed.

(** C10. A missing cell (NaN) of a text column does not stay missing
    through [clean_text_columns]: [astype(str)] writes it "nan", and it
    leaves the stage as the text "nan" ("Nan" where the column name
    contains "name" and words are capitalized).  No cell of the column
    is a missing marker for the stages that follow. *)
Theorem missing_text_cell_becomes_nan (df : DataFrame) :
  NoDup (columns df) ->
  exists df',
    clean_text_columns df = Ok df' /\
    forall k col s i,
      nth_error df k = Some (col, s) ->
      dt s = object ->
      nth_error (values s) i = Some (CFloat FNaN) ->
      nth_error (values (astype_str s)) i = Some (CStr "nan") /\
      exists s',
        nth_error df' k = Some (col, s') /\
        nth_error (values s') i =
          Some (CStr (if Str.contains "name" (Str.lower col) then "Nan" else "nan")) /\
        null_count s' = 0%nat.
Proof.
  intros Hnd. rewrite (clean_text_columnwise df Hnd).
  eexists; split; [reflexivity|].
  intros k col s i Hk Hobj Hi. split.
  - unfold astype_str; cbn [values]. rewrite nth_error_map, Hi. reflexivity.
  - exists (text_column col s). unfold map_all_columns.
    rewrite nth_error_map, Hk. cbn [option_map fst snd].
    split; [reflexivity|].
    unfold text_column. rewrite Hobj; cbn [is_object values]. split.
    + rewrite nth_error_map, Hi. cbn [option_map]. now rewrite text_cell_nan.
    + apply null_count_text.
Qed.

(* ----------------------------------------------------------------- *)
(** *** Ages *)

Lemma dict_get_absent (d : list (string * cell)) (k : string) :
  ~ In k (map fst d) -> dict_get d k = None.
Proof.
  induction d as [|[k' v] d IH]; simpl; intros H; [reflexivity|].
  destruct (String.eqb_spec k' k) as [->|Hne].
  - exfalso; apply H; now left.
  - apply IH. intros Hin; apply H; now right.
Qed.

Lemma coerce_cell_numeric (x : cell) : is_number_or_nan (coerce_cell x) = true.
Proof.
  destruct x as [v|z|f|]; simpl; try reflexivity.
  destruct (PdNumeric.floatify v) as [[z|f]|]; reflexivity.
Qed.

Lemma to_float_cell_numeric (y : cell) :
  is_number_or_nan y = true -> is_number_or_nan (to_float_cell y) = true.
Proof. destruct y; simpl; congruence. Qed.

Lemma to_numeric_object (s : Series) :
  dt s = object ->
  values (to_numeric s) =
    (if all_int (map coerce_cell (values s))
     then map coerce_cell (values s)
     else map to_float_cell (map coerce_cell (values s)))
  /\ dt (to_numeric s) =
       (if all_int (map coerce_cell (values s)) then int64 else float64).
Proof.
  intros H. unfold to_numeric. rewrite H.
  destruct (all_int (map coerce_cell (values s))); split; reflexivity.
Qed.

(** C5. In every column whose name contains "age", a cell equal to one
    of the five keys of the lookup is replaced by the value under that
    key (equality with the whole cell, letter case included: no other
    text is touched), and every cell is then coerced to a number; a
    cell that is not a number becomes NaN, never an error.  The column
    ["thirty", "22", "unknown"] becomes [30, 22, NaN].  A column of
    numbers goes through unchanged but for the lookup, and the columns
    whose name does not contain "age" are left as they are. *)
Theorem age_normalization (df : DataFrame) :
  NoDup (columns df) ->
  exists df',
    normalize_age_column df = Ok df' /\
    columns df' = columns df /\
    (forall k col s,
        nth_error df k = Some (col, s) ->
        exists s',
          nth_error df' k = Some (col, s') /\
          (Str.contains "age" (Str.lower col) = false -> s' = s) /\
          (Str.contains "age" (Str.lower col) = true -> dt s = object ->
           values s' =
             (if all_int (map age_cell (values s))
              then map age_cell (values s)
              else map to_float_cell (map age_cell (values s)))
           /\ forallb is_number_or_nan (values s') = true
           /\ dt s' <> object) /\
          (Str.contains "age" (Str.lower col) = true -> dt s <> object ->
           s' = replace text_to_num s)) /\
    (replace_cell text_to_num (CStr "thirty") = CStr "30"
     /\ replace_cell text_to_num (CStr "twenty two") = CStr "22"
     /\ replace_cell text_to_num (CStr "twenty") = CStr "20"
     /\ replace_cell text_to_num (CStr "forty") = CStr "40"
     /\ replace_cell text_to_num (CStr "none") = CNone) /\
    (forall v, ~ In v (map fst text_to_num) ->
               replace_cell text_to_num (CStr v) = CStr v) /\
    (forall v, PdNumeric.floatify v = None -> coerce_cell (CStr v) = CFloat FNaN) /\
    normalize_age_column frame_age =
      Ok [ ("Age", mkSeries float64
                     [CFloat (FFin 30); CFloat (FFin 22); CFloat FNaN]) ].
Proof.
  intros Hnd. rewrite (normalize_age_columnwise df Hnd).
  eexists; split; [reflexivity|]. split; [apply columns_map_all|].
  split; [|split; [|split; [|split]]].
  - intros k col s Hk. exists (age_column col s).
    unfold map_all_columns. rewrite nth_error_map, Hk. cbn [option_map fst snd].
    split; [reflexivity|]. unfold age_column. split; [|split].
    + intros ->. reflexivity.
    + intros -> Hobj.
      destruct (to_numeric_object (replace text_to_num s) Hobj) as [Hv Hd].
      cbn [replace values] in Hv, Hd. rewrite map_map in Hv, Hd.
      fold age_cell in Hv, Hd.
      change (fun x => coerce_cell (replace_cell text_to_num x)) with age_cell in Hv, Hd.
      split; [exact Hv|]. split.
      * rewrite Hv. apply forallb_forall. intros y Hy.
        destruct (all_int (map age_cell (values s))).
        -- apply in_map_iff in Hy. destruct Hy as [x [<- _]].
           apply coerce_cell_numeric.
        -- apply in_map_iff in Hy. destruct Hy as [y' [<- Hy']].
           apply in_map_iff in Hy'. destruct Hy' as [x [<- _]].
           apply to_float_cell_numeric, coerce_cell_numeric.
      * rewrite Hd. destruct (all_int (map age_cell (values s))); discriminate.
    + intros -> Hnum. unfold to_numeric. cbn [replace dt].
      destruct (dt s); [contradiction| |]; reflexivity.
  - repeat split; reflexivity.
  - intros v Hv. unfold replace_cell. now rewrite dict_get_absent.
  - intros v Hv. unfold coerce_cell. now rewrite Hv.
  - vm_compute. reflexivity.
Qed.

(* ----------------------------------------------------------------- *)
(** *** Dates *)

Lemma try_formats_first (data : string) (before : list string) (fmt : string)
  (after : list string) (d : date) :
  (forall f, In f before -> Strptime.strptime data f = None) ->
  Strptime.strptime data fmt = Some d ->
  try_formats data (before ++ fmt :: after) = Some d.
Proof.
  intros Hb Hf. induction before as [|f before IH]; simpl.
  - now rewrite Hf.
  - rewrite (Hb f) by now left. apply IH. intros g Hg. apply Hb. now right.
Qed.

(** C6. The formats are tried in the order of [known_formats], which
    is DD-MM-YYYY, DD/MM/YYYY, YYYY-MM-DD, MM/DD/YYYY, YYYY/MM/DD,
    DD-Mon-YYYY, DD Month YYYY, Month DD, YYYY and Mon DD, YYYY; the
    first that reads the trimmed cell gives the date.  "01-02-2023" is
    read day first, as 1 February 2023, and written "2023-02-01"; so
    is "01/02/2023", which the month-first format listed later would
    read as 2 January. *)
Theorem date_formats_priority :
  known_formats =
    [ "%d-%m-%Y"; "%d/%m/%Y"; "%Y-%m-%d"; "%m/%d/%Y"; "%Y/%m/%d";
      "%d-%b-%Y"; "%d %B %Y"; "%B %d, %Y"; "%b %d, %Y" ]
  /\ map (fun p => Strptime.strptime (fst p) (snd p)) grammar_samples =
       repeat (Some (mkDate 2023 12 25)) 9
  /\ map snd grammar_samples = known_formats
  /\ (forall val before fmt after d,
         known_formats = (before ++ fmt :: after)%list ->
         (forall f, In f before ->
                    Strptime.strptime (Str.strip (str val)) f = None) ->
         Strptime.strptime (Str.strip (str val)) fmt = Some d ->
         clean_date val = Some (Strptime.strftime year_padded d))
  /\ Strptime.strptime "01-02-2023" "%d-%m-%Y" = Some (mkDate 2023 2 1)
  /\ clean_date (CStr "01-02-2023") = Some "2023-02-01"
  /\ Strptime.strptime "01/02/2023" "%m/%d/%Y" = Some (mkDate 2023 1 2)
  /\ clean_date (CStr "01/02/2023") = Some "2023-02-01".
Proof.
  split; [reflexivity|]. split; [vm_compute; reflexivity|].
  split; [reflexivity|].
  split; [|repeat split; try (vm_compute; reflexivity);
           unfold clean_date; destruct year_padded; vm_compute; reflexivity].
  intros val before fmt after d Hk Hb Hf. unfold clean_date, read_date.
  rewrite Hk. now rewrite (try_formats_first _ before fmt after d Hb Hf).
Qed.

Lemma all_below_spec (depth : nat) (f : N -> bool) :
  all_below depth f = true ->
  forall n, (n < 2 ^ N.of_nat depth)%N -> f n = true.
Proof using.
  clear float_repr to_datetime year_padded.
  revert f. induction depth as [|depth IH]; intros f H n Hn.
  - simpl in H. replace n with 0%N by (simpl in Hn; lia). exact H.
  - cbn [all_below] in H. apply andb_true_iff in H. destruct H as [H0 H1].
    rewrite Nat2N.inj_succ, N.pow_succ_r' in Hn.
    destruct n as [|[p|p|]].
    + apply (IH _ H0 0%N). apply N.neq_0_lt_0, N.pow_nonzero. discriminate.
    + apply (IH _ H1 (Npos p)).
      change (N.pos p~1) with (N.succ_double (Npos p)) in Hn.
      rewrite N.succ_double_spec in Hn. lia.
    + apply (IH _ H0 (Npos p)).
      change (N.pos p~0) with (N.double (Npos p)) in Hn.
      rewrite N.double_spec in Hn. lia.
    + apply (IH _ H1 0%N). apply N.neq_0_lt_0, N.pow_nonzero. discriminate.
Qed.

(** A check made of every number below 2^[depth] holds of the integers
    of that range. *)
Lemma all_below_Z (depth : nat) (f : Z -> bool) (z : Z) :
  all_below depth (fun n => f (Z.of_N n)) = true ->
  0 <= z < 2 ^ Z.of_nat depth -> f z = true.
Proof using.
  clear float_repr to_datetime year_padded.
  intros H Hz. rewrite <- (Z2N.id z) by lia.
  apply (all_below_spec depth (fun n => f (Z.of_N n)) H).
  apply N2Z.inj_lt. rewrite Z2N.id by lia.
  rewrite N2Z.inj_pow, nat_N_Z. simpl Z.of_N. lia.
Qed.


Lemma zero_pad_2 (z : Z) :
  0 <= z < 100 -> all_digits 2 (Strptime.zero_pad 2 z) = true.
Proof using.
  clear float_repr to_datetime year_padded.
  intros Hz.
  assert (H : (if z <? 100 then all_digits 2 (Strptime.zero_pad 2 z) else true)
              = true).
  { apply (all_below_Z 7 (fun z => if z <? 100
                                    then all_digits 2 (Strptime.zero_pad 2 z)
                                    else true));
      [vm_compute; reflexivity|]. change (2 ^ Z.of_nat 7) with 128. lia. }
  destruct (z <? 100) eqn:E; [exact H|]. apply Z.ltb_ge in E. lia.
Qed.

(** From 1000 on the year has its four digits without padding. *)
Lemma year_text_from_1000 (padded : bool) (y : Z) :
  1000 <= y < 10000 -> Strptime.year_text padded y = Strptime.zero_pad 4 y.
Proof using.
  clear float_repr to_datetime year_padded.
  intros Hy. destruct padded; [reflexivity|]. unfold Strptime.year_text.
  assert (H : (if (1000 <=? y) && (y <? 10000)
               then String.eqb (str_of_int y) (Strptime.zero_pad 4 y) else true)
              = true).
  { apply (all_below_Z 14 (fun y => if (1000 <=? y) && (y <? 10000)
                                     then String.eqb (str_of_int y)
                                                     (Strptime.zero_pad 4 y)
                                     else true));
      [vm_compute; reflexivity|]. change (2 ^ Z.of_nat 14) with 16384. lia. }
  destruct (1000 <=? y) eqn:E1; [|apply Z.leb_gt in E1; lia].
  destruct (y <? 10000) eqn:E2; [|apply Z.ltb_ge in E2; lia].
  now apply String.eqb_eq.
Qed.



Lemma all_digits_2_inv (v : string) :
  all_digits 2 v = true ->
  exists a b,
    v = String a (String b EmptyString)
    /\ Str.isdigit a && Str.isdigit b = true.
Proof using.
  clear float_repr to_datetime year_padded.
  destruct v as [|a [|b [|e v]]]; try discriminate.
  unfold all_digits; simpl. intros H. exists a, b.
  split; [reflexivity|].
  rewrite !andb_true_iff in H. rewrite !andb_true_iff. tauto.
Qed.

Lemma days_in_month_le (y m : Z) : Strptime.days_in_month y m <= 31.
Proof.
  unfold Strptime.days_in_month.
  destruct (m =? 2); [destruct (Strptime.is_leap y); lia|].
  destruct ((m =? 4) || (m =? 6) || (m =? 9) || (m =? 11))%bool; lia.
Qed.

Lemma valid_date_bounds (d : date) :
  Strptime.valid_date d = true ->
  1 <= year d <= 9999 /\ 1 <= month d <= 12 /\ 1 <= day d <= 31.
Proof.
  unfold Strptime.valid_date. rewrite !andb_true_iff, !Z.leb_le.
  pose proof (days_in_month_le (year d) (month d)). lia.
Qed.

Lemma chars_app (a b : string) :
  Str.chars (a ++ b) = (Str.chars a ++ Str.chars b)%list.
Proof. induction a as [|c a IH]; simpl; [reflexivity|]. now rewrite <- IH. Qed.

Lemma length_chars (s : string) : List.length (Str.chars s) = String.length s.
Proof. induction s as [|c s IH]; simpl; [reflexivity|]. now rewrite IH. Qed.


(** The text of a date, character by character: the year, then the
    month and the day on two digits each. *)
Lemma strftime_chars (padded : bool) (d : date) :
  Strptime.valid_date d = true ->
  exists m1 m2 d1 d2,
    Str.chars (Strptime.strftime padded d) =
      (Str.chars (Strptime.year_text padded (year d))
         ++ ["-"%char; m1; m2; "-"%char; d1; d2])%list
    /\ Strptime.zero_pad 2 (month d) = String m1 (String m2 EmptyString)
    /\ Strptime.zero_pad 2 (day d) = String d1 (String d2 EmptyString)
    /\ Str.isdigit m1 = true /\ Str.isdigit m2 = true
    /\ Str.isdigit d1 = true /\ Str.isdigit d2 = true.
Proof using.
  clear float_repr to_datetime year_padded.
  intros Hv. destruct (valid_date_bounds d Hv) as [_ [Hm Hd]].
  destruct (all_digits_2_inv _ (zero_pad_2 (month d) ltac:(lia)))
    as [m1 [m2 [Em Hmm]]].
  destruct (all_digits_2_inv _ (zero_pad_2 (day d) ltac:(lia)))
    as [d1 [d2 [Ed Hdd]]].
  apply andb_true_iff in Hmm. destruct Hmm as [Hm1 Hm2].
  apply andb_true_iff in Hdd. destruct Hdd as [Hd1 Hd2].
  exists m1, m2, d1, d2. repeat split; try assumption.
  unfold Strptime.strftime. rewrite Em, Ed, chars_app. reflexivity.
Qed.



Lemma strptime_valid (data fmt : string) (d : date) :
  Strptime.strptime data fmt = Some d -> Strptime.valid_date d = true.
Proof.
  unfold Strptime.strptime.
  destruct (Strptime.regex_match _ _ _) as [[[[y m] dd] [|c r]]|]; try discriminate.
  destruct (Strptime.valid_date (mkDate y m dd)) eqn:E; [|discriminate].
  intros H. inversion H; subst. exact E.
Qed.

Lemma try_formats_valid (data : string) (fmts : list string) (d : date) :
  try_formats data fmts = Some d -> Strptime.valid_date d = true.
Proof.
  induction fmts as [|f fmts IH]; simpl; [discriminate|].
  destruct (Strptime.strptime data f) eqn:E; [|exact IH].
  intros H. inversion H; subst. now apply strptime_valid in E.
Qed.


Lemma clean_date_read (x : cell) (v : string) :
  clean_date x = Some v <->
  exists d, read_date x = Some d /\ v = Strptime.strftime year_padded d.
Proof.
  unfold clean_date. destruct (read_date x) as [d|]; split.
  - intros H. inversion H. now exists d.
  - intros [d' [H ->]]. now inversion H.
  - discriminate.
  - intros [d' [H _]]. discriminate.
Qed.

Section DatesInferred.

(** A Timestamp is a date of the calendar. *)
Hypothesis to_datetime_valid :
  forall x d, to_datetime x = Some d -> Strptime.valid_date d = true.

Lemma read_date_valid (x : cell) (d : date) :
  read_date x = Some d -> Strptime.valid_date d = true.
Proof.
  unfold read_date.
  destruct (try_formats (Str.strip (str x)) known_formats) as [d'|] eqn:E.
  - intros H; inversion H; subst. now apply try_formats_valid in E.
  - apply to_datetime_valid.
Qed.




End DatesInferred.

(* ----------------------------------------------------------------- *)
(** *** Equality and order of cells *)

Lemma feqb_sym (a b : pyfloat) : Obj.feqb a b = Obj.feqb b a.
Proof.
  destruct a as [p|s|], b as [q|t|]; simpl; try reflexivity.
  - apply eq_true_iff_eq. rewrite !Qeq_bool_iff. split; apply Qeq_sym.
  - now destruct s, t.
Qed.

Lemma feqb_trans (a b c : pyfloat) :
  Obj.feqb a b = true -> Obj.feqb b c = true -> Obj.feqb a c = true.
Proof.
  destruct a as [p|s|], b as [q|t|], c as [r|u|]; simpl; try discriminate.
  - rewrite !Qeq_bool_iff. apply Qeq_trans.
  - destruct s, t, u; simpl; congruence.
Qed.

Lemma obj_eqb_sym (a b : cell) : Obj.eqb a b = Obj.eqb b a.
Proof.
  destruct a, b; cbn [Obj.eqb Obj.as_number]; try reflexivity;
    try apply String.eqb_sym; apply feqb_sym.
Qed.

Lemma obj_eqb_trans (a b c : cell) :
  Obj.eqb a b = true -> Obj.eqb b c = true -> Obj.eqb a c = true.
Proof.
  destruct a, b, c; cbn [Obj.eqb Obj.as_number]; try discriminate;
    try (intros; reflexivity); try apply feqb_trans.
  rewrite !String.eqb_eq. congruence.
Qed.

Lemma obj_eqb_str (u : string) (b : cell) :
  Obj.eqb (CStr u) b = true -> b = CStr u.
Proof.
  destruct b; simpl; try discriminate.
  rewrite String.eqb_eq. congruence.
Qed.

(** The order of texts is total and transitive. *)
Lemma ltb_chars_asym (a b : list ascii) :
  Str.ltb_chars a b = true -> Str.ltb_chars b a = false.
Proof.
  revert b. induction a as [|x a IH]; intros [|y b]; simpl; try congruence.
  destruct (N.ltb_spec (Str.code x) (Str.code y));
    destruct (N.ltb_spec (Str.code y) (Str.code x)); try congruence; try lia.
  apply IH.
Qed.

Lemma ltb_chars_neg_trans (c a b : list ascii) :
  Str.ltb_chars c a = true ->
  Str.ltb_chars b a = true \/ Str.ltb_chars c b = true.
Proof.
  revert a b. induction c as [|z c IH]; intros [|x a] [|y b]; simpl;
    try discriminate; auto.
  destruct (N.ltb_spec (Str.code z) (Str.code x));
    destruct (N.ltb_spec (Str.code y) (Str.code x));
    destruct (N.ltb_spec (Str.code z) (Str.code y));
    destruct (N.ltb_spec (Str.code x) (Str.code z));
    destruct (N.ltb_spec (Str.code x) (Str.code y));
    destruct (N.ltb_spec (Str.code y) (Str.code z));
    auto; try lia; try discriminate.
Qed.

Lemma str_leb_total (a b : string) : Str.leb a b = false -> Str.leb b a = true.
Proof.
  unfold Str.leb, Str.ltb. intros H. apply negb_false_iff in H.
  apply negb_true_iff. now apply ltb_chars_asym.
Qed.

Lemma str_leb_trans (a b c : string) :
  Str.leb a b = true -> Str.leb b c = true -> Str.leb a c = true.
Proof.
  unfold Str.leb, Str.ltb. rewrite !negb_true_iff. intros Hab Hbc.
  destruct (Str.ltb_chars (Str.chars c) (Str.chars a)) eqn:E; [|reflexivity].
  destruct (ltb_chars_neg_trans _ _ (Str.chars b) E); congruence.
Qed.

Lemma str_leb_refl (a : string) : Str.leb a a = true.
Proof.
  destruct (Str.leb a a) eqn:E; [reflexivity|].
  pose proof (str_leb_total a a E). congruence.
Qed.

(* ----------------------------------------------------------------- *)
(** *** The mode of a column *)

Lemma insert_sorted_in (x w : cell) (l : list cell) :
  In w (insert_sorted x l) <-> w = x \/ In w l.
Proof using.
  clear float_repr to_datetime.
  induction l as [|y l IH]; simpl.
  - intuition.
  - destruct (Obj.leb x y); simpl; [intuition|]. rewrite IH. intuition.
Qed.

Lemma sort_in (w : cell) (l : list cell) : In w (sort l) <-> In w l.
Proof using.
  clear float_repr to_datetime.
  induction l as [|x l IH]; simpl; [tauto|].
  rewrite insert_sorted_in, IH. intuition.
Qed.

Lemma try_sort_in (w : cell) (l : list cell) : In w (try_sort l) <-> In w l.
Proof using.
  clear float_repr to_datetime.
  unfold try_sort.
  destruct (forallb Obj.is_str l || forallb Obj.is_number l); [apply sort_in|tauto].
Qed.

Lemma uniques_in (w : cell) (seen l : list cell) :
  In w (uniques seen l) -> In w l.
Proof using.
  clear float_repr to_datetime.
  revert seen. induction l as [|x l IH]; intros seen; simpl; [tauto|].
  destruct (existsb (Obj.eqb x) seen); simpl.
  - intros H. right. now apply IH with seen.
  - intros [H|H]; [now left|right; now apply IH with (x :: seen)].
Qed.

Lemma obj_eqb_refl (w : cell) : isna w = false -> Obj.eqb w w = true.
Proof.
  destruct w as [v|z|[q|b|]|]; simpl; try discriminate; intros _.
  - apply String.eqb_refl.
  - apply Qeq_bool_iff. reflexivity.
  - apply Qeq_bool_iff. reflexivity.
  - now destruct b.
Qed.

(** Every value present has its first occurrence among the keys. *)
Lemma uniques_cover (w : cell) (seen l : list cell) :
  In w l -> isna w = false ->
  existsb (Obj.eqb w) seen = true \/
  exists k, In k (uniques seen l) /\ Obj.eqb w k = true.
Proof.
  intros Hin Hw. revert seen.
  induction l as [|x l IH]; intros seen; [contradiction|].
  simpl. destruct Hin as [->|Hin].
  - destruct (existsb (Obj.eqb w) seen) eqn:E; [now left|].
    right. exists w. split; [now left|now apply obj_eqb_refl].
  - destruct (existsb (Obj.eqb x) seen) eqn:E.
    + apply (IH Hin).
    + destruct (IH Hin (x :: seen)) as [H|[k [Hk Hwk]]].
      * simpl in H. apply orb_true_iff in H. destruct H as [H|H]; [|now left].
        right. exists x. split; [now left|assumption].
      * right. exists k. split; [now right|assumption].
Qed.

Lemma count_same_key (w k : cell) (l : list cell) :
  Obj.eqb w k = true -> count w l = count k l.
Proof.
  intros H. unfold count. f_equal. apply filter_ext. intros x.
  apply eq_true_iff_eq. split; intros Hx.
  - apply obj_eqb_trans with w; [now rewrite obj_eqb_sym|assumption].
  - now apply obj_eqb_trans with k.
Qed.

Lemma max_bound (n : nat) (l : list nat) :
  In n l -> (n <= fold_right Nat.max 0 l)%nat.
Proof.
  induction l as [|m l IH]; simpl; [tauto|].
  intros [->|H]; [lia|]. specialize (IH H). lia.
Qed.

Lemma max_attained (l : list nat) :
  l <> [] -> In (fold_right Nat.max 0%nat l) l.
Proof.
  induction l as [|m l IH]; [congruence|]. intros _. simpl.
  destruct l as [|m' l].
  - left. simpl. lia.
  - destruct (Nat.max_spec m (fold_right Nat.max 0%nat (m' :: l))) as [[_ E]|[_ E]];
      rewrite E.
    + right. apply IH. discriminate.
    + now left.
Qed.

(** The head of a sorted list of texts is the smallest of them. *)
Lemma sort_text_min (l : list cell) :
  forallb Obj.is_str l = true ->
  forall v rest, sort l = v :: rest ->
  forall w, In w l -> Obj.leb v w = true.
Proof.
  induction l as [|x l IH]; intros Hstr v rest Hs w Hw; [contradiction|].
  simpl in Hstr. apply andb_true_iff in Hstr. destruct Hstr as [Hx Hl].
  destruct x as [u| | |]; try discriminate.
  assert (Htext : forall y, In y l -> exists t, y = CStr t).
  { intros y Hy. rewrite forallb_forall in Hl. specialize (Hl y Hy).
    destruct y; try discriminate. eauto. }
  simpl in Hs. destruct (sort l) as [|m r] eqn:Es.
  - assert (l = []).
    { destruct l as [|y l]; [reflexivity|].
      assert (In y (sort (y :: l))) by (apply sort_in; now left).
      rewrite Es in H. contradiction. }
    subst l. simpl in Hs. inversion Hs; subst.
    destruct Hw as [<-|[]]. simpl. apply str_leb_refl.
  - assert (Hm : In m l) by (apply sort_in; rewrite Es; now left).
    destruct (Htext m Hm) as [tm ->].
    simpl in Hs. destruct (Str.leb u tm) eqn:E; inversion Hs; subst.
    + destruct Hw as [<-|Hw]; [simpl; apply str_leb_refl|].
      destruct (Htext w Hw) as [tw ->].
      pose proof (IH Hl (CStr tm) r eq_refl (CStr tw) Hw) as H.
      simpl in H |- *.
      now apply str_leb_trans with tm.
    + destruct Hw as [<-|Hw]; [simpl; now apply str_leb_total|].
      now apply (IH Hl (CStr tm) r eq_refl).
Qed.

Lemma dropna_present (w : cell) (l : list cell) :
  In w (dropna l) -> In w l /\ isna w = false.
Proof using.
  clear float_repr to_datetime.
  unfold dropna. rewrite filter_In, negb_true_iff. tauto.
Qed.

(** What [s.mode().iloc[0]] is, for a column with a value present. *)
Lemma mode_head (s : Series) :
  dropna (values s) <> [] ->
  exists v rest,
    mode s = v :: rest /\
    In v (dropna (values s)) /\
    (forall w, In w (dropna (values s)) ->
               (count w (dropna (values s)) <= count v (dropna (values s)))%nat) /\
    (forallb Obj.is_str (dropna (values s)) = true ->
     forall w, In w (dropna (values s)) ->
               count w (dropna (values s)) = count v (dropna (values s)) ->
               Obj.leb v w = true).
Proof using.
  intros Hne. unfold mode.
  set (vals := dropna (values s)) in Hne |- *.
  set (keys := uniques [] vals).
  set (top := fold_right Nat.max 0%nat (map (fun k => count k vals) keys)).
  set (modes := filter (fun k => Nat.eqb (count k vals) top) keys).
  assert (Hkeys : keys <> []).
  { unfold keys. destruct vals; [congruence|discriminate]. }
  assert (Htop : exists k, In k keys /\ count k vals = top).
  { assert (H : In top (map (fun k => count k vals) keys)).
    { apply max_attained. destruct keys; [congruence|discriminate]. }
    apply in_map_iff in H. destruct H as [k [E Hk]]. eauto. }
  destruct Htop as [k0 [Hk0 Ek0]].
  assert (Hk0m : In k0 modes).
  { apply filter_In. split; [assumption|]. now apply Nat.eqb_eq. }
  destruct (try_sort modes) as [|v rest] eqn:Ets.
  { apply try_sort_in in Hk0m. rewrite Ets in Hk0m. contradiction. }
  assert (Hv : In v modes) by (apply try_sort_in; rewrite Ets; now left).
  apply filter_In in Hv. destruct Hv as [Hvk Hvc]. apply Nat.eqb_eq in Hvc.
  assert (Hcover : forall w, In w vals ->
                     exists k, In k keys /\ Obj.eqb w k = true).
  { intros w Hw. destruct (dropna_present w _ Hw) as [_ Hna].
    destruct (uniques_cover w [] vals Hw Hna) as [H|H]; [discriminate|exact H]. }
  exists v, rest. split; [reflexivity|]. split; [now apply uniques_in in Hvk|].
  split.
  - intros w Hw. destruct (Hcover w Hw) as [k [Hk Hwk]].
    rewrite (count_same_key w k vals Hwk), Hvc.
    apply max_bound. apply in_map_iff. eauto.
  - intros Hstr w Hw Hc.
    assert (Hms : forallb Obj.is_str modes = true).
    { apply forallb_forall. intros y Hy. apply filter_In in Hy.
      destruct Hy as [Hy _]. apply uniques_in in Hy.
      rewrite forallb_forall in Hstr. now apply Hstr. }
    unfold try_sort in Ets. rewrite Hms in Ets. simpl in Ets.
    apply (sort_text_min modes Hms v rest Ets).
    destruct (Hcover w Hw) as [k [Hk Hwk]].
    assert (k = w).
    { rewrite forallb_forall in Hstr. specialize (Hstr w Hw).
      destruct w; try discriminate. now apply obj_eqb_str in Hwk. }
    subst k. apply filter_In. split; [assumption|].
    apply Nat.eqb_eq. congruence.
Qed.

Lemma some_present (l : list cell) :
  (List.length (filter isna l) < List.length l)%nat -> dropna l <> [].
Proof.
  unfold dropna. induction l as [|x l IH]; simpl; [lia|].
  destruct (isna x); simpl; [|discriminate].
  intros H. apply IH. lia.
Qed.

(** Under a threshold below 1 a column at or under the threshold has a
    value present. *)
Lemma null_mean_present (threshold : Q) (s : Series) :
  (threshold < 1)%Q -> null_mean_le s threshold = true ->
  dropna (values s) <> [].
Proof.
  intros Hthr. unfold null_mean_le, null_count.
  destruct (List.length (values s)) as [|n] eqn:En; [discriminate|].
  intros H. apply Qle_bool_iff in H.
  apply some_present. rewrite En.
  pose proof (Qle_lt_trans _ _ _ H Hthr) as Hlt.
  unfold Qlt in Hlt. simpl in Hlt. lia.
Qed.

Lemma below_one_has_mode (threshold : Q) (s : Series) :
  (threshold < 1)%Q -> has_mode threshold s.
Proof.
  intros Hthr Hle _.
  destruct (mode_head s (null_mean_present threshold s Hthr Hle))
    as [v [rest [E _]]].
  rewrite E. discriminate.
Qed.

(* ----------------------------------------------------------------- *)
(** *** Imputation *)

Lemma missing_column_shape (threshold : Q) (col : string) (s : Series) :
  dt (missing_column threshold col s) = dt s /\
  List.length (values (missing_column threshold col s)) = List.length (values s) /\
  forall i x, nth_error (values s) i = Some x -> isna x = false ->
              nth_error (values (missing_column threshold col s)) i = Some x.
Proof.
  assert (F : forall v,
             dt (fillna v s) = dt s /\
             List.length (values (fillna v s)) = List.length (values s) /\
             forall i x, nth_error (values s) i = Some x -> isna x = false ->
                         nth_error (values (fillna v s)) i = Some x).
  { intros v. unfold fillna; cbn [dt values]. split; [reflexivity|].
    split; [apply length_map|].
    intros i x Hi Hx. rewrite nth_error_map, Hi. cbn [option_map]. now rewrite Hx. }
  unfold missing_column.
  destruct (null_mean_le s threshold); [|auto].
  destruct (is_object (dt s)); apply F.
Qed.

Lemma nrows_map_all (h : string -> Series -> Series) (df : DataFrame) :
  (forall col s, List.length (values (h col s)) = List.length (values s)) ->
  nrows (map_all_columns h df) = nrows df.
Proof.
  intros H. destruct df as [|[n s] df]; [reflexivity|]. simpl. apply H.
Qed.

Lemma ncols_map_all (h : string -> Series -> Series) (df : DataFrame) :
  ncols (map_all_columns h df) = ncols df.
Proof. unfold ncols, map_all_columns. apply length_map. Qed.



(* ----------------------------------------------------------------- *)
(** *** The whole pipeline *)

Lemma length_infer_objects (l : list cell) :
  List.length (values (infer_objects l)) = List.length l.
Proof.
  unfold infer_objects.
  destruct (has_str l || all_none l); [reflexivity|].
  destruct (all_int l); [reflexivity|]. apply length_map.
Qed.

Lemma length_apply (f : cell -> cell) (s : Series) :
  List.length (values (apply f s)) = List.length (values s).
Proof.
  unfold apply. destruct (values s) as [|x l] eqn:E; [now rewrite E|].
  rewrite length_infer_objects. apply length_map.
Qed.

Lemma length_text_column (col : string) (s : Series) :
  List.length (values (text_column col s)) = List.length (values s).
Proof.
  unfold text_column. destruct (is_object (dt s)); [apply length_map|reflexivity].
Qed.

Lemma length_salary_column (col : string) (s : Series) :
  List.length (values (salary_column col s)) = List.length (values s).
Proof.
  unfold salary_column.
  destruct (Str.contains "salary" (Str.lower col)); [apply length_apply|reflexivity].
Qed.

Lemma length_age_column (col : string) (s : Series) :
  List.length (values (age_column col s)) = List.length (values s).
Proof.
  unfold age_column.
  destruct (Str.contains "age" (Str.lower col)); [|reflexivity].
  unfold to_numeric, replace; cbn [dt values].
  destruct (dt s); try apply length_map.
  destruct (all_int _); cbn [values]; now rewrite ?length_map.
Qed.

Lemma length_date_column (col : string) (s : Series) :
  List.length (values (date_column col s)) = List.length (values s).
Proof.
  unfold date_column.
  destruct (is_object (dt s) && existsb truthy (map clean_date (values s)));
    [|reflexivity].
  cbn [values]. now rewrite !length_map.
Qed.

Lemma length_keep_first (above rs : list row) :
  (List.length (keep_first above rs) <= List.length rs)%nat.
Proof.
  revert above. induction rs as [|r rs IH]; intros above; simpl; [lia|].
  specialize (IH (r :: above)).
  destruct (existsb (duplicate_of r) above); simpl; lia.
Qed.

Lemma nrows_remove_duplicates (df : DataFrame) :
  (nrows (remove_duplicates df) <= nrows df)%nat.
Proof.
  unfold remove_duplicates, with_rows.
  destruct df as [|[n s] df]; [reflexivity|].
  cbn [with_rows_from nrows values]. rewrite length_map.
  etransitivity; [apply length_keep_first|].
  unfold rows. rewrite length_map, length_seq. reflexivity.
Qed.

Lemma nrows_clean_column_names (df : DataFrame) :
  nrows (clean_column_names df) = nrows df.
Proof. destruct df as [|[n s] df]; reflexivity. Qed.

Lemma ncols_remove_duplicates (df : DataFrame) :
  ncols (remove_duplicates df) = ncols df.
Proof.
  unfold ncols. rewrite <- (length_map fst), <- (length_map fst df).
  fold (columns (remove_duplicates df)). fold (columns df).
  now rewrite columns_remove_duplicates.
Qed.

Lemma default_threshold_below_one : (default_threshold < 1)%Q.
Proof. reflexivity. Qed.

(** C1, as the code has it. On a frame whose labels are still all
    different once normalized, [auto_clean] raises nothing: it returns
    the cleaned frame and the report.  The frame has the normalized
    names and as many columns as the input; it has no more rows. *)
Theorem auto_clean_returns (df : DataFrame) :
  NoDup (map normalize_name (columns df)) ->
  exists df' r,
    auto_clean df = Ok (df', r) /\
    columns df' = map normalize_name (columns df) /\
    r = mkReport (nrows df) (nrows df') (ncols df) (ncols df') /\
    ncols df' = ncols df /\
    (nrows df' <= nrows df)%nat.
Proof.
  intros Hnd. unfold auto_clean.
  set (d2 := remove_duplicates (clean_column_names df)).
  assert (C2 : columns d2 = map normalize_name (columns df)).
  { unfold d2. now rewrite columns_remove_duplicates, columns_clean_column_names. }
  assert (N2 : NoDup (columns d2)) by now rewrite C2.
  rewrite (clean_text_columnwise d2 N2); cbn [bind].
  set (d3 := map_all_columns text_column d2).
  assert (C3 : columns d3 = columns d2) by apply columns_map_all.
  rewrite (normalize_salary_columnwise d3) by now rewrite C3. cbn [bind].
  set (d4 := map_all_columns salary_column d3).
  assert (C4 : columns d4 = columns d3) by apply columns_map_all.
  rewrite (normalize_age_columnwise d4) by now rewrite C4, C3. cbn [bind].
  set (d5 := map_all_columns age_column d4).
  assert (C5 : columns d5 = columns d4) by apply columns_map_all.
  rewrite (parse_date_columnwise d5) by now rewrite C5, C4, C3. cbn [bind].
  set (d6 := map_all_columns date_column d5).
  assert (C6 : columns d6 = columns d5) by apply columns_map_all.
  rewrite (handle_missing_columnwise default_threshold d6);
    [|now rewrite C6, C5, C4, C3
     |intros; apply below_one_has_mode, default_threshold_below_one].
  cbn [bind].
  set (d7 := map_all_columns (missing_column default_threshold) d6).
  exists d7, (generate_cleaning_report df d7).
  split; [reflexivity|]. split.
  { unfold d7. now rewrite columns_map_all, C6, C5, C4, C3. }
  split; [reflexivity|]. split.
  - unfold d7, d6, d5, d4, d3, d2. rewrite !ncols_map_all, ncols_remove_duplicates.
    unfold ncols, clean_column_names. apply length_map.
  - unfold d7, d6, d5, d4, d3.
    rewrite (nrows_map_all (missing_column default_threshold))
      by (intros; apply missing_column_shape).
    rewrite (nrows_map_all date_column) by apply length_date_column.
    rewrite (nrows_map_all age_column) by apply length_age_column.
    rewrite (nrows_map_all salary_column) by apply length_salary_column.
    rewrite (nrows_map_all text_column) by apply length_text_column.
    unfold d2. etransitivity; [apply nrows_remove_duplicates|].
    now rewrite nrows_clean_column_names.
Qed.

(* ----------------------------------------------------------------- *)
(** *** More on deduplication *)

Lemma same_key_refl (x : cell) : Obj.same_key x x = true.
Proof.
  unfold Obj.same_key. destruct (isna x) eqn:E; [reflexivity|].
  simpl. now apply obj_eqb_refl.
Qed.

Lemma eqb_na_right (a b : cell) :
  Obj.eqb a b = true -> isna a = true -> isna b = true.
Proof.
  destruct a as [u|z|[q|s|]|], b as [v|y|[r|t|]|]; simpl; congruence.
Qed.

Lemma same_key_trans (a b c : cell) :
  Obj.same_key a b = true -> Obj.same_key b c = true -> Obj.same_key a c = true.
Proof.
  unfold Obj.same_key. rewrite !orb_true_iff, !andb_true_iff.
  intros [[Ha Hb]|Hab] [[Hb' Hc]|Hbc].
  - left. now split.
  - left. split; [assumption|]. now apply (eqb_na_right b c).
  - left. split; [|assumption].
    apply (eqb_na_right b a); [now rewrite obj_eqb_sym|assumption].
  - right. now apply obj_eqb_trans with b.
Qed.

Lemma same_row_refl (r : row) : same_row r r = true.
Proof.
  induction r as [|x r IH]; [reflexivity|].
  simpl. now rewrite same_key_refl, IH.
Qed.

Lemma same_row_trans (a b c : row) :
  same_row a b = true -> same_row b c = true -> same_row a c = true.
Proof.
  revert b c. induction a as [|x a IH]; intros [|y b] [|z c]; simpl;
    try discriminate; auto.
  rewrite !andb_true_iff. intros [Hxy Hab] [Hyz Hbc]. split.
  - now apply same_key_trans with y.
  - now apply IH with b.
Qed.

Lemma eqb_not_nan (a b : cell) : Obj.eqb a b = true -> Obj.is_nan a = false.
Proof.
  destruct a as [u|z|[q|s|]|], b as [v|y|[r|t|]|]; simpl; congruence.
Qed.

Lemma same_object_refl (x : cell) : Obj.same_object x x = true.
Proof.
  destruct x as [u|z|[q|s|]|]; try reflexivity;
    unfold Obj.same_object; cbn [Obj.is_nan andb orb];
    apply obj_eqb_refl; reflexivity.
Qed.

Lemma same_object_trans (a b c : cell) :
  Obj.same_object a b = true -> Obj.same_object b c = true ->
  Obj.same_object a c = true.
Proof.
  unfold Obj.same_object. rewrite !orb_true_iff, !andb_true_iff.
  intros [[Ha Hb]|Hab] [[Hb' Hc]|Hbc].
  - left. now split.
  - apply eqb_not_nan in Hbc. congruence.
  - rewrite obj_eqb_sym in Hab. apply eqb_not_nan in Hab. congruence.
  - right. now apply obj_eqb_trans with b.
Qed.

(** What [Series.duplicated] takes for the same, [factorize] does too. *)
Lemma same_object_key (a b : cell) :
  Obj.same_object a b = true -> Obj.same_key a b = true.
Proof.
  unfold Obj.same_object, Obj.same_key. rewrite !orb_true_iff, !andb_true_iff.
  intros [[Ha Hb]|H]; [left|now right].
  destruct a as [u|z|[q|s|]|]; try discriminate.
  destruct b as [v|y|[r|t|]|]; try discriminate. now split.
Qed.

Lemma duplicate_of_refl (r : row) : duplicate_of r r = true.
Proof.
  destruct r as [|x [|y r]]; [reflexivity|apply same_object_refl|].
  apply same_row_refl.
Qed.

Lemma duplicate_of_same_row (a b : row) :
  duplicate_of a b = true -> same_row a b = true.
Proof.
  destruct a as [|x [|x' a]], b as [|y [|y' b]]; try (intros H; exact H).
  intros H. cbn [duplicate_of] in H. cbn [same_row].
  now rewrite (same_object_key _ _ H).
Qed.

Lemma duplicate_of_trans (a b c : row) :
  duplicate_of a b = true -> duplicate_of b c = true -> duplicate_of a c = true.
Proof.
  destruct a as [|x [|x' a]], b as [|y [|y' b]], c as [|z [|z' c]];
    try exact (same_object_trans _ _ _);
    try exact (same_row_trans _ _ _);
    cbn [duplicate_of same_row]; rewrite ?andb_false_r;
    intros H1 H2; try discriminate H1; discriminate H2.
Qed.

(** Rows of any other length than one are compared position by
    position. *)
Lemma duplicate_of_wide (a b : row) :
  List.length a <> 1%nat -> duplicate_of a b = same_row a b.
Proof.
  destruct a as [|x [|x' a]]; try reflexivity. intros H. now elim H.
Qed.

Lemma rows_remove_duplicates (df : DataFrame) :
  rows (remove_duplicates df) = keep_first [] (rows df).
Proof.
  unfold remove_duplicates. apply rows_with_rows.
  - intros r Hr. apply in_keep_first in Hr. now apply rows_length.
  - intros ->. reflexivity.
Qed.

Lemma keep_first_distinct (rs above pre : list row) (r : row) (post : list row) :
  keep_first above rs = (pre ++ r :: post)%list ->
  existsb (duplicate_of r) pre = false /\ existsb (duplicate_of r) above = false.
Proof.
  revert above pre. induction rs as [|x rs IH]; intros above pre; simpl.
  - destruct pre; discriminate.
  - destruct (existsb (duplicate_of x) above) eqn:E.
    + intros H. destruct (IH _ _ H) as [H1 H2]. simpl in H2.
      apply orb_false_iff in H2. tauto.
    + destruct pre as [|p pre]; simpl; intros H; inversion H; subst.
      * now split.
      * destruct (IH _ _ H2) as [H3 H4]. simpl in H4.
        apply orb_false_iff in H4. destruct H4 as [H4 H5].
        split; [|assumption]. now rewrite H4, H3.
Qed.

Lemma existsb_agree {A} (f g : A -> bool) (l : list A) :
  (forall k, In k l -> f k = g k) -> existsb f l = existsb g l.
Proof.
  induction l as [|k l IH]; intros H; [reflexivity|]. simpl.
  rewrite (H k) by now left. f_equal. apply IH. intros k' Hk'. apply H. now right.
Qed.

(** No row left by [remove_duplicates] repeats a row left above it.  In
    a frame of two columns or more that is: no row left has, position
    by position, the same values as a row above it, missing values
    taken for the same; in a frame of one column NaN is the same as
    NaN, and [None] as [None] only. *)
Theorem remove_duplicates_rows_distinct (df : DataFrame) (pre : list row)
  (r : row) (post : list row) :
  rows (remove_duplicates df) = (pre ++ r :: post)%list ->
  existsb (duplicate_of r) pre = false /\
  (ncols df <> 1%nat -> existsb (same_row r) pre = false).
Proof.
  intros H.
  assert (Hlen : forall k, In k (pre ++ r :: post)%list ->
                           List.length k = ncols df).
  { intros k Hk. rewrite <- H in Hk. apply rows_length in Hk.
    rewrite Hk. apply ncols_remove_duplicates. }
  rewrite rows_remove_duplicates in H.
  destruct (keep_first_distinct _ _ _ _ _ H) as [Hd _].
  split; [exact Hd|].
  intros Hw. rewrite <- Hd. apply existsb_agree. intros k _.
  symmetry. apply duplicate_of_wide.
  rewrite (Hlen r) by (apply in_or_app; right; now left). exact Hw.
Qed.

Lemma keep_first_covers (rs above kept : list row) :
  (forall a, In a above -> exists k, In k kept /\ duplicate_of a k = true) ->
  forall r, In r rs ->
  exists k, In k (kept ++ keep_first above rs) /\ duplicate_of r k = true.
Proof.
  revert above kept. induction rs as [|x rs IH]; intros above kept Hcov r Hr;
    [contradiction|].
  simpl. destruct (existsb (duplicate_of x) above) eqn:E.
  - assert (Hx : exists k, In k kept /\ duplicate_of x k = true).
    { apply existsb_exists in E. destruct E as [a [Ha Hxa]].
      destruct (Hcov a Ha) as [k [Hk Hak]]. exists k.
      split; [assumption|]. now apply duplicate_of_trans with a. }
    destruct Hr as [->|Hr].
    + destruct Hx as [k [Hk Hrk]]. exists k. split; [|assumption].
      apply in_or_app. now left.
    + apply (IH (x :: above) kept); [|assumption].
      intros a [<-|Ha]; [exact Hx|now apply Hcov].
  - assert (Hcov' : forall a, In a (x :: above) ->
                      exists k, In k (kept ++ [x]) /\ duplicate_of a k = true).
    { intros a [<-|Ha].
      - exists x. split; [apply in_or_app; right; now left|apply duplicate_of_refl].
      - destruct (Hcov a Ha) as [k [Hk Hak]]. exists k.
        split; [apply in_or_app; now left|assumption]. }
    destruct Hr as [->|Hr].
    + exists r. split; [|apply duplicate_of_refl].
      apply in_or_app. right. now left.
    + destruct (IH (x :: above) (kept ++ [x])%list Hcov' r Hr) as [k [Hk Hrk]].
      exists k. split; [|assumption].
      rewrite <- app_assoc in Hk. exact Hk.
Qed.

(** Every row of the frame is still there after [remove_duplicates],
    itself or a row equal to it, and the rows kept are rows of the
    frame. *)
Theorem remove_duplicates_keeps_a_copy (df : DataFrame) :
  (forall r, In r (rows df) ->
     exists k, In k (rows (remove_duplicates df)) /\ same_row r k = true) /\
  (forall k, In k (rows (remove_duplicates df)) -> In k (rows df)).
Proof.
  rewrite rows_remove_duplicates. split.
  - intros r Hr.
    destruct (keep_first_covers (rows df) [] [] (fun a (H : In a []) => match H with end) r Hr)
      as [k [Hk Hrk]].
    exists k. split; [assumption|]. now apply duplicate_of_same_row.
  - intros k. apply in_keep_first.
Qed.

Lemma keep_first_all (rs above : list row) :
  (forall pre r post, rs = (pre ++ r :: post)%list ->
     existsb (duplicate_of r) pre = false /\
     existsb (duplicate_of r) above = false) ->
  keep_first above rs = rs.
Proof.
  revert above. induction rs as [|x rs IH]; intros above H; [reflexivity|].
  simpl. destruct (H [] x rs eq_refl) as [_ Hx]. rewrite Hx. f_equal.
  apply IH. intros pre r post E.
  destruct (H (x :: pre) r post) as [H1 H2]; [now rewrite E|].
  simpl in H1. apply orb_false_iff in H1. destruct H1 as [H1 H3].
  split; [assumption|]. simpl. now rewrite H1, H2.
Qed.

Lemma no_same_row_no_duplicate (r : row) (l : list row) :
  existsb (same_row r) l = false -> existsb (duplicate_of r) l = false.
Proof.
  induction l as [|k l IH]; [reflexivity|]. simpl.
  intros H. apply orb_false_iff in H. destruct H as [H1 H2].
  rewrite (IH H2), orb_false_r.
  destruct (duplicate_of r k) eqn:E; [|reflexivity].
  apply duplicate_of_same_row in E. congruence.
Qed.

Lemma with_rows_of_rows (df : DataFrame) (k : nat) (df' : DataFrame) :
  (forall j p, nth_error df' j = Some p -> nth_error df (k + j) = Some p) ->
  (forall p, In p df' -> List.length (values (snd p)) = nrows df) ->
  with_rows_from k df' (rows df) = df'.
Proof.
  revert k. induction df' as [|[name s] df' IH]; intros k Hnth Hrect;
    [reflexivity|].
  simpl. f_equal.
  - f_equal. destruct s as [d vs]. cbn [dt]. f_equal.
    assert (Hk : nth_error df k = Some (name, mkSeries d vs)).
    { rewrite <- (Nat.add_0_r k). now apply Hnth. }
    assert (Hlen : List.length vs = nrows df).
    { apply (Hrect (name, mkSeries d vs)). now left. }
    unfold rows. rewrite map_map. rewrite <- Hlen.
    etransitivity; [|apply (map_nth_seq vs CNone)].
    apply map_ext. intros i.
    apply nth_error_nth.
    rewrite nth_error_map, Hk. reflexivity.
  - apply IH.
    + intros j p Hj. replace (S k + j)%nat with (k + S j)%nat by lia.
      now apply Hnth.
    + intros p Hp. apply Hrect. now right.
Qed.

(** A frame whose columns have the same length and in which no row is
    equal to a row above it comes out of [remove_duplicates] as it is. *)
Theorem remove_duplicates_nothing_to_drop (df : DataFrame) :
  (forall p, In p df -> List.length (values (snd p)) = nrows df) ->
  (forall pre r post, rows df = (pre ++ r :: post)%list ->
                      existsb (same_row r) pre = false) ->
  remove_duplicates df = df.
Proof.
  intros Hrect Hdistinct. unfold remove_duplicates, with_rows.
  rewrite keep_first_all.
  - apply with_rows_of_rows; [|assumption]. intros j p Hj. exact Hj.
  - intros pre r post E.
    split; [|reflexivity].
    apply no_same_row_no_duplicate. now apply (Hdistinct pre r post).
Qed.

(* ----------------------------------------------------------------- *)
(** *** More on the numeral parser *)

Lemma roman_get_values (c : ascii) :
  In (roman_get c) [0; 1; 5; 10; 50; 100; 500; 1000].
Proof. each_char c; vm_compute; tauto. Qed.

Lemma roman_get_double (a b : ascii) :
  roman_get a < roman_get b -> 2 * roman_get a <= roman_get b.
Proof.
  pose proof (roman_get_values a) as Ha. pose proof (roman_get_values b) as Hb.
  simpl in Ha, Hb. intuition lia.
Qed.

Lemma roman_to_int_unfold (s : string) :
  roman_to_int s = subtractive_value (Str.chars (Str.lower s)).
Proof. unfold roman_to_int. now rewrite fold_left_rev, roman_loop. Qed.

Lemma subtractive_value_bounds (l : list ascii) :
  match l with [] => 0 | c :: _ => roman_get c end <= subtractive_value l
  /\ subtractive_value l <= 1000 * Z.of_nat (List.length l).
Proof.
  induction l as [|c l IH]; [simpl; lia|].
  pose proof (roman_get_values c) as Hc.
  assert (Hc' : 0 <= roman_get c <= 1000) by (simpl in Hc; intuition lia).
  destruct l as [|c' l]; [simpl; lia|].
  change (subtractive_value (c :: c' :: l))
    with (if roman_get c <? roman_get c'
          then subtractive_value (c' :: l) - roman_get c
          else subtractive_value (c' :: l) + roman_get c).
  destruct IH as [IH1 IH2]. pose proof (roman_get_nonneg c') as Hc0.
  change (List.length (c :: c' :: l)) with (S (List.length (c' :: l))).
  rewrite Nat2Z.inj_succ.
  destruct (Z.ltb_spec (roman_get c) (roman_get c')) as [Hlt|Hge].
  - pose proof (roman_get_double c c' Hlt). lia.
  - lia.
Qed.

(** [roman_to_int] never returns a negative number, whatever the text,
    nor more than 1000 for each character; on a text of Roman symbols
    only it returns at least 1. *)
Theorem roman_to_int_bounds (s : string) :
  0 <= roman_to_int s <= 1000 * Z.of_nat (String.length s)
  /\ (fullmatch_roman s = true -> 1 <= roman_to_int s).
Proof.
  rewrite roman_to_int_unfold.
  pose proof (subtractive_value_bounds (Str.chars (Str.lower s))) as [H1 H2].
  assert (Hlen : List.length (Str.chars (Str.lower s)) = String.length s).
  { unfold Str.lower. now rewrite chars_of_chars, length_map, length_chars. }
  rewrite Hlen in H2. split.
  - split; [|assumption].
    destruct (Str.chars (Str.lower s)) as [|c l]; [assumption|].
    pose proof (roman_get_nonneg c). lia.
  - unfold fullmatch_roman. intros H.
    assert (Hl : forallb is_roman_char (Str.chars s) = true).
    { destruct (Str.chars s); [discriminate|assumption]. }
    unfold Str.lower in H1 |- *.
    rewrite chars_of_chars, (roman_text_lower _ Hl) in H1 |- *.
    destruct (Str.chars s) as [|c l]; [discriminate|].
    simpl in Hl. apply andb_true_iff in Hl. destruct Hl as [Hc _].
    assert (1 <= roman_get c) by (revert Hc; each_char c; vm_compute; congruence).
    lia.
Qed.

Lemma reads_int_spec (r : option pynum) (n : Z) :
  reads_int r n = true -> r = Some (PInt n).
Proof.
  destruct r as [[z|f]|]; simpl; try discriminate.
  intros H. apply Z.eqb_eq in H. now subst.
Qed.

(** Every number from 1 to 3999 written as a Roman numeral in the usual
    way, in capitals or in small letters, is read back by
    [parse_salary] as that number. *)
Theorem parse_salary_reads_roman_numerals (n : Z) :
  1 <= n <= 3999 ->
  parse_salary (CStr (to_roman n)) = Some (PInt n) /\
  parse_salary (CStr (Str.lower (to_roman n))) = Some (PInt n).
Proof.
  intros Hn.
  assert (H : (if (1 <=? n) && (n <=? 3999)
               then reads_int (parse_salary (CStr (to_roman n))) n
                    && reads_int (parse_salary (CStr (Str.lower (to_roman n)))) n
               else true) = true).
  { apply (all_below_Z 12
             (fun n =>
                if (1 <=? n) && (n <=? 3999)
                then reads_int (parse_salary (CStr (to_roman n))) n
                     && reads_int (parse_salary (CStr (Str.lower (to_roman n)))) n
                else true));
      [vm_compute; reflexivity|]. change (2 ^ Z.of_nat 12) with 4096. lia. }
  destruct (1 <=? n) eqn:E1; [|apply Z.leb_gt in E1; lia].
  destruct (n <=? 3999) eqn:E2; [|apply Z.leb_gt in E2; lia].
  cbn [andb] in H. apply andb_true_iff in H. destruct H as [H1 H2].
  split; now apply reads_int_spec.
Qed.

Lemma roman_to_int_nonneg (s : string) : 0 <= roman_to_int s.
Proof.
  rewrite roman_to_int_unfold.
  pose proof (subtractive_value_bounds (Str.chars (Str.lower s))) as [H _].
  destruct (Str.chars (Str.lower s)) as [|c l]; [assumption|].
  pose proof (roman_get_nonneg c). lia.
Qed.

Lemma digits_value_nonneg (ds : list ascii) : 0 <= PyFloat.digits_value ds.
Proof.
  unfold PyFloat.digits_value.
  assert (H : forall acc, 0 <= acc ->
            0 <= fold_left (fun a c => 10 * a + PyFloat.digit_value c) ds acc).
  { induction ds as [|c ds IH]; intros acc Hacc; cbn [fold_left]; [assumption|].
    apply IH. unfold PyFloat.digit_value. lia. }
  apply H. lia.
Qed.

Lemma scale10_nonneg (m e : Z) : 0 <= m -> (0 <= PyFloat.scale10 m e)%Q.
Proof.
  intros Hm. unfold PyFloat.scale10. destruct (0 <=? e) eqn:E.
  - apply Z.leb_le in E. unfold Qle; simpl.
    assert (0 <= 10 ^ e) by (apply Z.pow_nonneg; lia). nia.
  - rewrite Qred_correct. unfold Qle; simpl. lia.
Qed.

Lemma parse_decimal_nonneg (l : list ascii) (q : Q) :
  PyFloat.parse_decimal l = Some q -> (0 <= q)%Q.
Proof.
  unfold PyFloat.parse_decimal.
  destruct (PyFloat.span_digits l) as [ip r1].
  destruct (match r1 with
            | "."%char :: r => PyFloat.span_digits r
            | _ => ([], r1)
            end) as [fp r2].
  destruct (ip ++ fp)%list as [|c m] eqn:E; [discriminate|].
  destruct (PyFloat.parse_exponent r2) as [e|]; [|discriminate].
  intros H. inversion H. apply scale10_nonneg, digits_value_nonneg.
Qed.

Lemma plain_char_facts (c : ascii) :
  plain_char c = true ->
  PyFloat.is_c_space c = false /\ Str.eqc c "_" = false /\
  (forall l, PyFloat.split_sign (c :: l) = (false, c :: l)) /\
  Str.tolower c = c /\ Str.eqc c "i" = false /\ Str.eqc c "n" = false.
Proof.
  each_char c; vm_compute; intros H; try discriminate H; repeat split.
Qed.

Lemma strip_no_space (l : list ascii) :
  (forall c, In c l -> Str.isspace c = false) -> Str.strip_chars l = l.
Proof.
  assert (L : forall m, (forall c, In c m -> Str.isspace c = false) ->
                        Str.lstrip_chars m = m).
  { intros [|c m] H; [reflexivity|]. simpl. rewrite (H c) by now left.
    reflexivity. }
  intros H. unfold Str.strip_chars. rewrite (L l H).
  rewrite L by (intros c Hc; apply H; now apply in_rev).
  apply rev_involutive.
Qed.

Lemma trim_no_space (l : list ascii) :
  (forall c, In c l -> PyFloat.is_c_space c = false) -> PyFloat.trim l = l.
Proof.
  assert (L : forall m, (forall c, In c m -> PyFloat.is_c_space c = false) ->
                        PyFloat.skip_c_spaces m = m).
  { intros [|c m] H; [reflexivity|]. simpl. rewrite (H c) by now left.
    reflexivity. }
  intros H. unfold PyFloat.trim. rewrite (L l H).
  rewrite L by (intros c Hc; apply H; now apply in_rev).
  apply rev_involutive.
Qed.

Lemma strip_underscores_none (l : list ascii) (prev : ascii) :
  Str.eqc prev "_" = false ->
  (forall c, In c l -> Str.eqc c "_" = false) ->
  PyFloat.strip_underscores prev l = Some l.
Proof.
  revert prev. induction l as [|c l IH]; intros prev Hp H; simpl.
  - now rewrite Hp.
  - rewrite (H c) by now left. rewrite Hp. simpl.
    rewrite IH; [reflexivity|apply H; now left|].
    intros x Hx. apply H. now right.
Qed.

Lemma div_half_even_nonneg (n d : Z) :
  0 <= n -> 0 < d -> 0 <= Double.div_half_even n d.
Proof.
  intros Hn Hd. unfold Double.div_half_even.
  pose proof (Z.div_pos n d Hn Hd).
  destruct (2 * (n mod d) <? d); [assumption|].
  destruct (d <? 2 * (n mod d)); [lia|].
  destruct (Z.even (n / d)); lia.
Qed.

Lemma scale2_nonneg (m k : Z) : 0 <= m -> (0 <= Double.scale2 m k)%Q.
Proof.
  intros Hm. unfold Double.scale2. destruct (0 <=? k) eqn:E.
  - apply Z.leb_le in E. unfold Qle; simpl.
    assert (0 <= 2 ^ k) by (apply Z.pow_nonneg; lia). nia.
  - rewrite Qred_correct. unfold Qle; simpl. lia.
Qed.

(** Rounding keeps the sign: what is not negative is rounded to a
    double that is not negative, or to the positive infinity. *)
Lemma round_nonneg (q : Q) :
  (0 <= q)%Q ->
  match Double.round q with
  | FFin v => (0 <= v)%Q
  | FInf negative => negative = false
  | FNaN => False
  end.
Proof.
  intros Hq. unfold Double.round.
  assert (Hn : 0 <= Qnum q) by (unfold Qle in Hq; simpl in Hq; lia).
  destruct (Qnum q =? 0) eqn:E0; [unfold Qle; simpl; lia|].
  apply Z.eqb_neq in E0.
  assert (Hneg : (Qnum q <? 0) = false) by (apply Z.ltb_ge; lia).
  rewrite Hneg. unfold Double.nearest.
  set (k := Z.max (Double.exponent (Z.abs (Qnum q)) (Z.pos (Qden q))) (-1022) - 52).
  assert (Hm : 0 <= (if 0 <=? k
                     then Double.div_half_even (Z.abs (Qnum q))
                            (Z.pos (Qden q) * 2 ^ k)
                     else Double.div_half_even (Z.abs (Qnum q) * 2 ^ (- k))
                            (Z.pos (Qden q)))).
  { destruct (0 <=? k) eqn:Ek.
    - apply Z.leb_le in Ek. apply div_half_even_nonneg; [lia|].
      assert (0 < 2 ^ k) by (apply Z.pow_pos_nonneg; lia). nia.
    - apply Z.leb_gt in Ek. apply div_half_even_nonneg; [|lia].
      assert (0 < 2 ^ (- k)) by (apply Z.pow_pos_nonneg; lia). nia. }
  destruct (2 ^ (1024 - k) <=? _); [reflexivity|].
  now apply scale2_nonneg.
Qed.

(** [float] on a text of digits and points: a value that is not
    negative, the positive infinity, or a failure. *)
Lemma float_plain (l : list ascii) :
  forallb plain_char l = true ->
  match PyFloat.float (Str.of_chars l) with
  | Some (FFin q) => (0 <= q)%Q
  | Some (FInf negative) => negative = false
  | Some FNaN => False
  | None => True
  end.
Proof.
  intros H. rewrite forallb_forall in H.
  unfold PyFloat.float. rewrite chars_of_chars.
  rewrite trim_no_space by (intros c Hc; now apply plain_char_facts, H).
  rewrite strip_underscores_none;
    [|reflexivity|intros c Hc; now apply plain_char_facts, H].
  destruct l as [|c l]; [vm_compute; exact I|].
  destruct (plain_char_facts c (H c (or_introl eq_refl)))
    as [_ [_ [Hsign [Hlow [Hi Hn]]]]].
  unfold PyFloat.parse_signed. rewrite Hsign.
  assert (Hsp : PyFloat.special (c :: l) = None).
  { unfold PyFloat.special. cbn [map Str.of_chars string_of_list_ascii].
    rewrite Hlow. unfold Str.eqc in Hi, Hn.
    cbn [String.eqb]. now rewrite Hi, Hn. }
  rewrite Hsp.
  destruct (PyFloat.parse_decimal (c :: l)) as [q|] eqn:E; [|exact I].
  apply round_nonneg. now apply parse_decimal_nonneg in E.
Qed.

(** A salary text without the letter k is never read as a negative
    number or as NaN: outside the Roman branch every character but
    digits and points is dropped before [float], a minus sign and the
    letters of "nan" with them.  What [float] then returns is a double
    that is not negative, or the positive infinity when the digits
    spell a number beyond the doubles. *)
Theorem parse_salary_without_k (val : cell) :
  Str.contains "k" (clean_salary_text val) = false ->
  plain_amount (parse_salary val).
Proof.
  intros Hk. unfold parse_salary. rewrite Hk.
  destruct (fullmatch_roman (clean_salary_text val)).
  - simpl. apply roman_to_int_nonneg.
  - unfold keep_digits_and_dots.
    pose proof (float_plain
                  (filter (fun c => Str.isdigit c || Str.eqc c ".")
                          (Str.chars (clean_salary_text val)))) as H.
    destruct (PyFloat.float _) as [[q|b|]|]; simpl; apply H;
      apply forallb_forall; intros c Hc; apply filter_In in Hc; apply Hc.
Qed.

(* ----------------------------------------------------------------- *)
(** *** The salary column *)

Lemma cell_of_result_not_text (r : option pynum) :
  Obj.is_str (cell_of_result r) = false.
Proof. destruct r as [[z|f]|]; reflexivity. Qed.

Lemma infer_objects_numbers (l : list cell) :
  has_str l = false ->
  (values (infer_objects l) = l \/ values (infer_objects l) = map to_float_cell l)
  /\ (dt (infer_objects l) = object -> all_none l = true).
Proof.
  intros H. unfold infer_objects. rewrite H. simpl.
  destruct (all_none l); [split; [now left|reflexivity]|].
  destruct (all_int l); simpl; split; try discriminate; auto.
Qed.

(** [normalize_salary_column] rewrites the columns whose name contains
    "salary", and no other: each cell becomes what [parse_salary] makes
    of it (an [int] written as a float and [None] as NaN when the
    column holds floats), so that no text is left in the column, which
    stays of dtype [object] only if every cell failed to parse. *)
Theorem salary_column_holds_numbers (df : DataFrame) :
  NoDup (columns df) ->
  exists df',
    normalize_salary_column df = Ok df' /\
    columns df' = columns df /\
    forall k col s,
      nth_error df k = Some (col, s) ->
      exists s',
        nth_error df' k = Some (col, s') /\
        (Str.contains "salary" (Str.lower col) = false -> s' = s) /\
        (Str.contains "salary" (Str.lower col) = true ->
         (values s' = map (fun x => cell_of_result (parse_salary x)) (values s) \/
          values s' =
            map (fun x => to_float_cell (cell_of_result (parse_salary x))) (values s))
         /\ existsb Obj.is_str (values s') = false
         /\ (values s <> [] -> dt s' = object ->
             forall y, In y (values s') -> y = CNone)).
Proof.
  intros Hnd. rewrite (normalize_salary_columnwise df Hnd).
  eexists; split; [reflexivity|]. split; [apply columns_map_all|].
  intros k col s Hk. exists (salary_column col s).
  unfold map_all_columns. rewrite nth_error_map, Hk. cbn [option_map fst snd].
  split; [reflexivity|]. unfold salary_column. split.
  - intros ->. reflexivity.
  - intros ->. unfold apply.
    destruct (values s) as [|x l] eqn:Ev.
    + rewrite Ev. split; [now left|]. split; [reflexivity|]. congruence.
    + set (f := fun val => cell_of_result (parse_salary val)).
      assert (Hs : has_str (map f (x :: l)) = false).
      { unfold has_str. apply not_true_is_false. intros Ht.
        apply existsb_exists in Ht. destruct Ht as [y [Hy Hstr]].
        apply in_map_iff in Hy. destruct Hy as [v [<- _]].
        pose proof (cell_of_result_not_text (parse_salary v)) as Hn.
        unfold f in Hstr. destruct (cell_of_result (parse_salary v)); discriminate. }
      destruct (infer_objects_numbers _ Hs) as [Hv Hd].
      split; [|split].
      * destruct Hv as [Hv|Hv]; rewrite Hv; [now left|right].
        now rewrite map_map.
      * apply not_true_is_false. intros Ht.
        apply existsb_exists in Ht. destruct Ht as [y [Hy Hstr]].
        destruct Hv as [Hv|Hv]; rewrite Hv in Hy.
        -- apply in_map_iff in Hy. destruct Hy as [v [<- _]].
           unfold f in Hstr. now rewrite cell_of_result_not_text in Hstr.
        -- apply in_map_iff in Hy. destruct Hy as [y' [<- Hy']].
           apply in_map_iff in Hy'. destruct Hy' as [v [<- _]].
           unfold f in Hstr.
           destruct (parse_salary v) as [[z|g]|]; discriminate.
      * intros _ Hobj y Hy. specialize (Hd Hobj).
        unfold infer_objects in Hy. rewrite Hs, Hd in Hy. simpl in Hy.
        unfold all_none in Hd. rewrite forallb_forall in Hd.
        specialize (Hd y Hy). clear - Hd.
        destruct y; try discriminate Hd; reflexivity.
Qed.

(* ----------------------------------------------------------------- *)
(** *** More on column names *)

Lemma lstrip_head (l : list ascii) :
  Str.lstrip_chars l = l <->
  match l with [] => True | c :: _ => Str.isspace c = false end.
Proof.
  destruct l as [|c l]; simpl; [tauto|].
  destruct (Str.isspace c) eqn:E; split; try reflexivity; try discriminate.
  intros H. exfalso.
  assert (Hlen : forall m, (List.length (Str.lstrip_chars m) <= List.length m)%nat).
  { induction m as [|x m IHm]; simpl; [lia|]. destruct (Str.isspace x); simpl; lia. }
  pose proof (Hlen l) as Hl. rewrite H in Hl. simpl in Hl. lia.
Qed.

Lemma lstrip_lstrip (l : list ascii) :
  Str.lstrip_chars (Str.lstrip_chars l) = Str.lstrip_chars l.
Proof.
  induction l as [|c l IH]; [reflexivity|]. simpl.
  destruct (Str.isspace c) eqn:E; [exact IH|]. simpl. now rewrite E.
Qed.

Lemma lstrip_snoc (m : list ascii) (a : ascii) :
  Str.isspace a = false ->
  exists x, Str.lstrip_chars (m ++ [a]) = (x ++ [a])%list.
Proof.
  intros Ha. induction m as [|c m IH]; simpl.
  - rewrite Ha. now exists [].
  - destruct (Str.isspace c); [exact IH|]. now exists (c :: m).
Qed.

(** A text without white space at either end. *)
Lemma strip_chars_trimmed (l : list ascii) :
  Str.lstrip_chars (Str.strip_chars l) = Str.strip_chars l /\
  Str.lstrip_chars (rev (Str.strip_chars l)) = rev (Str.strip_chars l).
Proof.
  unfold Str.strip_chars. rewrite rev_involutive. split; [|apply lstrip_lstrip].
  apply lstrip_head.
  pose proof (proj1 (lstrip_head (Str.lstrip_chars l)) (lstrip_lstrip l)) as Hh.
  destruct (Str.lstrip_chars l) as [|a m]; [reflexivity|].
  simpl rev. destruct (lstrip_snoc (rev m) a Hh) as [x ->].
  rewrite rev_app_distr. simpl. exact Hh.
Qed.

Lemma trimmed_strip (l : list ascii) :
  Str.lstrip_chars l = l -> Str.lstrip_chars (rev l) = rev l ->
  Str.strip_chars l = l.
Proof.
  intros H1 H2. unfold Str.strip_chars. rewrite H1, H2. apply rev_involutive.
Qed.

Lemma title_char_space (b : bool) (c : ascii) :
  exists y,
    map blank_to_underscore (Str.title_chars b [c]) = [y] /\
    (Str.isspace c = false -> Str.isspace y = false) /\
    Str.eqc y " " = false.
Proof.
  assert (H : match map blank_to_underscore (Str.title_chars b [c]) with
              | [y] => (Str.isspace c || negb (Str.isspace y))
                       && negb (Str.eqc y " ")
              | _ => false
              end = true)
    by (destruct b; each_char c; vm_compute; reflexivity).
  destruct (map blank_to_underscore (Str.title_chars b [c])) as [|y [|z l]];
    try discriminate H.
  exists y. apply andb_true_iff in H. destruct H as [H1 H2].
  apply negb_true_iff in H2. split; [reflexivity|]. split; [|exact H2].
  intros Hc. rewrite Hc in H1. simpl in H1. now apply negb_true_iff in H1.
Qed.

Lemma normalized_spaces (l : list ascii) (b : bool) :
  Forall2 (fun c y => (Str.isspace c = false -> Str.isspace y = false)
                      /\ Str.eqc y " " = false)
          l (map blank_to_underscore (Str.title_chars b l)).
Proof.
  revert b. induction l as [|c l IH]; intros b; [constructor|].
  rewrite title_chars_cons, map_app.
  destruct (title_char_space b c) as [y [-> Hy]].
  simpl. constructor; [exact Hy|apply IH].
Qed.

Lemma Forall2_rev' {A B} (R : A -> B -> Prop) (l : list A) (m : list B) :
  Forall2 R l m -> Forall2 R (rev l) (rev m).
Proof.
  induction 1 as [|x y l m Hxy H IH]; simpl; [constructor|].
  apply Forall2_app; [exact IH|]. now repeat constructor.
Qed.

Lemma head_not_space (l m : list ascii) :
  Forall2 (fun c y => (Str.isspace c = false -> Str.isspace y = false)
                      /\ Str.eqc y " " = false) l m ->
  Str.lstrip_chars l = l -> Str.lstrip_chars m = m.
Proof.
  intros H Hl. apply lstrip_head. apply lstrip_head in Hl.
  destruct H as [|c y l m [Hcy _] _]; [exact I|]. now apply Hcy.
Qed.

Lemma normalized_chars_trimmed (col : string) :
  let n := map blank_to_underscore
             (Str.title_chars false (Str.strip_chars (Str.chars col))) in
  Str.strip_chars n = n /\ existsb (fun c => Str.eqc c " ") n = false.
Proof.
  cbv zeta.
  pose proof (normalized_spaces (Str.strip_chars (Str.chars col)) false) as F.
  destruct (strip_chars_trimmed (Str.chars col)) as [T1 T2]. split.
  - apply trimmed_strip.
    + now apply (head_not_space _ _ F).
    + now apply (head_not_space _ _ (Forall2_rev' _ _ _ F)).
  - apply not_true_is_false. intros H. apply existsb_exists in H.
    destruct H as [y [Hy Hb]].
    assert (G : forall l m,
              Forall2 (fun c z => (Str.isspace c = false -> Str.isspace z = false)
                                  /\ Str.eqc z " " = false) l m ->
              forall z, In z m -> Str.eqc z " " = false).
    { intros l m G. induction G as [|c z l m [_ Hz] G IH]; intros w Hw;
        [contradiction|].
      destruct Hw as [<-|Hw]; [exact Hz|now apply IH]. }
    rewrite (G _ _ F y Hy) in Hb. discriminate.
Qed.

Lemma normalize_name_twice (col : string) :
  normalize_name (normalize_name col) = normalize_name col.
Proof.
  rewrite (normalize_name_chars (normalize_name col)).
  rewrite (normalize_name_chars col), chars_of_chars.
  destruct (normalized_chars_trimmed col) as [Hs _]. cbv zeta in Hs.
  rewrite Hs. f_equal.
  rewrite normalized_from_key, key_of_normalized.
  symmetry. apply normalized_from_key.
Qed.

Lemma ascii_case (c : ascii) :
  is_ascii_char c = true ->
  is_ascii_char (Str.toupper c) = true /\
  is_ascii_char (Str.tolower c) = true /\
  is_ascii_char (blank_to_underscore c) = true.
Proof.
  each_char c; vm_compute; intros H; try discriminate H; repeat split.
Qed.

Lemma lstrip_chars_in (l : list ascii) (c : ascii) :
  In c (Str.lstrip_chars l) -> In c l.
Proof.
  induction l as [|x l IH]; [tauto|]. simpl.
  destruct (Str.isspace x); [intros H; right; now apply IH|tauto].
Qed.

Lemma strip_chars_in (l : list ascii) (c : ascii) :
  In c (Str.strip_chars l) -> In c l.
Proof.
  unfold Str.strip_chars. intros H.
  apply in_rev, lstrip_chars_in, in_rev, lstrip_chars_in in H. exact H.
Qed.

Lemma title_chars_ascii (l : list ascii) (b : bool) :
  forallb is_ascii_char l = true ->
  forallb is_ascii_char (Str.title_chars b l) = true.
Proof.
  revert b. induction l as [|c l IH]; intros b H; [reflexivity|].
  simpl in H. apply andb_true_iff in H. destruct H as [Hc Hl].
  destruct (ascii_case c Hc) as [Hu [Hlo _]].
  simpl. destruct (Str.islower c); [|destruct (Str.isupper c)];
    destruct b; simpl; rewrite ?Hc, ?Hu, ?Hlo; now apply IH.
Qed.

(** A name written in ASCII is normalized to one. *)
Lemma normalize_name_ascii (col : string) :
  is_ascii col = true -> is_ascii (normalize_name col) = true.
Proof.
  unfold is_ascii. intros H. rewrite normalize_name_chars, chars_of_chars.
  assert (T : forallb is_ascii_char
                (Str.title_chars false (Str.strip_chars (Str.chars col))) = true).
  { apply title_chars_ascii. apply forallb_forall. intros c Hc.
    apply strip_chars_in in Hc. rewrite forallb_forall in H. now apply H. }
  apply forallb_forall. intros c Hc. apply in_map_iff in Hc.
  destruct Hc as [x [<- Hx]]. rewrite forallb_forall in T.
  now apply ascii_case, T.
Qed.

(** On names written in ASCII, normalizing a second time changes
    nothing: a normalized name is again in ASCII, has no white space at
    either end and no blank in it.  (Beyond ASCII [str.title] can
    change a name twice: a letter whose capital takes two characters is
    followed by a small letter after the first pass, and by a capital
    after the second.) *)
Theorem clean_column_names_idempotent (df : DataFrame) :
  (forall col, In col (columns df) -> is_ascii col = true) ->
  clean_column_names (clean_column_names df) = clean_column_names df /\
  forall col, In col (columns (clean_column_names df)) ->
    is_ascii col = true /\
    Str.strip col = col /\
    existsb (fun c => Str.eqc c " ") (Str.chars col) = false.
Proof.
  intros Hascii. split.
  - unfold clean_column_names. rewrite map_map. apply map_ext.
    intros [n s]. cbn [fst snd]. now rewrite normalize_name_twice.
  - intros col Hcol. rewrite columns_clean_column_names in Hcol.
    apply in_map_iff in Hcol. destruct Hcol as [n [<- Hn]].
    split; [now apply normalize_name_ascii, Hascii|].
    rewrite normalize_name_chars.
    destruct (normalized_chars_trimmed n) as [Hs Hb]. cbv zeta in Hs, Hb.
    unfold Str.strip. rewrite chars_of_chars. now rewrite Hs.
Qed.

(* ----------------------------------------------------------------- *)
(** *** More on text cleaning *)

Lemma split_chars_in (l cur w : list ascii) (c : ascii) :
  In w (Str.split_chars cur l) -> In c w -> In c cur \/ In c l.
Proof.
  revert cur. induction l as [|x l IH]; intros cur Hw Hc; simpl in Hw.
  - destruct cur as [|a cur]; [contradiction|].
    destruct Hw as [<-|[]]. left. now apply in_rev.
  - destruct (Str.isspace x).
    + destruct cur as [|a cur].
      * destruct (IH [] Hw Hc) as [[]|H]. right. now right.
      * destruct Hw as [<-|Hw]; [left; now apply in_rev|].
        destruct (IH [] Hw Hc) as [[]|H]. right. now right.
    + destruct (IH (x :: cur) Hw Hc) as [[->|H]|H].
      * right. now left.
      * now left.
      * right. now right.
Qed.

Lemma capitalize_chars_in (w : list ascii) (y : ascii) :
  In y (Str.capitalize_chars w) ->
  exists c, In c w /\ (y = Str.toupper c \/ y = Str.tolower c).
Proof.
  destruct w as [|a w]; [contradiction|]. simpl.
  intros [<-|H].
  - exists a. split; [now left|now left].
  - apply in_map_iff in H. destruct H as [c [<- Hc]].
    exists c. split; [now right|now right].
Qed.

Lemma join_chars_in (ws : list (list ascii)) (y : ascii) :
  In y (Str.join_chars ws) -> y = " "%char \/ exists w, In w ws /\ In y w.
Proof.
  induction ws as [|w ws IH]; [contradiction|].
  destruct ws as [|w' ws].
  - simpl. intros H. right. exists w. split; [now left|assumption].
  - change (Str.join_chars (w :: w' :: ws))
      with (w ++ " "%char :: Str.join_chars (w' :: ws))%list.
    intros H. apply in_app_or in H. destruct H as [H|[<-|H]].
    + right. exists w. split; [now left|assumption].
    + now left.
    + destruct (IH H) as [->|[u [Hu Hy]]]; [now left|].
      right. exists u. split; [now right|assumption].
Qed.

Lemma capitalize_words_in (v : string) (y : ascii) :
  In y (Str.chars (capitalize_words v)) ->
  y = " "%char \/
  exists c, In c (Str.chars v) /\ (y = Str.toupper c \/ y = Str.tolower c).
Proof.
  unfold capitalize_words. rewrite chars_of_chars. intros H.
  apply join_chars_in in H. destruct H as [->|[w [Hw Hy]]]; [now left|].
  apply in_map_iff in Hw. destruct Hw as [u [<- Hu]].
  apply capitalize_chars_in in Hy. destruct Hy as [c [Hc Hy]].
  right. exists c. split; [|assumption].
  destruct (split_chars_in _ _ _ c Hu Hc) as [[]|H]. exact H.
Qed.

Lemma kept_case (c : ascii) :
  kept_in_text c = true ->
  text_alphabet true (Str.toupper c) = true /\
  text_alphabet true (Str.tolower c) = true /\
  Str.eqc c "#" = false /\ Str.eqc (Str.toupper c) "#" = false /\
  Str.eqc (Str.tolower c) "#" = false.
Proof. each_char c; vm_compute; intros H; try discriminate H; repeat split. Qed.

Lemma filter_text_kept (v : string) (c : ascii) :
  In c (Str.chars (filter_text v)) -> kept_in_text c = true.
Proof.
  unfold filter_text. rewrite chars_of_chars. intros H.
  now apply filter_In in H.
Qed.

Lemma remove_absent (a : ascii) (v : string) :
  (forall c, In c (Str.chars v) -> Str.eqc c a = false) -> Str.remove a v = v.
Proof.
  intros H. unfold Str.remove.
  assert (E : filter (fun x => negb (Str.eqc x a)) (Str.chars v) = Str.chars v).
  { induction (Str.chars v) as [|x l IH]; [reflexivity|]. simpl.
    rewrite (H x) by now left. simpl. f_equal. apply IH.
    intros c Hc. apply H. now right. }
  rewrite E. apply string_of_list_ascii_of_string.
Qed.

(** The text of a cleaned cell without the step of the "remarks"
    columns. *)
Lemma text_cell_without_remarks (col : string) (x : cell) :
  text_cell col x =
  (if Str.contains "name" (Str.lower col)
   then capitalize_words (filter_text (Str.lower (Str.strip (str x))))
   else filter_text (Str.lower (Str.strip (str x)))).
Proof.
  unfold text_cell.
  destruct (Str.contains "remarks" (Str.lower col)); [|reflexivity].
  apply remove_absent. intros c Hc.
  destruct (Str.contains "name" (Str.lower col)).
  - apply capitalize_words_in in Hc. destruct Hc as [-> | [a [Ha [-> | ->]]]];
      [reflexivity| |]; now apply kept_case, (filter_text_kept _ _ Ha).
  - now apply kept_case, (filter_text_kept _ _ Hc).
Qed.

Lemma text_cell_alphabet (col : string) (x : cell) (c : ascii) :
  In c (Str.chars (text_cell col x)) ->
  text_alphabet (Str.contains "name" (Str.lower col)) c = true.
Proof.
  rewrite text_cell_without_remarks.
  destruct (Str.contains "name" (Str.lower col)); intros Hc.
  - apply capitalize_words_in in Hc. destruct Hc as [-> | [a [Ha [-> | ->]]]];
      [reflexivity| |]; now apply kept_case, (filter_text_kept _ _ Ha).
  - unfold text_alphabet. rewrite (filter_text_kept _ _ Hc). reflexivity.
Qed.

(** [clean_text_columns] leaves the columns that are not of dtype
    [object] alone.  A text column comes out as a column of text cells,
    as many as before, written with small letters, digits, white space
    and the four marks . , / - only, and with capitals where the name
    of the column contains "name". *)
Theorem clean_text_alphabet (df : DataFrame) :
  NoDup (columns df) ->
  exists df',
    clean_text_columns df = Ok df' /\
    columns df' = columns df /\
    forall k col s,
      nth_error df k = Some (col, s) ->
      exists s',
        nth_error df' k = Some (col, s') /\
        (dt s <> object -> s' = s) /\
        (dt s = object ->
         dt s' = object /\
         List.length (values s') = List.length (values s) /\
         forall y, In y (values s') ->
           exists v, y = CStr v /\
             forallb (text_alphabet (Str.contains "name" (Str.lower col)))
                     (Str.chars v) = true).
Proof.
  intros Hnd. rewrite (clean_text_columnwise df Hnd).
  eexists; split; [reflexivity|]. split; [apply columns_map_all|].
  intros k col s Hk. exists (text_column col s).
  unfold map_all_columns. rewrite nth_error_map, Hk. cbn [option_map fst snd].
  split; [reflexivity|]. unfold text_column. split.
  - intros H. destruct (dt s); [contradiction| |]; reflexivity.
  - intros ->. cbn [is_object dt values]. split; [reflexivity|].
    split; [apply length_map|].
    intros y Hy. apply in_map_iff in Hy. destruct Hy as [x [<- _]].
    exists (text_cell col x). split; [reflexivity|].
    apply forallb_forall. intros c Hc. now apply text_cell_alphabet with x.
Qed.

(** The step that strips "#" from the columns whose name contains
    "remarks" never changes a cell: the filter before it has already
    dropped every "#".  With or without "remarks" in its name, a text
    column is trimmed, put in small letters and filtered, and its words
    are capitalized if its name contains "name". *)
Theorem remarks_step_changes_nothing (df : DataFrame) :
  NoDup (columns df) ->
  exists df',
    clean_text_columns df = Ok df' /\
    forall k col s,
      nth_error df k = Some (col, s) ->
      dt s = object ->
      exists s',
        nth_error df' k = Some (col, s') /\
        values s' =
          map (fun x =>
                 CStr (if Str.contains "name" (Str.lower col)
                       then capitalize_words
                              (filter_text (Str.lower (Str.strip (str x))))
                       else filter_text (Str.lower (Str.strip (str x)))))
              (values s).
Proof.
  intros Hnd. rewrite (clean_text_columnwise df Hnd).
  eexists; split; [reflexivity|].
  intros k col s Hk Hobj. exists (text_column col s).
  unfold map_all_columns. rewrite nth_error_map, Hk. cbn [option_map fst snd].
  split; [reflexivity|]. unfold text_column. rewrite Hobj. cbn [is_object values].
  apply map_ext. intros x. now rewrite text_cell_without_remarks.
Qed.

(* ----------------------------------------------------------------- *)
(** *** More on imputation *)

Lemma series_eta (s : Series) : mkSeries (dt s) (values s) = s.
Proof. now destruct s. Qed.

Lemma fillna_fixed (v : cell) (s : Series) :
  (forall x, In x (values s) -> isna x = true -> x = v) -> fillna v s = s.
Proof.
  intros H. unfold fillna. rewrite <- (series_eta s) at 3. f_equal.
  rewrite <- (map_id (values s)) at 2. apply map_ext_in. intros x Hx.
  destruct (isna x) eqn:E; [symmetry; now apply H|reflexivity].
Qed.

Lemma null_count_zero (s : Series) :
  null_count s = 0%nat <-> forall x, In x (values s) -> isna x = false.
Proof.
  unfold null_count. split.
  - intros H x Hx. destruct (isna x) eqn:E; [|reflexivity].
    assert (Hin : In x (filter isna (values s))) by (apply filter_In; now split).
    destruct (filter isna (values s)); [contradiction|discriminate].
  - intros H. induction (values s) as [|x l IH]; [reflexivity|]. simpl.
    rewrite (H x) by now left. apply IH. intros y Hy. apply H. now right.
Qed.

Lemma dropna_all (l : list cell) :
  (forall x, In x l -> isna x = false) -> dropna l = l.
Proof.
  intros H. unfold dropna. induction l as [|x l IH]; [reflexivity|]. simpl.
  rewrite (H x) by now left. simpl. f_equal. apply IH.
  intros y Hy. apply H. now right.
Qed.

Lemma complete_has_mode (threshold : Q) (s : Series) :
  null_count s = 0%nat -> has_mode threshold s.
Proof.
  intros H0 Hle _. pose proof (proj1 (null_count_zero s) H0) as H1.
  clear H0. rename H1 into H0.
  assert (Hne : dropna (values s) <> []).
  { rewrite dropna_all by assumption. unfold null_mean_le in Hle.
    destruct (values s); [discriminate|discriminate]. }
  destruct (mode_head s Hne) as [v [rest [E _]]]. rewrite E. discriminate.
Qed.

Lemma missing_column_complete (threshold : Q) (col : string) (s : Series) :
  null_count s = 0%nat -> missing_column threshold col s = s.
Proof.
  intros H0. pose proof (proj1 (null_count_zero s) H0) as H1.
  clear H0. rename H1 into H0. unfold missing_column.
  destruct (null_mean_le s threshold); [|reflexivity].
  destruct (is_object (dt s)); apply fillna_fixed; intros x Hx Hna;
    rewrite (H0 x Hx) in Hna; discriminate.
Qed.

Lemma map_all_columns_id (h : string -> Series -> Series) (df : DataFrame) :
  (forall col s, In (col, s) df -> h col s = s) -> map_all_columns h df = df.
Proof.
  intros H. unfold map_all_columns. rewrite <- (map_id df) at 2.
  apply map_ext_in. intros [n s] Hin. cbn [fst snd]. now rewrite (H n s Hin).
Qed.

(** A frame in which no cell is missing is returned as it is, at any
    threshold. *)
Theorem imputation_nothing_to_fill (df : DataFrame) (threshold : Q) :
  NoDup (columns df) ->
  (forall col s, In (col, s) df -> null_count s = 0%nat) ->
  handle_missing_values df threshold = Ok df.
Proof.
  intros Hnd H0.
  rewrite (handle_missing_columnwise threshold df Hnd)
    by (intros col s Hin; apply complete_has_mode; now apply (H0 col)).
  f_equal. apply map_all_columns_id. intros col s Hin.
  apply missing_column_complete. now apply (H0 col).
Qed.

Lemma null_mean_negative (threshold : Q) (s : Series) :
  (threshold < 0)%Q -> null_mean_le s threshold = false.
Proof.
  intros Hthr. unfold null_mean_le.
  destruct (List.length (values s)) as [|n]; [reflexivity|].
  apply not_true_is_false. intros H. apply Qle_bool_iff in H.
  pose proof (Qle_lt_trans _ _ _ H Hthr) as Hlt.
  unfold Qlt in Hlt. simpl in Hlt. lia.
Qed.

(** With a threshold below 0 no column is at or under it, and the frame
    is returned as it is, missing cells included. *)
Theorem imputation_off_below_zero (df : DataFrame) (threshold : Q) :
  NoDup (columns df) -> (threshold < 0)%Q ->
  handle_missing_values df threshold = Ok df.
Proof.
  intros Hnd Hthr.
  rewrite (handle_missing_columnwise threshold df Hnd).
  - f_equal. apply map_all_columns_id. intros col s _.
    unfold missing_column. now rewrite null_mean_negative.
  - intros col s _ Hle. now rewrite null_mean_negative in Hle.
Qed.

Lemma null_count_fillna (v : cell) (s : Series) :
  isna v = false -> null_count (fillna v s) = 0%nat.
Proof.
  intros Hv. apply null_count_zero. unfold fillna; cbn [values].
  intros x Hx. apply in_map_iff in Hx. destruct Hx as [y [<- _]].
  destruct (isna y) eqn:E; assumption.
Qed.

Lemma dropna_fillna_nan (s : Series) :
  dropna (values (fillna (CFloat FNaN) s)) = dropna (values s).
Proof.
  unfold fillna, dropna; cbn [values].
  induction (values s) as [|x l IH]; [reflexivity|]. simpl.
  destruct (isna x) eqn:E; simpl; [exact IH|]. rewrite E. simpl. now rewrite IH.
Qed.

Lemma null_count_fillna_nan (s : Series) :
  null_count (fillna (CFloat FNaN) s) = null_count s.
Proof.
  unfold null_count, fillna; cbn [values].
  induction (values s) as [|x l IH]; [reflexivity|]. simpl.
  destruct (isna x) eqn:E; simpl; [now rewrite IH|]. now rewrite E.
Qed.

Lemma missing_column_twice (threshold : Q) (col : string) (s : Series) :
  (threshold < 1)%Q ->
  missing_column threshold col (missing_column threshold col s) =
  missing_column threshold col s.
Proof.
  intros Hthr. unfold missing_column at 2 3.
  destruct (null_mean_le s threshold) eqn:Hle.
  - destruct (is_object (dt s)) eqn:Hobj.
    + destruct (mode_head s (null_mean_present threshold s Hthr Hle))
        as [v [rest [E [Hin _]]]].
      rewrite E. cbn [hd]. apply missing_column_complete.
      apply null_count_fillna. now apply dropna_present in Hin.
    + destruct (median s) as [q|b|] eqn:Em.
      * apply missing_column_complete. now apply null_count_fillna.
      * apply missing_column_complete. now apply null_count_fillna.
      * unfold missing_column.
        assert (Hle' : null_mean_le (fillna (CFloat FNaN) s) threshold = true).
        { unfold null_mean_le in Hle |- *. rewrite null_count_fillna_nan.
          unfold fillna at 1; cbn [values]. now rewrite length_map. }
        rewrite Hle'. cbn [fillna dt]. rewrite Hobj.
        assert (Em' : median (fillna (CFloat FNaN) s) = FNaN).
        { unfold median in Em |- *. now rewrite dropna_fillna_nan. }
        rewrite Em'. apply fillna_fixed. cbn [values].
        intros x Hx Hna. apply in_map_iff in Hx. destruct Hx as [y [<- _]].
        destruct (isna y) eqn:Ey; [reflexivity|congruence].
  - unfold missing_column. now rewrite Hle.
Qed.

(** Imputing twice is imputing once (threshold below 1): the second
    pass finds nothing it can fill. *)
Theorem imputation_idempotent (df : DataFrame) (threshold : Q) :
  NoDup (columns df) -> (threshold < 1)%Q ->
  exists df',
    handle_missing_values df threshold = Ok df' /\
    handle_missing_values df' threshold = Ok df'.
Proof.
  intros Hnd Hthr.
  rewrite (handle_missing_columnwise threshold df Hnd)
    by (intros; now apply below_one_has_mode).
  eexists; split; [reflexivity|].
  rewrite handle_missing_columnwise;
    [|now rewrite columns_map_all|intros; now apply below_one_has_mode].
  f_equal. unfold map_all_columns. rewrite map_map. apply map_ext.
  intros [n s]. cbn [fst snd]. now rewrite missing_column_twice.
Qed.

Lemma sorted_numbers_finite (l : list cell) (i : nat) :
  (forall x, In x l -> missing_or_finite x = true) ->
  (i < List.length (sort (filter Obj.is_number (dropna l))))%nat ->
  exists q, float_of_cell (nth i (sort (filter Obj.is_number (dropna l))) CNone) = FFin q.
Proof.
  intros H Hi.
  assert (Hin : In (nth i (sort (filter Obj.is_number (dropna l))) CNone) l
                /\ isna (nth i (sort (filter Obj.is_number (dropna l))) CNone) = false
                /\ Obj.is_number (nth i (sort (filter Obj.is_number (dropna l))) CNone) = true).
  { pose proof (nth_In _ CNone Hi) as Hn. apply (proj1 (sort_in _ _)) in Hn.
    apply filter_In in Hn. destruct Hn as [Hn Hnum].
    apply dropna_present in Hn. tauto. }
  destruct Hin as [Hin [Hna Hnum]]. specialize (H _ Hin).
  destruct (nth i (sort (filter Obj.is_number (dropna l))) CNone) as [v|z|[q|b|]|];
    try discriminate; unfold float_of_cell; cbn [Obj.as_number]; eexists;
    reflexivity.
Qed.

Lemma length_sort (l : list cell) : List.length (sort l) = List.length l.
Proof.
  assert (L : forall x m, List.length (insert_sorted x m) = S (List.length m)).
  { intros x m. induction m as [|y m IH]; [reflexivity|]. simpl.
    destruct (Obj.leb x y); simpl; [reflexivity|now rewrite IH]. }
  induction l as [|x l IH]; [reflexivity|]. simpl. now rewrite L, IH.
Qed.

Lemma median_finite (s : Series) :
  (forall x, In x (values s) -> missing_or_finite x = true) ->
  filter Obj.is_number (dropna (values s)) <> [] ->
  exists q, median s = FFin q.
Proof.
  intros H Hne. unfold median.
  set (xs := sort (filter Obj.is_number (dropna (values s)))).
  assert (Hlen : (0 < List.length xs)%nat).
  { unfold xs. rewrite length_sort.
    destruct (filter Obj.is_number (dropna (values s))); [congruence|simpl; lia]. }
  destruct (Nat.eqb_spec (List.length xs) 0) as [E|_]; [lia|].
  assert (Hhalf : (List.length xs / 2 < List.length xs)%nat)
    by (apply Nat.div_lt; lia).
  destruct (Nat.odd (List.length xs)).
  - now apply sorted_numbers_finite.
  - destruct (sorted_numbers_finite (values s) (List.length xs / 2 - 1) H) as [p Hp];
      [fold xs; lia|].
    destruct (sorted_numbers_finite (values s) (List.length xs / 2) H) as [q Hq];
      [fold xs; lia|].
    fold xs in Hp, Hq. rewrite Hp, Hq. simpl. eauto.
Qed.

(** After imputation (threshold below 1) a text column that was at or
    under the threshold has no missing cell left, nor has a numeric
    column that was at or under it and whose values present are finite
    numbers. *)
Theorem imputed_columns_complete (df : DataFrame) (threshold : Q) :
  NoDup (columns df) -> (threshold < 1)%Q ->
  exists df',
    handle_missing_values df threshold = Ok df' /\
    forall k col s,
      nth_error df k = Some (col, s) ->
      null_mean_le s threshold = true ->
      exists s',
        nth_error df' k = Some (col, s') /\
        (is_object (dt s) = true -> null_count s' = 0%nat) /\
        (is_object (dt s) = false ->
         forallb missing_or_finite (values s) = true ->
         null_count s' = 0%nat).
Proof.
  intros Hnd Hthr.
  rewrite (handle_missing_columnwise threshold df Hnd)
    by (intros; now apply below_one_has_mode).
  eexists; split; [reflexivity|].
  intros k col s Hk Hle. exists (missing_column threshold col s).
  unfold map_all_columns. rewrite nth_error_map, Hk. cbn [option_map fst snd].
  split; [reflexivity|]. unfold missing_column. rewrite Hle.
  pose proof (null_mean_present threshold s Hthr Hle) as Hne. split.
  - intros ->. destruct (mode_head s Hne) as [v [rest [E [Hin _]]]].
    rewrite E. cbn [hd]. apply null_count_fillna. now apply dropna_present in Hin.
  - intros -> Hfin. rewrite forallb_forall in Hfin.
    destruct (median_finite s Hfin) as [q ->]; [|now apply null_count_fillna].
    destruct (dropna (values s)) as [|x l] eqn:Ed; [congruence|].
    assert (Hx : In x (dropna (values s))) by (rewrite Ed; now left).
    apply dropna_present in Hx. destruct Hx as [Hx Hna].
    specialize (Hfin x Hx). simpl.
    assert (Hnum : Obj.is_number x = true).
    { destruct x as [v|z|[p|b|]|]; try discriminate; reflexivity. }
    rewrite Hnum. discriminate.
Qed.

(* ----------------------------------------------------------------- *)
(** *** Reading back a canonical date *)

Lemma zero_pad_4_value (z : Z) :
  0 <= z < 10000 ->
  exists a b c d,
    Strptime.zero_pad 4 z = String a (String b (String c (String d EmptyString)))
    /\ Str.isdigit a = true /\ Str.isdigit b = true
    /\ Str.isdigit c = true /\ Str.isdigit d = true
    /\ PyFloat.digits_value [a; b; c; d] = z.
Proof using.
  clear float_repr to_datetime year_padded.
  intros Hz.
  assert (H : (if z <? 10000 then four_digits_of z (Strptime.zero_pad 4 z) else true)
              = true).
  { apply (all_below_Z 14 (fun z => if z <? 10000
                                     then four_digits_of z (Strptime.zero_pad 4 z)
                                     else true));
      [vm_compute; reflexivity|]. change (2 ^ Z.of_nat 14) with 16384. lia. }
  destruct (z <? 10000) eqn:E; [|apply Z.ltb_ge in E; lia].
  unfold four_digits_of in H.
  destruct (Strptime.zero_pad 4 z) as [|a [|b [|c [|d [|e v]]]]]; try discriminate.
  cbn [Str.chars list_ascii_of_string] in H.
  rewrite !andb_true_iff in H. destruct H as [[[[Ha Hb] Hc] Hd] Hv].
  apply Z.eqb_eq in Hv. exists a, b, c, d. tauto.
Qed.

Lemma first_some_head {A B} (k : A -> option B) (x : A) (l : list A) (y : B) :
  k x = Some y -> Strptime.first_some k (x :: l) = Some y.
Proof. intros H. simpl. now rewrite H. Qed.

Lemma first_some_none {A B} (k : A -> option B) (l : list A) :
  (forall x, In x l -> k x = None) -> Strptime.first_some k l = None.
Proof.
  induction l as [|x l IH]; intros H; [reflexivity|]. simpl.
  rewrite (H x) by now left. apply IH. intros y Hy. apply H. now right.
Qed.

Lemma regex_year (ds : list Strptime.directive) (a b c d : ascii)
  (y m dd : Z) (r : list ascii) (res : Strptime.fields * list ascii) :
  Str.isdigit a = true -> Str.isdigit b = true ->
  Str.isdigit c = true -> Str.isdigit d = true ->
  Strptime.regex_match ds (PyFloat.digits_value [a; b; c; d], m, dd) r = Some res ->
  Strptime.regex_match (Strptime.Year :: ds) (y, m, dd) (a :: b :: c :: d :: r)
  = Some res.
Proof.
  intros Ha Hb Hc Hd H. cbn [Strptime.regex_match Strptime.candidates].
  unfold Strptime.year_matches. rewrite Ha, Hb, Hc, Hd. cbn [andb map fst snd].
  now apply first_some_head.
Qed.

Lemma regex_hyphen (ds : list Strptime.directive) (f : Strptime.fields)
  (r : list ascii) (res : Strptime.fields * list ascii) :
  Strptime.regex_match ds f r = Some res ->
  Strptime.regex_match (Strptime.Lit "-" :: ds) f ("-"%char :: r) = Some res.
Proof.
  intros H. cbn [Strptime.regex_match]. destruct f as [[y m] dd].
  cbn. rewrite H. reflexivity.
Qed.

Ltac split_cases H :=
  repeat match type of H with
         | _ \/ _ => destruct H as [H|H]
         end.

Lemma regex_month (ds : list Strptime.directive) (y m0 dd m : Z)
  (r : list ascii) (res : Strptime.fields * list ascii) :
  1 <= m <= 12 ->
  Strptime.regex_match ds (y, m, dd) r = Some res ->
  Strptime.regex_match (Strptime.Month :: ds) (y, m0, dd)
    (Str.chars (Strptime.zero_pad 2 m) ++ r) = Some res.
Proof.
  intros Hm H.
  assert (C : m = 1 \/ m = 2 \/ m = 3 \/ m = 4 \/ m = 5 \/ m = 6 \/ m = 7
              \/ m = 8 \/ m = 9 \/ m = 10 \/ m = 11 \/ m = 12) by lia.
  split_cases C; subst m;
    cbn [Strptime.regex_match Strptime.candidates];
    apply first_some_head; exact H.
Qed.

Lemma regex_day_last (y m d0 d : Z) :
  1 <= d <= 31 ->
  Strptime.regex_match [Strptime.Day] (y, m, d0) (Str.chars (Strptime.zero_pad 2 d))
  = Some ((y, m, d), []).
Proof.
  intros Hd.
  assert (C : d = 1 \/ d = 2 \/ d = 3 \/ d = 4 \/ d = 5 \/ d = 6 \/ d = 7
              \/ d = 8 \/ d = 9 \/ d = 10 \/ d = 11 \/ d = 12 \/ d = 13
              \/ d = 14 \/ d = 15 \/ d = 16 \/ d = 17 \/ d = 18 \/ d = 19
              \/ d = 20 \/ d = 21 \/ d = 22 \/ d = 23 \/ d = 24 \/ d = 25
              \/ d = 26 \/ d = 27 \/ d = 28 \/ d = 29 \/ d = 30 \/ d = 31) by lia.
  split_cases C; subst d; reflexivity.
Qed.

Lemma date_eta (d : date) : mkDate (year d) (month d) (day d) = d.
Proof. now destruct d. Qed.

(** The text of a date with its year on four digits, character by
    character. *)
Lemma padded_chars (d : date) :
  Strptime.valid_date d = true ->
  exists y1 y2 y3 y4,
    Str.chars (Strptime.strftime true d) =
      (y1 :: y2 :: y3 :: y4 :: "-"%char
          :: Str.chars (Strptime.zero_pad 2 (month d))
          ++ "-"%char :: Str.chars (Strptime.zero_pad 2 (day d)))%list
    /\ Str.isdigit y1 = true /\ Str.isdigit y2 = true
    /\ Str.isdigit y3 = true /\ Str.isdigit y4 = true
    /\ PyFloat.digits_value [y1; y2; y3; y4] = year d.
Proof using.
  clear float_repr to_datetime year_padded.
  intros Hv. destruct (valid_date_bounds d Hv) as [Hy _].
  destruct (zero_pad_4_value (year d) ltac:(lia)) as [a [b [c [e [E H]]]]].
  exists a, b, c, e. split; [|exact H].
  unfold Strptime.strftime, Strptime.year_text. rewrite E, !chars_app. reflexivity.
Qed.

(** With the year padded, or from the year 1000 on, the text is the
    padded one. *)
Lemma strftime_padded (padded : bool) (d : date) :
  Strptime.valid_date d = true ->
  padded = true \/ 1000 <= year d ->
  Strptime.strftime padded d = Strptime.strftime true d.
Proof using.
  clear float_repr to_datetime year_padded.
  intros Hv [-> | Hy]; [reflexivity|].
  destruct (valid_date_bounds d Hv) as [Hy' _].
  unfold Strptime.strftime. rewrite !year_text_from_1000 by lia. reflexivity.
Qed.

Lemma strptime_reads_canonical (d : date) :
  Strptime.valid_date d = true ->
  Strptime.strptime (Strptime.strftime true d) "%Y-%m-%d" = Some d.
Proof using.
  clear float_repr to_datetime year_padded.
  intros Hv. destruct (valid_date_bounds d Hv) as [Hy [Hm Hd]].
  destruct (padded_chars d Hv) as [y1 [y2 [y3 [y4 [E [H1 [H2 [H3 [H4 V]]]]]]]]].
  unfold Strptime.strptime. rewrite E.
  change (Strptime.compile (Str.chars "%Y-%m-%d"))
    with [Strptime.Year; Strptime.Lit "-"; Strptime.Month; Strptime.Lit "-";
          Strptime.Day].
  unfold Strptime.defaults.
  assert (R : Strptime.regex_match
                [Strptime.Lit "-"; Strptime.Month; Strptime.Lit "-"; Strptime.Day]
                (PyFloat.digits_value [y1; y2; y3; y4], 1, 1)
                ("-"%char :: Str.chars (Strptime.zero_pad 2 (month d))
                   ++ "-"%char :: Str.chars (Strptime.zero_pad 2 (day d)))%list
              = Some ((year d, month d, day d), [])).
  { rewrite V. apply regex_hyphen, regex_month; [assumption|].
    apply regex_hyphen, regex_day_last. assumption. }
  rewrite (regex_year _ y1 y2 y3 y4 1900 1 1 _ _ H1 H2 H3 H4 R).
  rewrite date_eta, Hv. reflexivity.
Qed.

(** A year on fewer than four digits is not read by [%Y]. *)
Lemma strptime_short_year_fails (d : date) :
  Strptime.valid_date d = true -> year d < 1000 ->
  Strptime.strptime (Strptime.strftime false d) "%Y-%m-%d" = None.
Proof using.
  clear float_repr to_datetime year_padded.
  intros Hv Hy. destruct (valid_date_bounds d Hv) as [Hy' _].
  destruct (strftime_chars false d Hv)
    as [m1 [m2 [d1 [d2 [E [_ [_ [Hm1 [Hm2 [Hd1 Hd2]]]]]]]]]].
  assert (L : (String.length (Strptime.year_text false (year d)) <= 3)%nat).
  { unfold Strptime.year_text.
    assert (H : (if year d <? 1000
                 then Nat.leb (String.length (str_of_int (year d))) 3 else true)
                = true).
    { apply (all_below_Z 10 (fun y => if y <? 1000
                                       then Nat.leb (String.length (str_of_int y)) 3
                                       else true));
        [vm_compute; reflexivity|]. change (2 ^ Z.of_nat 10) with 1024. lia. }
    destruct (year d <? 1000) eqn:E1; [|apply Z.ltb_ge in E1; lia].
    now apply Nat.leb_le. }
  rewrite <- length_chars in L.
  unfold Strptime.strptime. rewrite E.
  change (Strptime.compile (Str.chars "%Y-%m-%d"))
    with [Strptime.Year; Strptime.Lit "-"; Strptime.Month; Strptime.Lit "-";
          Strptime.Day].
  unfold Strptime.defaults.
  cbn [Strptime.regex_match Strptime.candidates].
  replace (Strptime.year_matches
             (Str.chars (Strptime.year_text false (year d))
                ++ ["-"%char; m1; m2; "-"%char; d1; d2])%list)
    with (@nil (Z * list ascii)); [reflexivity|].
  destruct (Str.chars (Strptime.year_text false (year d)))
    as [|a [|b [|c [|e t]]]]; simpl in L; try lia;
    cbn [app Strptime.year_matches];
    change (Str.isdigit "-") with false;
    rewrite ?andb_false_r; reflexivity.
Qed.

Lemma day_matches_rest (a b : ascii) (r : list ascii) (q : Z * list ascii) :
  In q (Strptime.day_matches (a :: b :: r)) -> snd q = b :: r \/ snd q = r.
Proof.
  unfold Strptime.day_matches.
  destruct ((Str.eqc a "3" && Str.between 48 49 b)
            || (Str.between 49 50 a && Str.isdigit b)
            || (Str.eqc a "0" && Str.between 49 57 b));
    [|destruct (Str.eqc a " " && Str.between 49 57 b)];
    destruct (Str.between 49 57 a); simpl;
    intros H; repeat (destruct H as [<-|H]; [simpl; tauto|]); contradiction.
Qed.

Lemma digit_not_separator (c : ascii) :
  Str.isdigit c = true ->
  Str.isspace c = false /\
  Str.eqc (Str.tolower c) (Str.tolower "-") = false /\
  Str.eqc (Str.tolower c) (Str.tolower "/") = false.
Proof. each_char c; vm_compute; intros H; try discriminate H; repeat split. Qed.

(** A text that starts with three digits is not read by a format that
    starts with the day and a separator. *)
Lemma regex_day_first_fails (sep : ascii) (ds : list Strptime.directive)
  (f : Strptime.fields) (a b c : ascii) (r : list ascii) :
  sep = "-"%char \/ sep = "/"%char ->
  Str.isdigit b = true -> Str.isdigit c = true ->
  Strptime.regex_match (Strptime.Day :: Strptime.Lit sep :: ds) f (a :: b :: c :: r)
  = None.
Proof.
  intros Hsep Hb Hc. destruct f as [[y m] dd].
  cbn [Strptime.regex_match Strptime.candidates].
  apply first_some_none. intros p Hp.
  apply in_map_iff in Hp. destruct Hp as [q [<- Hq]].
  apply day_matches_rest in Hq. cbn [fst snd].
  assert (F : forall x l, Str.isdigit x = true ->
            Strptime.first_some
              (fun p => Strptime.regex_match ds (fst p) (snd p))
              (Strptime.candidates (Strptime.Lit sep) (y, m, fst q) (x :: l)) = None).
  { intros x l Hx. cbn [Strptime.candidates].
    destruct (digit_not_separator x Hx) as [_ [E1 E2]].
    destruct Hsep as [-> | ->]; [rewrite E1|rewrite E2]; reflexivity. }
  destruct Hq as [-> | ->]; now apply F.
Qed.

Lemma strptime_day_first_fails (d : date) (fmt : string) :
  Strptime.valid_date d = true ->
  fmt = "%d-%m-%Y" \/ fmt = "%d/%m/%Y" ->
  Strptime.strptime (Strptime.strftime true d) fmt = None.
Proof using.
  clear float_repr to_datetime year_padded.
  intros Hv Hf.
  destruct (padded_chars d Hv) as [y1 [y2 [y3 [y4 [E [H1 [H2 [H3 [H4 V]]]]]]]]].
  unfold Strptime.strptime. rewrite E.
  destruct Hf as [-> | ->].
  - change (Strptime.compile (Str.chars "%d-%m-%Y"))
      with [Strptime.Day; Strptime.Lit "-"; Strptime.Month; Strptime.Lit "-";
            Strptime.Year].
    rewrite regex_day_first_fails; auto.
  - change (Strptime.compile (Str.chars "%d/%m/%Y"))
      with [Strptime.Day; Strptime.Lit "/"; Strptime.Month; Strptime.Lit "/";
            Strptime.Year].
    rewrite regex_day_first_fails; auto.
Qed.

Lemma strftime_strip (d : date) :
  Strptime.valid_date d = true ->
  Str.strip (Strptime.strftime true d) = Strptime.strftime true d.
Proof using.
  clear float_repr to_datetime year_padded.
  intros Hv. destruct (valid_date_bounds d Hv) as [_ [Hm Hd]].
  destruct (padded_chars d Hv) as [y1 [y2 [y3 [y4 [E [H1 [H2 [H3 [H4 _]]]]]]]]].
  destruct (all_digits_2_inv _ (zero_pad_2 (month d) ltac:(lia))) as [m1 [m2 [Em Hmm]]].
  destruct (all_digits_2_inv _ (zero_pad_2 (day d) ltac:(lia))) as [d1 [d2 [Ed Hdd]]].
  apply andb_true_iff in Hmm. destruct Hmm as [Hm1 Hm2].
  apply andb_true_iff in Hdd. destruct Hdd as [Hd1 Hd2].
  unfold Str.strip. rewrite strip_no_space.
  - apply string_of_list_ascii_of_string.
  - rewrite E, Em, Ed. cbn [Str.chars list_ascii_of_string app].
    intros c Hc. simpl in Hc.
    repeat (destruct Hc as [<-|Hc];
            [first [reflexivity | now apply digit_not_separator]|]).
    contradiction.
Qed.

Lemma clean_date_keeps_written (d : date) :
  Strptime.valid_date d = true ->
  year_padded = true \/ 1000 <= year d ->
  clean_date (CStr (Strptime.strftime year_padded d))
  = Some (Strptime.strftime year_padded d).
Proof.
  intros Hv Hp. rewrite (strftime_padded year_padded d Hv Hp).
  unfold clean_date, read_date. cbn [str]. rewrite (strftime_strip d Hv).
  unfold known_formats. cbn [try_formats].
  rewrite (strptime_day_first_fails d "%d-%m-%Y" Hv) by now left.
  rewrite (strptime_day_first_fails d "%d/%m/%Y" Hv) by now right.
  rewrite (strptime_reads_canonical d Hv).
  now rewrite (strftime_padded year_padded d Hv Hp).
Qed.

(** Where [strftime] pads the year, and everywhere from the year 1000
    on, a date it has written is read back as the same date by the
    format %Y-%m-%d, and a cell that holds the text is left as it is by
    [clean_date]: the two formats tried before do not read it.  Where
    the year is not padded, the text of a date before the year 1000 is
    not read by that format. *)
Theorem canonical_date_is_kept (d : date) :
  Strptime.valid_date d = true ->
  (year_padded = true \/ 1000 <= year d ->
   Strptime.strptime (Strptime.strftime year_padded d) "%Y-%m-%d" = Some d /\
   clean_date (CStr (Strptime.strftime year_padded d))
   = Some (Strptime.strftime year_padded d)) /\
  (year_padded = false -> year d < 1000 ->
   Strptime.strptime (Strptime.strftime year_padded d) "%Y-%m-%d" = None).
Proof.
  intros Hv. split.
  - intros Hp. split; [|now apply clean_date_keeps_written].
    rewrite (strftime_padded year_padded d Hv Hp).
    now apply strptime_reads_canonical.
  - intros -> Hy. now apply strptime_short_year_fails.
Qed.

Section DatesTwice.

(** What is asked of [pd.to_datetime]: a Timestamp is a date of the
    calendar, and [None] is not read as a date. *)
Hypothesis timestamp_valid :
  forall x d, to_datetime x = Some d -> Strptime.valid_date d = true.
Hypothesis to_datetime_none : to_datetime CNone = None.

Lemma clean_date_none : clean_date CNone = None.
Proof.
  unfold clean_date, read_date. cbn [str].
  replace (try_formats (Str.strip "None") known_formats) with (@None date)
    by (vm_compute; reflexivity).
  now rewrite to_datetime_none.
Qed.

Lemma clean_date_twice (x : cell) :
  year_padded = true \/ (forall d, read_date x = Some d -> 1000 <= year d) ->
  clean_date (cell_of_text (clean_date x)) = clean_date x.
Proof.
  intros Hp. destruct (clean_date x) as [v|] eqn:E; cbn [cell_of_text].
  - apply clean_date_read in E. destruct E as [d [Hd ->]].
    apply clean_date_keeps_written.
    + exact (read_date_valid timestamp_valid x d Hd).
    + destruct Hp as [Hp|Hp]; [now left|right; now apply Hp].
  - apply clean_date_none.
Qed.

Lemma date_column_twice (col : string) (s : Series) :
  year_padded = true \/
  (forall x d, In x (values s) -> read_date x = Some d -> 1000 <= year d) ->
  date_column col (date_column col s) = date_column col s.
Proof.
  intros Hp. unfold date_column at 2 3.
  destruct (is_object (dt s) && existsb truthy (map clean_date (values s))) eqn:E.
  - unfold date_column. cbn [dt values is_object andb].
    assert (M : map clean_date (map cell_of_text (map clean_date (values s)))
                = map clean_date (values s)).
    { rewrite !map_map. apply map_ext_in. intros x Hx. apply clean_date_twice.
      destruct Hp as [Hp|Hp]; [now left|right; intros d; now apply Hp]. }
    rewrite M. apply andb_true_iff in E. destruct E as [_ E]. now rewrite E.
  - unfold date_column. now rewrite E.
Qed.

(** Parsing the dates twice is parsing them once, where [strftime]
    pads the year, and everywhere when no cell of the frame holds a
    date before the year 1000: a column rewritten by the first pass
    holds canonical texts and [None], and the second pass writes the
    same cells again. *)
Theorem parse_date_columns_idempotent (df : DataFrame) :
  NoDup (columns df) ->
  year_padded = true \/
  (forall col s x d,
      In (col, s) df -> In x (values s) -> read_date x = Some d ->
      1000 <= year d) ->
  exists df',
    parse_date_columns df = Ok df' /\
    parse_date_columns df' = Ok df'.
Proof.
  intros Hnd Hp. rewrite (parse_date_columnwise df Hnd).
  eexists; split; [reflexivity|].
  rewrite parse_date_columnwise by now rewrite columns_map_all.
  f_equal. unfold map_all_columns. rewrite map_map. apply map_ext_in.
  intros [n s] Hin. cbn [fst snd]. rewrite date_column_twice; [reflexivity|].
  destruct Hp as [Hp|Hp]; [now left|right].
  intros x d. now apply (Hp n s).
Qed.

End DatesTwice.

Lemma replace_cell_twice (x : cell) :
  replace_cell text_to_num (replace_cell text_to_num x) = replace_cell text_to_num x.
Proof using.
  clear float_repr to_datetime.
  destruct x as [v|z|f|]; try reflexivity.
  unfold replace_cell, text_to_num. cbn [dict_get].
  destruct ("thirty" =? v)%string eqn:E1; [reflexivity|].
  destruct ("twenty two" =? v)%string eqn:E2; [reflexivity|].
  destruct ("twenty" =? v)%string eqn:E3; [reflexivity|].
  destruct ("forty" =? v)%string eqn:E4; [reflexivity|].
  destruct ("none" =? v)%string eqn:E5; [reflexivity|].
  now rewrite E1, E2, E3, E4, E5.
Qed.

Lemma coerce_cell_not_text (x : cell) : not_text (coerce_cell x) = true.
Proof using.
  clear float_repr to_datetime.
  destruct x as [v|z|f|]; try reflexivity.
  unfold coerce_cell. destruct (PdNumeric.floatify v) as [[z|f]|]; reflexivity.
Qed.

Lemma to_float_cell_not_text (x : cell) :
  not_text x = true -> not_text (to_float_cell x) = true.
Proof using. clear float_repr to_datetime. now destruct x. Qed.

Lemma replace_not_text (d : list (string * cell)) (l : list cell) :
  forallb not_text l = true -> map (replace_cell d) l = l.
Proof using.
  clear float_repr to_datetime.
  induction l as [|x l IH]; [reflexivity|]. simpl.
  intros H. apply andb_true_iff in H. destruct H as [Hx Hl].
  rewrite (IH Hl). now destruct x.
Qed.

Lemma age_pass_on_numbers (t : dtype) (l : list cell) :
  t <> object -> forallb not_text l = true ->
  to_numeric (replace text_to_num (mkSeries t l)) = mkSeries t l.
Proof using.
  clear float_repr to_datetime.
  intros Ht Hl. unfold to_numeric, replace. cbn [dt values].
  rewrite (replace_not_text _ _ Hl). destruct t; [contradiction|reflexivity..].
Qed.

Lemma age_pass_gives_numbers (vs : list cell) :
  exists t l,
    to_numeric (replace text_to_num (mkSeries object vs)) = mkSeries t l /\
    t <> object /\ forallb not_text l = true.
Proof using.
  clear float_repr to_datetime.
  assert (N : forallb not_text (map coerce_cell (map (replace_cell text_to_num) vs))
              = true).
  { apply forallb_forall. intros y Hy. apply in_map_iff in Hy.
    destruct Hy as [x [<- _]]. apply coerce_cell_not_text. }
  unfold to_numeric, replace. cbn [dt values].
  destruct (all_int (map coerce_cell (map (replace_cell text_to_num) vs))).
  - eexists _, _. split; [reflexivity|]. split; [discriminate|exact N].
  - eexists _, _. split; [reflexivity|]. split; [discriminate|].
    apply forallb_forall. intros y Hy.
    apply in_map_iff in Hy. destruct Hy as [x [<- Hx]].
    apply to_float_cell_not_text.
    rewrite forallb_forall in N. now apply N.
Qed.

Lemma age_column_twice (col : string) (s : Series) :
  age_column col (age_column col s) = age_column col s.
Proof using.
  clear float_repr to_datetime.
  unfold age_column. destruct (Str.contains "age" (Str.lower col)); [|reflexivity].
  destruct s as [t vs]. destruct t.
  - destruct (age_pass_gives_numbers vs) as [t [l [-> [Ht Hl]]]].
    now apply age_pass_on_numbers.
  - unfold replace, to_numeric. cbn [dt values]. f_equal.
    rewrite map_map. apply map_ext. intros x. apply replace_cell_twice.
  - unfold replace, to_numeric. cbn [dt values]. f_equal.
    rewrite map_map. apply map_ext. intros x. apply replace_cell_twice.
Qed.

(** Normalizing the age columns twice is normalizing them once: after
    the first pass an age column holds numbers only, which neither the
    replacement of the number words nor the conversion touches. *)
Theorem normalize_age_column_idempotent (df : DataFrame) :
  NoDup (columns df) ->
  exists df',
    normalize_age_column df = Ok df' /\
    normalize_age_column df' = Ok df'.
Proof using.
  clear float_repr to_datetime.
  intros Hnd. rewrite (normalize_age_columnwise df Hnd).
  eexists; split; [reflexivity|].
  rewrite normalize_age_columnwise by now rewrite columns_map_all.
  f_equal. unfold map_all_columns. rewrite map_map. apply map_ext.
  intros [n s]. cbn [fst snd]. now rewrite age_column_twice.
Qed.

Lemma rows_clean_column_names (df : DataFrame) :
  rows (clean_column_names df) = rows df.
Proof using.
  clear float_repr to_datetime.
  unfold rows. rewrite nrows_clean_column_names. apply map_ext. intros i.
  unfold clean_column_names. rewrite map_map. reflexivity.
Qed.

Lemma with_rows_from_clean_column_names (k : nat) (df : DataFrame) (rs : list row) :
  with_rows_from k (clean_column_names df) rs
  = clean_column_names (with_rows_from k df rs).
Proof using.
  clear float_repr to_datetime.
  revert k. induction df as [|[n s] df IH]; intros k; [reflexivity|].
  simpl. f_equal. apply IH.
Qed.

(** Renaming the columns and dropping the duplicated rows can be done in
    either order. *)
Lemma remove_duplicates_clean_column_names (df : DataFrame) :
  remove_duplicates (clean_column_names df)
  = clean_column_names (remove_duplicates df).
Proof using.
  clear float_repr to_datetime.
  unfold remove_duplicates, with_rows.
  now rewrite rows_clean_column_names, with_rows_from_clean_column_names.
Qed.

(** The rows of the report of [auto_clean]: the only step that drops
    rows is the deduplication, so "Rows After" is the number of rows of
    the input that are not equal to a row above them, and it is the
    number of rows of the frame returned; the two column counts of the
    report are equal. *)
Theorem auto_clean_row_accounting (df : DataFrame) :
  NoDup (map normalize_name (columns df)) ->
  exists df' r,
    auto_clean df = Ok (df', r) /\
    rows_before r = nrows df /\
    rows_after r = nrows (remove_duplicates df) /\
    nrows df' = nrows (remove_duplicates df) /\
    columns_after r = columns_before r.
Proof.
  intros Hnd. unfold auto_clean.
  set (d2 := remove_duplicates (clean_column_names df)).
  assert (C2 : columns d2 = map normalize_name (columns df)).
  { unfold d2. now rewrite columns_remove_duplicates, columns_clean_column_names. }
  assert (N2 : NoDup (columns d2)) by now rewrite C2.
  rewrite (clean_text_columnwise d2 N2); cbn [bind].
  set (d3 := map_all_columns text_column d2).
  assert (C3 : columns d3 = columns d2) by apply columns_map_all.
  rewrite (normalize_salary_columnwise d3) by now rewrite C3. cbn [bind].
  set (d4 := map_all_columns salary_column d3).
  assert (C4 : columns d4 = columns d3) by apply columns_map_all.
  rewrite (normalize_age_columnwise d4) by now rewrite C4, C3. cbn [bind].
  set (d5 := map_all_columns age_column d4).
  assert (C5 : columns d5 = columns d4) by apply columns_map_all.
  rewrite (parse_date_columnwise d5) by now rewrite C5, C4, C3. cbn [bind].
  set (d6 := map_all_columns date_column d5).
  assert (C6 : columns d6 = columns d5) by apply columns_map_all.
  rewrite (handle_missing_columnwise default_threshold d6);
    [|now rewrite C6, C5, C4, C3
     |intros; apply below_one_has_mode, default_threshold_below_one].
  cbn [bind].
  set (d7 := map_all_columns (missing_column default_threshold) d6).
  assert (R : nrows d7 = nrows (remove_duplicates df)).
  { unfold d7, d6, d5, d4, d3.
    rewrite (nrows_map_all (missing_column default_threshold))
      by (intros; apply missing_column_shape).
    rewrite (nrows_map_all date_column) by apply length_date_column.
    rewrite (nrows_map_all age_column) by apply length_age_column.
    rewrite (nrows_map_all salary_column) by apply length_salary_column.
    rewrite (nrows_map_all text_column) by apply length_text_column.
    unfold d2.
    now rewrite remove_duplicates_clean_column_names, nrows_clean_column_names. }
  exists d7, (generate_cleaning_report df d7).
  split; [reflexivity|]. unfold generate_cleaning_report.
  cbn [rows_before rows_after columns_before columns_after].
  split; [reflexivity|]. split; [exact R|]. split; [exact R|].
  unfold d7, d6, d5, d4, d3, d2. rewrite !ncols_map_all, ncols_remove_duplicates.
  unfold ncols, clean_column_names. apply length_map.
Qed.

End Pipeline.

(* ================================================================= *)
(** ** The theorems at work on the sample frames *)

Ltac distinct_labels :=
  vm_compute;
  repeat (constructor; [simpl; intuition discriminate|]); constructor.

Lemma epoch_inference_valid :
  forall x d, epoch_inference x = Some d -> Strptime.valid_date d = true.
Proof.
  intros x d. destruct x; simpl; try discriminate.
  intros H. inversion H. reflexivity.
Qed.

(** Two labels that differ by case only are given one name. *)
Lemma colliding_names_not_unique :
  NoDup (columns frame_a_A) /\ ~ NoDup (columns (clean_column_names frame_a_A)).
Proof.
  split; [distinct_labels|].
  vm_compute. intros H. inversion H as [|? ? Hin _]. apply Hin. now left.
Qed.

(** The frame with the labels "a" and "A" is well formed, and
    [auto_clean] raises on it: [df["A"]] is a DataFrame in the text
    cleaner, which has no [.str]. *)
Lemma auto_clean_raises_on_colliding_names :
  NoDup (columns frame_a_A) /\
  auto_clean whole_repr epoch_inference false frame_a_A = Raise AttributeError.
Proof. split; [distinct_labels|vm_compute; reflexivity]. Qed.

Lemma auto_clean_returns_witness :
  NoDup (map normalize_name (columns frame_staff)) /\
  exists df' r,
    auto_clean whole_repr epoch_inference false frame_staff = Ok (df', r) /\
    columns df' = ["Full_Name"; "Salary"; "Age"; "Joined"; "Score"] /\
    (nrows df' <= nrows frame_staff)%nat.
Proof.
  assert (H : NoDup (map normalize_name (columns frame_staff)))
    by distinct_labels.
  split; [exact H|].
  destruct (auto_clean_returns whole_repr epoch_inference false frame_staff H)
    as [df' [r [H1 [H2 [_ [_ H5]]]]]].
  exists df', r. split; [exact H1|]. split; [exact H2|exact H5].
Defined.






Lemma age_normalization_witness :
  NoDup (columns frame_age) /\
  exists df',
    normalize_age_column frame_age = Ok df' /\ columns df' = columns frame_age.
Proof.
  assert (H : NoDup (columns frame_age)) by distinct_labels.
  split; [exact H|].
  destruct (age_normalization frame_age H) as [df' [H1 [H2 _]]].
  exists df'. split; [exact H1|exact H2].
Defined.

Lemma date_formats_witness :
  known_formats =
    (["%d-%m-%Y"; "%d/%m/%Y"; "%Y-%m-%d"; "%m/%d/%Y"] ++ "%Y/%m/%d"
       :: ["%d-%b-%Y"; "%d %B %Y"; "%B %d, %Y"; "%b %d, %Y"])%list /\
  Strptime.strptime "2023/03/04" "%Y/%m/%d" = Some (mkDate 2023 3 4) /\
  clean_date whole_repr epoch_inference false (CStr " 2023/03/04 ") = Some "2023-03-04".
Proof.
  split; [reflexivity|]. split; [vm_compute; reflexivity|].
  refine (proj1 (proj2 (proj2 (proj2 (date_formats_priority whole_repr epoch_inference false))))
            (CStr " 2023/03/04 ")
            ["%d-%m-%Y"; "%d/%m/%Y"; "%Y-%m-%d"; "%m/%d/%Y"] "%Y/%m/%d"
            ["%d-%b-%Y"; "%d %B %Y"; "%B %d, %Y"; "%b %d, %Y"]
            (mkDate 2023 3 4) eq_refl _ _).
  - intros f Hf. simpl in Hf.
    destruct Hf as [<-|[<-|[<-|[<-|[]]]]]; vm_compute; reflexivity.
  - vm_compute. reflexivity.
Defined.



Lemma missing_text_cell_witness :
  NoDup (columns frame_city) /\
  exists df', clean_text_columns whole_repr frame_city = Ok df'.
Proof.
  assert (H : NoDup (columns frame_city)) by distinct_labels.
  split; [exact H|].
  destruct (missing_text_cell_becomes_nan whole_repr frame_city H) as [df' [H1 _]].
  exists df'. exact H1.
Defined.

(** The staff table through the whole pipeline: the repeated row is
    gone, the names are normalized, and each column is in its cleaned
    form. *)
Example auto_clean_staff :
  auto_clean whole_repr epoch_inference false frame_staff =
  Ok ([ ("Full_Name", mkSeries object [CStr "John Smith"; CStr "Ann Lee"; CStr "Nan"]);
        ("Salary", mkSeries float64
           [CFloat (FFin 50000); CFloat (FFin 40); CFloat (FFin 60000)]);
        ("Age", mkSeries float64
           [CFloat (FFin 30); CFloat (FFin 22); CFloat (FFin 26)]);
        ("Joined", mkSeries object
           [CStr "2023-02-01"; CStr "2023-03-04"; CStr "2021-03-05"]);
        ("Score", mkSeries float64
           [CFloat (FFin 1); CFloat (FFin (5 # 2)); CFloat (FFin 4)]) ],
      mkReport 4 3 5 5).
Proof. vm_compute. reflexivity. Qed.

(* ----------------------------------------------------------------- *)
(** *** Deduplication *)

(** In a frame of one column [None] and NaN are kept apart; with a
    second column beside them they are one missing value. *)
Example none_and_nan_rows :
  remove_duplicates frame_notes
    = [ ("Note", mkSeries object [CNone; CFloat FNaN]) ] /\
  remove_duplicates frame_notes_wide
    = [ ("Note", mkSeries object [CNone]); ("Id", mkSeries int64 [CInt 1]) ].
Proof. split; reflexivity. Qed.

Lemma remove_duplicates_rows_distinct_witness :
  rows (remove_duplicates frame_notes)
    = ([[CNone]] ++ [CFloat FNaN] :: [])%list /\
  existsb (duplicate_of [CFloat FNaN]) [[CNone]] = false.
Proof.
  split; [reflexivity|].
  exact (proj1 (remove_duplicates_rows_distinct frame_notes
                  [[CNone]] [CFloat FNaN] [] eq_refl)).
Defined.

Lemma remove_duplicates_nothing_to_drop_witness :
  (forall p, In p frame_city -> List.length (values (snd p)) = nrows frame_city) /\
  remove_duplicates frame_city = frame_city.
Proof.
  assert (H : forall p, In p frame_city ->
                        List.length (values (snd p)) = nrows frame_city).
  { intros p [<-|[]]. reflexivity. }
  split; [exact H|].
  apply (remove_duplicates_nothing_to_drop frame_city H).
  intros pre r post E.
  change (rows frame_city) with [[CStr "b"]; [CStr "a"]; [CFloat FNaN]] in E.
  destruct pre as [|a [|b [|c pre]]]; simpl in E; inversion E; subst;
    try reflexivity.
  destruct pre; discriminate.
Defined.

(* ----------------------------------------------------------------- *)
(** *** Salaries *)

Lemma roman_to_int_bounds_witness :
  fullmatch_roman "xiv" = true /\ 1 <= roman_to_int "xiv".
Proof.
  split; [reflexivity|].
  exact (proj2 (roman_to_int_bounds "xiv") eq_refl).
Defined.

Lemma parse_salary_reads_roman_numerals_witness :
  1 <= 1994 <= 3999 /\
  parse_salary whole_repr (CStr (to_roman 1994)) = Some (PInt 1994).
Proof.
  assert (H : 1 <= 1994 <= 3999) by lia.
  split; [exact H|].
  exact (proj1 (parse_salary_reads_roman_numerals whole_repr 1994 H)).
Defined.

(** The digits of a number beyond the doubles are read as the positive
    infinity; "0.0001k" is read as the double nearest to 0.1, which is
    not 1/10. *)
Example parse_salary_rounds :
  parse_salary whole_repr (CStr ("2" ++ Str.of_chars (repeat "0"%char 308)))
    = Some (PFloat (FInf false)) /\
  parse_salary whole_repr (CStr "0.0001k")
    = Some (PFloat (FFin (Qmake 3602879701896397 36028797018963968))).
Proof. split; vm_compute; reflexivity. Qed.

Lemma parse_salary_without_k_witness :
  Str.contains "k" (clean_salary_text whole_repr (CStr "$50,000")) = false /\
  plain_amount (parse_salary whole_repr (CStr "$50,000")).
Proof.
  split; [reflexivity|].
  exact (parse_salary_without_k whole_repr (CStr "$50,000") eq_refl).
Defined.

Lemma salary_column_holds_numbers_witness :
  NoDup (columns frame_staff) /\
  exists df',
    normalize_salary_column whole_repr frame_staff = Ok df' /\
    columns df' = columns frame_staff.
Proof.
  assert (H : NoDup (columns frame_staff)) by distinct_labels.
  split; [exact H|].
  destruct (salary_column_holds_numbers whole_repr frame_staff H)
    as [df' [H1 [H2 _]]].
  exists df'. split; [exact H1|exact H2].
Defined.

(* ----------------------------------------------------------------- *)
(** *** Column names *)

Lemma clean_column_names_idempotent_witness :
  (forall col, In col (columns frame_staff) -> is_ascii col = true) /\
  clean_column_names (clean_column_names frame_staff)
    = clean_column_names frame_staff.
Proof.
  assert (H : forall col, In col (columns frame_staff) -> is_ascii col = true).
  { intros col Hin. simpl in Hin.
    repeat (destruct Hin as [<-|Hin]; [reflexivity|]). contradiction. }
  split; [exact H|].
  exact (proj1 (clean_column_names_idempotent frame_staff H)).
Defined.

(* ----------------------------------------------------------------- *)
(** *** Text *)

Lemma clean_text_alphabet_witness :
  NoDup (columns frame_staff) /\
  exists df',
    clean_text_columns whole_repr frame_staff = Ok df' /\
    columns df' = columns frame_staff.
Proof.
  assert (H : NoDup (columns frame_staff)) by distinct_labels.
  split; [exact H|].
  destruct (clean_text_alphabet whole_repr frame_staff H) as [df' [H1 [H2 _]]].
  exists df'. split; [exact H1|exact H2].
Defined.

Lemma remarks_step_changes_nothing_witness :
  NoDup (columns frame_staff) /\
  exists df', clean_text_columns whole_repr frame_staff = Ok df'.
Proof.
  assert (H : NoDup (columns frame_staff)) by distinct_labels.
  split; [exact H|].
  destruct (remarks_step_changes_nothing whole_repr frame_staff H) as [df' [H1 _]].
  exists df'. exact H1.
Defined.

(* ----------------------------------------------------------------- *)
(** *** Ages and dates *)

Lemma normalize_age_column_idempotent_witness :
  NoDup (columns frame_age) /\
  exists df',
    normalize_age_column frame_age = Ok df' /\
    normalize_age_column df' = Ok df'.
Proof.
  assert (H : NoDup (columns frame_age)) by distinct_labels.
  split; [exact H|].
  exact (normalize_age_column_idempotent frame_age H).
Defined.

Lemma canonical_date_is_kept_witness :
  Strptime.valid_date (mkDate 2024 2 29) = true /\
  (false = true \/ 1000 <= year (mkDate 2024 2 29)) /\
  Strptime.strptime (Strptime.strftime false (mkDate 2024 2 29)) "%Y-%m-%d"
    = Some (mkDate 2024 2 29) /\
  clean_date whole_repr epoch_inference false
    (CStr (Strptime.strftime false (mkDate 2024 2 29)))
    = Some (Strptime.strftime false (mkDate 2024 2 29)) /\
  Strptime.strptime (Strptime.strftime false (mkDate 999 2 1)) "%Y-%m-%d" = None.
Proof.
  assert (Hp : false = true \/ 1000 <= year (mkDate 2024 2 29))
    by (right; simpl; lia).
  split; [reflexivity|]. split; [exact Hp|].
  destruct (proj1 (canonical_date_is_kept whole_repr epoch_inference false
                     (mkDate 2024 2 29) eq_refl) Hp) as [H1 H2].
  split; [exact H1|]. split; [exact H2|].
  apply (proj2 (canonical_date_is_kept whole_repr epoch_inference false
                  (mkDate 999 2 1) eq_refl) eq_refl).
  simpl. lia.
Defined.

Lemma parse_date_columns_idempotent_witness :
  (forall x d, epoch_inference x = Some d -> Strptime.valid_date d = true) /\
  epoch_inference CNone = None /\
  NoDup (columns frame_staff) /\
  (forall col s x d,
      In (col, s) frame_staff -> In x (values s) ->
      read_date whole_repr epoch_inference x = Some d -> 1000 <= year d) /\
  exists df',
    parse_date_columns whole_repr epoch_inference false frame_staff = Ok df' /\
    parse_date_columns whole_repr epoch_inference false df' = Ok df'.
Proof.
  assert (H : NoDup (columns frame_staff)) by distinct_labels.
  assert (Hy : forall col s x d,
             In (col, s) frame_staff -> In x (values s) ->
             read_date whole_repr epoch_inference x = Some d -> 1000 <= year d).
  { intros col s x d Hin Hx Hr. unfold frame_staff in Hin. simpl in Hin.
    repeat (destruct Hin as [E|Hin];
            [inversion E; subst; clear E; simpl in Hx;
             repeat (destruct Hx as [<-|Hx];
                     [vm_compute in Hr; try discriminate Hr;
                      inversion Hr; subst; simpl; lia|]);
             contradiction|]).
    contradiction. }
  split; [exact epoch_inference_valid|]. split; [reflexivity|].
  split; [exact H|]. split; [exact Hy|].
  exact (parse_date_columns_idempotent whole_repr epoch_inference false
           epoch_inference_valid eq_refl frame_staff H (or_intror Hy)).
Defined.

(* ----------------------------------------------------------------- *)
(** *** Imputation *)

Lemma imputation_nothing_to_fill_witness :
  NoDup (columns frame_age) /\
  (forall col s, In (col, s) frame_age -> null_count s = 0%nat) /\
  handle_missing_values frame_age default_threshold = Ok frame_age.
Proof.
  assert (H : NoDup (columns frame_age)) by distinct_labels.
  assert (H0 : forall col s, In (col, s) frame_age -> null_count s = 0%nat).
  { intros col s [E|[]]. inversion E. reflexivity. }
  split; [exact H|]. split; [exact H0|].
  exact (imputation_nothing_to_fill frame_age default_threshold H H0).
Defined.

Lemma imputation_off_below_zero_witness :
  NoDup (columns frame_city) /\ (-1 < 0)%Q /\
  handle_missing_values frame_city (-1) = Ok frame_city.
Proof.
  assert (H : NoDup (columns frame_city)) by distinct_labels.
  split; [exact H|]. split; [reflexivity|].
  exact (imputation_off_below_zero frame_city (-1) H eq_refl).
Defined.

Lemma imputation_idempotent_witness :
  NoDup (columns frame_city) /\ (default_threshold < 1)%Q /\
  exists df',
    handle_missing_values frame_city default_threshold = Ok df' /\
    handle_missing_values df' default_threshold = Ok df'.
Proof.
  assert (H : NoDup (columns frame_city)) by distinct_labels.
  split; [exact H|]. split; [reflexivity|].
  exact (imputation_idempotent frame_city default_threshold H eq_refl).
Defined.

Lemma imputed_columns_complete_witness :
  NoDup (columns frame_score) /\ (default_threshold < 1)%Q /\
  exists df', handle_missing_values frame_score default_threshold = Ok df'.
Proof.
  assert (H : NoDup (columns frame_score)) by distinct_labels.
  split; [exact H|]. split; [reflexivity|].
  destruct (imputed_columns_complete frame_score default_threshold H eq_refl)
    as [df' [H1 _]].
  exists df'. exact H1.
Defined.

(* ----------------------------------------------------------------- *)
(** *** The whole pipeline *)

Lemma auto_clean_row_accounting_witness :
  NoDup (map normalize_name (columns frame_staff)) /\
  exists df' r,
    auto_clean whole_repr epoch_inference false frame_staff = Ok (df', r) /\
    rows_before r = 4%nat /\ rows_after r = 3%nat.
Proof.
  assert (H : NoDup (map normalize_name (columns frame_staff)))
    by distinct_labels.
  split; [exact H|].
  destruct (auto_clean_row_accounting whole_repr epoch_inference false frame_staff H)
    as [df' [r [H1 [H2 [H3 _]]]]].
  exists df', r. split; [exact H1|]. split; [exact H2|exact H3].
Defined.
